(** * MyBlogs: a shallow embedding of the client scripts

    The site is a static, client-rendered blog.  This development embeds
    the pure parts of [scripts/router.js], [scripts/search.js],
    [scripts/toc.js], [scripts/markdown.js] and the route handler of
    [scripts/app.js], and states the properties of the design document
    over them.

    Conventions.
    - A JavaScript string is a [string]: a sequence of 8-bit characters.
      Characters above 127 are opaque: they are neither whitespace nor
      cased.  Every string the site handles in its own data (slugs, folder
      names, the queries of the examples) is ASCII.
    - [string | null] is [option string]; a JavaScript truthiness test on
      such a value is [truthy].
    - Numbers that the scripts compute are small integers, kept in [Z].
    - An object used as a dictionary is a [gmap string _]. *)

From stdpp Require Import gmap strings list sorting pretty.
From Stdlib Require Import Ascii ZArith Lia.

Local Open Scope Z_scope.

(** ** JavaScript strings *)

Module JsString.

(** [Boolean(s)] on a string: the empty string is the only falsy one. *)
Definition Boolean (s : string) : bool :=
  match s with
  | EmptyString => false
  | String _ _ => true
  end.

(** Truthiness of a [string | null] value. *)
Definition truthy (o : option string) : bool :=
  match o with
  | Some s => Boolean s
  | None => false
  end.

(** [x || null] for [x] a string or [undefined]. *)
Definition or_null (o : option string) : option string :=
  match o with
  | Some s => if Boolean s then Some s else None
  | None => None
  end.

(** [s.slice(n)] for [0 <= n]. *)
Fixpoint slice_from (n : nat) (s : string) : string :=
  match n, s with
  | O, _ => s
  | S n', String _ s' => slice_from n' s'
  | S _, EmptyString => EmptyString
  end.

(** [s.slice(0, n)] for [0 <= n]. *)
Fixpoint slice_to (n : nat) (s : string) : string :=
  match n, s with
  | S n', String c s' => String c (slice_to n' s')
  | _, _ => EmptyString
  end.

(** [s.startsWith(t)]. *)
Fixpoint startsWith (s t : string) {struct t} : bool :=
  match t, s with
  | EmptyString, _ => true
  | String b t', String a s' => if Ascii.eqb a b then startsWith s' t' else false
  | String _ _, EmptyString => false
  end.

(** [s.includes(t)]: [t] starts at some position of [s]. *)
Fixpoint includes (s t : string) : bool :=
  startsWith s t ||
  match s with
  | EmptyString => false
  | String _ s' => includes s' t
  end.

(** [s.indexOf(c)] for a one-character needle; [-1] when absent. *)
Fixpoint indexOf (s : string) (c : ascii) : Z :=
  match s with
  | EmptyString => -1
  | String a s' =>
      if Ascii.eqb a c then 0
      else let i := indexOf s' c in if i <? 0 then -1 else i + 1
  end.

(** [s.split(sep)] for a one-character separator: the pieces between
    the separators, empty pieces kept; never the empty array. *)
Fixpoint split (sep : ascii) (s : string) : list string :=
  match s with
  | EmptyString => [EmptyString]
  | String c s' =>
      if Ascii.eqb c sep then EmptyString :: split sep s'
      else match split sep s' with
           | w :: ws => String c w :: ws
           | [] => [String c EmptyString]
           end
  end.

(** [parts.join(sep)]. *)
Fixpoint join (sep : string) (parts : list string) : string :=
  match parts with
  | [] => EmptyString
  | [p] => p
  | p :: ps => p +:+ sep +:+ join sep ps
  end.

(** The characters matched by [\s] and removed by [trim()]: tab, line
    feed, vertical tab, form feed, carriage return and space. *)
Definition is_space (c : ascii) : bool :=
  let n := nat_of_ascii c in
  ((9 <=? n)%nat && (n <=? 13)%nat) || (n =? 32)%nat.

(** [c.toLowerCase()] on one character: A-Z to a-z. *)
Definition lower_char (c : ascii) : ascii :=
  let n := nat_of_ascii c in
  if ((65 <=? n)%nat && (n <=? 90)%nat) then ascii_of_nat (n + 32) else c.

(** [s.toLowerCase()]. *)
Fixpoint toLowerCase (s : string) : string :=
  match s with
  | EmptyString => EmptyString
  | String c s' => String (lower_char c) (toLowerCase s')
  end.

(** [s.split(/\s+/)]: the pieces between the maximal runs of whitespace;
    a leading or trailing run leaves an empty piece at that end. *)
Fixpoint split_ws (s : string) : list string :=
  match s with
  | EmptyString => [EmptyString]
  | String c s' =>
      if is_space c then
        match s' with
        | String c' _ => if is_space c' then split_ws s' else EmptyString :: split_ws s'
        | EmptyString => EmptyString :: split_ws s'
        end
      else match split_ws s' with
           | w :: ws => String c w :: ws
           | [] => [String c EmptyString]
           end
  end.

(** [s.trimStart()], [s.trimEnd()] and [s.trim()]. *)
Fixpoint trimStart (s : string) : string :=
  match s with
  | EmptyString => EmptyString
  | String c s' => if is_space c then trimStart s' else s
  end.

Fixpoint trimEnd (s : string) : string :=
  match s with
  | EmptyString => EmptyString
  | String c s' =>
      match trimEnd s' with
      | EmptyString => if is_space c then EmptyString else String c EmptyString
      | r => String c r
      end
  end.

Definition trim (s : string) : string := trimEnd (trimStart s).

(** No character of [s] satisfies [p]. *)
Fixpoint free_of (p : ascii -> bool) (s : string) : bool :=
  match s with
  | EmptyString => true
  | String c s' => negb (p c) && free_of p s'
  end.

End JsString.

Import JsString.

(** ** Router (scripts/router.js) *)

Module Router.

Record Route := {
  skill : option string;
  topic : option string;
  article : option string;
  path : string;
  parts : list string
}.

(** [parseHash()], as a function of what [window.location.hash] reads. *)
Definition parseHash (location_hash : string) : Route :=
  let hash := if Boolean (slice_from 1 location_hash)
              then slice_from 1 location_hash else "/" in
  let parts := List.filter Boolean (split "/"%char hash) in
  {| skill := or_null (parts !! 0%nat);
     topic := or_null (parts !! 1%nat);
     article := or_null (parts !! 2%nat);
     path := hash;
     parts := parts |}.

(** [buildPath(skill, topic, article)]. *)
Definition buildPath (skill topic article : option string) : string :=
  let parts := [""] in
  let parts := if truthy skill then parts ++ [default "" skill] else parts in
  let parts := if truthy topic then parts ++ [default "" topic] else parts in
  let parts := if truthy article then parts ++ [default "" article] else parts in
  join "/" parts.

(** The platform's [location.hash].  The setter drops one leading [#] of
    the assigned value and runs the URL parser on the rest in its
    fragment state: tabs and newlines are removed, and every character of
    the fragment percent-encode set (the controls, space, the double
    quote, [<], [>], the backquote, and everything above [~]) is replaced
    by the percent-encoding of its UTF-8 bytes.  The getter reads the
    empty string for an empty fragment and [#] followed by the fragment
    otherwise. *)
Definition is_tab_or_newline (c : ascii) : bool :=
  let n := nat_of_ascii c in
  (n =? 9)%nat || (n =? 10)%nat || (n =? 13)%nat.

Definition fragment_encoded (c : ascii) : bool :=
  let n := nat_of_ascii c in
  (n <=? 32)%nat || (n =? 34)%nat || (n =? 60)%nat || (n =? 62)%nat
  || (n =? 96)%nat || (127 <=? n)%nat.

Definition hex_digit (n : nat) : ascii :=
  ascii_of_nat (if (n <? 10)%nat then 48 + n else 55 + n).

Definition percent_byte (n : nat) : string :=
  String "%"%char
    (String (hex_digit (n / 16)) (String (hex_digit (n mod 16)) EmptyString)).

(** The percent-encoded UTF-8 bytes of the character with code [c]. *)
Definition utf8_percent_encode (c : ascii) : string :=
  let n := nat_of_ascii c in
  if (n <? 128)%nat then percent_byte n
  else percent_byte (192 + n / 64) +:+ percent_byte (128 + n mod 64).

Fixpoint encode_fragment (input : string) : string :=
  match input with
  | EmptyString => EmptyString
  | String c rest =>
      if is_tab_or_newline c then encode_fragment rest
      else if fragment_encoded c
           then utf8_percent_encode c +:+ encode_fragment rest
           else String c (encode_fragment rest)
  end.

Definition set_location_hash (value : string) : string :=
  let input := if startsWith value "#" then slice_from 1 value else value in
  let fragment := encode_fragment input in
  if Boolean fragment then "#" +:+ fragment else "".

(** [navigate(path)]: the value [window.location.hash] reads afterwards. *)
Definition navigate (path : string) : string :=
  let path := if negb (startsWith path "#") then "#" +:+ path else path in
  set_location_hash path.

(** [getArticlePath(route)]: the router's own helper, which interpolates
    the route's slugs.  The application does not call it: it resolves
    routes through the navigation component. *)
Definition getArticlePath (route : Route) : option string :=
  if negb (truthy (skill route)) || negb (truthy (topic route))
     || negb (truthy (article route))
  then None
  else Some ("content/" +:+ default "" (skill route) +:+ "/"
             +:+ default "" (topic route) +:+ "/"
             +:+ default "" (article route) +:+ ".md").

End Router.

(** ** Navigation (scripts/navigation.js) *)

Module Navigation.

Module Article.
Record t := { slug : string; title : string; file : string }.
End Article.

Module Topic.
Record t := {
  slug : string; name : string; folder : string; order : Z;
  articles : list Article.t
}.
End Topic.

Module Skill.
Record t := {
  slug : string; name : string; folder : string; order : Z;
  topics : list Topic.t
}.
End Skill.

(** The manifest file [{ generated, skills }], as the manifest generator
    writes it and [init()] loads it. *)
Record Manifest := { generated : string; skills : list Skill.t }.

(** Modelled from the spec: [scripts/navigation.js] is missing, and with
    it [Navigation.getArticlePath(skill, topic, article)].  The design
    document has it look up the tree node that matches the three slugs,
    level by level, substitute the stored folder names and file stem into
    [content/<skillFolder>/<topicFolder>/<articleFile>.md], and return a
    not-found signal when no node matches at some level.  Slugs are
    unique within their parent, so "the matching node" is the first
    one. *)
Definition getArticlePath (m : Manifest) (skill topic article : string)
  : option string :=
  match List.find (λ s, bool_decide (Skill.slug s = skill)) (skills m) with
  | None => None
  | Some s =>
      match List.find (λ t, bool_decide (Topic.slug t = topic)) (Skill.topics s) with
      | None => None
      | Some t =>
          match List.find (λ a, bool_decide (Article.slug a = article))
                  (Topic.articles t) with
          | None => None
          | Some a =>
              Some ("content/" +:+ Skill.folder s +:+ "/" +:+ Topic.folder t
                    +:+ "/" +:+ Article.file a +:+ ".md")
          end
      end
  end.

End Navigation.

(** ** Search (scripts/search.js, class Search) *)

Module Search.

(** One record of the flat article index handed over by
    [setArticles]. *)
Record FlatArticleRecord := {
  title : string;
  skill : string;
  skillSlug : string;
  topic : string;
  topicSlug : string;
  slug : string;
  file : string
}.

(** [{ ...article, score }]. *)
Record Scored := { article : FlatArticleRecord; score : Z }.

(** [query.split(/\s+/).filter(Boolean)]. *)
Definition terms_of (query : string) : list string :=
  List.filter Boolean (split_ws query).

(** The body of the [map] callback of [search]. *)
Definition score_of (terms : list string) (query : string)
    (a : FlatArticleRecord) : Z :=
  let score := 0 in
  let titleLower := toLowerCase (title a) in
  let score :=
    fold_left (λ score term,
                 if includes titleLower term then
                   let score := score + 10 in
                   if startsWith titleLower term then score + 5 else score
                 else score)
              terms score in
  let score := if includes (toLowerCase (skill a)) query then score + 3 else score in
  let score := if includes (toLowerCase (topic a)) query then score + 2 else score in
  score.

Definition scored (terms : list string) (query : string)
    (a : FlatArticleRecord) : Scored :=
  {| article := a; score := score_of terms query a |}.

(** The comparator [(a, b) => b.score - a.score]. *)
Definition by_score (a b : Scored) : Z := score b - score a.

(** [Array.prototype.sort(compare)].  The language specification makes
    it a stable sort: elements that compare equal keep their order.  It
    is modelled by the insertion sort that moves an element past exactly
    those it has to follow. *)
Fixpoint insert {A} (compare : A → A → Z) (x : A) (l : list A) : list A :=
  match l with
  | [] => [x]
  | y :: l' => if 0 <? compare x y then y :: insert compare x l' else x :: l
  end.

Definition sort {A} (compare : A → A → Z) (l : list A) : list A :=
  foldr (insert compare) [] l.

(** [search(query)] over the index [articles]. *)
Definition search (articles : list FlatArticleRecord) (query : string)
  : list Scored :=
  let terms := terms_of query in
  take 10
    (sort by_score
       (List.filter (λ r, 0 <? score r)
          (map (scored terms query) articles))).

(** The dropdown: [isOpen], [activeIndex] and the rendered result
    items (the empty list renders the "No articles found" placeholder). *)
Record Panel := {
  isOpen : bool;
  activeIndex : Z;
  items : list Scored
}.

Definition close (p : Panel) : Panel :=
  {| isOpen := false; activeIndex := -1; items := items p |}.

Definition showResults (results : list Scored) (p : Panel) : Panel :=
  {| isOpen := true; activeIndex := -1; items := results |}.

(** [handleInput()], for the text [value] of the input box. *)
Definition handleInput (articles : list FlatArticleRecord) (value : string)
    (p : Panel) : Panel :=
  let query := toLowerCase (trim value) in
  if (String.length query <? 2)%nat then close p
  else showResults (search articles query) p.

(** [handleFocus()]. *)
Definition handleFocus (articles : list FlatArticleRecord) (value : string)
    (p : Panel) : Panel :=
  let query := toLowerCase (trim value) in
  if (2 <=? String.length query)%nat then showResults (search articles query) p
  else p.

End Search.

(** ** The rendered document *)

Module Dom.

(** An element with its tag name (lower case, as selectors write it),
    its [id] attribute (empty when absent) and its children, or a text
    node. *)
#[warnings="-register-all"]
Inductive Node :=
| Element (tagName : string) (id : string) (children : list Node)
| Text (data : string).

(** [node.textContent]. *)
Fixpoint textContent (n : Node) : string :=
  match n with
  | Text d => d
  | Element _ _ cs =>
      (fix all (l : list Node) : string :=
         match l with
         | [] => ""
         | c :: l' => textContent c +:+ all l'
         end) cs
  end.

(** The level of a heading element selected by ['h1, h2, h3, h4']:
    [parseInt(tagName.charAt(1))]. *)
Definition heading_level (tagName : string) : option Z :=
  if bool_decide (tagName = "h1") then Some 1
  else if bool_decide (tagName = "h2") then Some 2
  else if bool_decide (tagName = "h3") then Some 3
  else if bool_decide (tagName = "h4") then Some 4
  else None.

(** The element [n] and its descendants that are headings of levels 1
    to 4, in document order. *)
Fixpoint headings_in (n : Node) : list Node :=
  match n with
  | Text _ => []
  | Element tag _ cs =>
      (if bool_decide (is_Some (heading_level tag)) then [n] else [])
      ++ (fix all (l : list Node) : list Node :=
            match l with
            | [] => []
            | c :: l' => headings_in c ++ all l'
            end) cs
  end.

(** [root.querySelectorAll('h1, h2, h3, h4')]: descendants only. *)
Definition querySelectorAll_headings (root : Node) : list Node :=
  match root with
  | Text _ => []
  | Element _ _ cs => flat_map headings_in cs
  end.

Definition tagName_of (n : Node) : string :=
  match n with Element tag _ _ => tag | Text _ => "" end.

Definition id_of (n : Node) : string :=
  match n with Element _ i _ => i | Text _ => "" end.

Definition set_id (i : string) (n : Node) : Node :=
  match n with Element tag _ cs => Element tag i cs | Text d => Text d end.

End Dom.

(** ** Table of contents (scripts/toc.js) *)

Module TableOfContents.

(** An entry of [this.headings]. *)
Record Heading := { element : Dom.Node; id : string; level : Z }.

(** An anchor of [this.links]. *)
Record Link := { className : string; href : string; textContent : string }.

(** What the container shows: nothing, the "No headings found" block,
    or the [ul.toc-list] with one item per link. *)
Inductive View :=
| Blank
| EmptyState
| TocList (anchors : list Link).

(** The component's fields.  [frames] counts the animation-frame handles
    the platform has issued so far. *)
Record State := {
  container : View;
  headings : list Heading;
  links : list Link;
  activeIndex : Z;
  scrollTimeout : option nat;
  frames : nat
}.

(** The state the constructor leaves. *)
Definition initial : State :=
  {| container := Blank; headings := []; links := []; activeIndex := -1;
     scrollTimeout := None; frames := 0 |}.

Definition is_word (c : ascii) : bool :=
  let n := nat_of_ascii c in
  ((48 <=? n)%nat && (n <=? 57)%nat) || ((65 <=? n)%nat && (n <=? 90)%nat)
  || ((97 <=? n)%nat && (n <=? 122)%nat) || (n =? 95)%nat.

Definition is_hyphen (c : ascii) : bool := Ascii.eqb c "-"%char.

(** [s.replace(/[^...]/g, '')]: keep the characters that satisfy [keep]. *)
Fixpoint strip (keep : ascii → bool) (s : string) : string :=
  match s with
  | EmptyString => EmptyString
  | String c s' => if keep c then String c (strip keep s') else strip keep s'
  end.

(** [s.replace(/p+/g, r)]: every maximal run of [p]-characters becomes
    the one character [r]. *)
Fixpoint collapse (p : ascii → bool) (r : ascii) (s : string) : string :=
  match s with
  | EmptyString => EmptyString
  | String c s' =>
      if p c then
        match s' with
        | String c' _ => if p c' then collapse p r s' else String r (collapse p r s')
        | EmptyString => String r EmptyString
        end
      else String c (collapse p r s')
  end.

(** [generateId(text, index)]. *)
Definition generateId (text : string) (index : nat) : string :=
  let slug :=
    trim
      (collapse is_hyphen "-"%char
         (collapse is_space "-"%char
            (strip (λ c, is_word c || is_space c || is_hyphen c)
               (toLowerCase text)))) in
  if Boolean slug then slug else "heading-" +:+ pretty index.

(** [renderEmpty()]. *)
Definition renderEmpty (st : State) : State :=
  {| container := EmptyState; headings := headings st; links := links st;
     activeIndex := activeIndex st; scrollTimeout := scrollTimeout st;
     frames := frames st |}.

(** [handleScroll()]: with no heading it returns at once; otherwise it
    replaces the pending animation frame by a fresh one that will run
    [updateActiveHeading]. *)
Definition handleScroll (st : State) : State :=
  if bool_decide (headings st = []) then st
  else {| container := container st; headings := headings st;
          links := links st; activeIndex := activeIndex st;
          scrollTimeout := Some (S (frames st)); frames := S (frames st) |}.

(** One round of the [forEach] of [generate], for the heading element
    [heading] at position [index]. *)
Definition heading_entry (index : nat) (heading : Dom.Node) : Heading :=
  let level := default 0 (Dom.heading_level (Dom.tagName_of heading)) in
  let id := if Boolean (Dom.id_of heading) then Dom.id_of heading
            else generateId (Dom.textContent heading) index in
  {| element := (if Boolean (Dom.id_of heading) then heading
                 else Dom.set_id id heading);
     id := id; level := level |}.

Definition heading_link (index : nat) (heading : Dom.Node) : Link :=
  let h := heading_entry index heading in
  {| className := "toc-link toc-h" +:+ pretty (level h);
     href := "#" +:+ id h;
     textContent := Dom.textContent heading |}.

(** [generate(contentElement)]; [None] is the [null] that the welcome
    and error screens pass. *)
Definition generate (contentElement : option Dom.Node) (st : State) : State :=
  (* Clear previous *)
  let st := {| container := Blank; headings := []; links := [];
               activeIndex := -1; scrollTimeout := scrollTimeout st;
               frames := frames st |} in
  match contentElement with
  | None => renderEmpty st
  | Some root =>
      let headingElements := Dom.querySelectorAll_headings root in
      if bool_decide (headingElements = []) then renderEmpty st
      else
        let hs := imap heading_entry headingElements in
        let ls := imap heading_link headingElements in
        handleScroll
          {| container := TocList ls; headings := hs; links := ls;
             activeIndex := activeIndex st; scrollTimeout := scrollTimeout st;
             frames := frames st |}
  end.

(** [clear()]. *)
Definition clear (st : State) : State :=
  {| container := Blank; headings := []; links := []; activeIndex := -1;
     scrollTimeout := scrollTimeout st; frames := frames st |}.

End TableOfContents.

(** ** Markdown renderer (scripts/markdown.js) *)

Module MarkdownRenderer.

(** How a statement or an awaited promise completes. *)
Inductive Completion (A : Type) :=
| Normal (value : A)
| Throw (error : string).
Arguments Normal {A} value.
Arguments Throw {A} error.

Definition bind {A B} (c : Completion A) (k : A → Completion B) : Completion B :=
  match c with
  | Normal a => k a
  | Throw e => Throw e
  end.

(** [try { body } catch (error) { handler(error) }]. *)
Definition try_catch {A} (body : Completion A) (handler : string → Completion A)
  : Completion A :=
  match body with
  | Normal a => Normal a
  | Throw e => handler e
  end.

#[global] Instance completion_bind : MBind Completion :=
  λ A B k c, bind c k.

(** The external libraries and platform services the renderer calls:
    [marked.parse] (which may throw), [DOMPurify.sanitize], the HTML
    parser behind [template.innerHTML], the highlighter run over the code
    blocks of the content (which may throw; the identity when [hljs] is
    not defined), and the date formatting of [formatDate]. *)
Record Libraries := {
  marked_parse : string → Completion string;
  sanitize : string → string;
  parse_html : string → list Dom.Node;
  highlight : Dom.Node → Completion Dom.Node;
  formatDate : string → string
}.

(** How [fetch(path)] settles: rejected on a network failure, or a
    response with its status whose [text()] settles in turn. *)
Inductive FetchOutcome :=
| NetworkFailure (reason : string)
| Response (status : Z) (text : Completion string).

(** [response.ok]. *)
Definition ok (status : Z) : bool := (200 <=? status) && (status <=? 299).

(** What the main container shows. *)
Inductive View :=
| Blank
| Loading
| Welcome
| ErrorPlaceholder
| ArticleView (date : option string) (content : Dom.Node).

(** The meta object of a document. *)
Abbreviation Meta := (gmap string string).

(** The renderer's fields; [onRender] is the callback the application
    installs, acting on the table of contents. *)
Record State := {
  container : View;
  currentPath : option string;
  onRender : option (option Dom.Node → TableOfContents.State → TableOfContents.State)
}.

(** The part of the page the renderer can reach, next to the parts it
    cannot: the router's current route and the navigation tree state. *)
Record Page (NavState : Type) := {
  currentRoute : option Router.Route;
  navigation : NavState;
  markdown : State;
  toc : TableOfContents.State
}.
Arguments currentRoute {NavState} _.
Arguments navigation {NavState} _.
Arguments markdown {NavState} _.
Arguments toc {NavState} _.

(** [s] cut at the first occurrence of [sep]: what precedes it and what
    follows it. *)
Fixpoint cut_at (sep : string) (s : string) : option (string * string) :=
  if startsWith s sep then Some (EmptyString, slice_from (String.length sep) s)
  else match s with
       | EmptyString => None
       | String c s' =>
           match cut_at sep s' with
           | Some (before, after) => Some (String c before, after)
           | None => None
           end
       end.

Definition newline : string := String (ascii_of_nat 10) EmptyString.
Definition newline_char : ascii := ascii_of_nat 10.

(** [markdown.match(frontmatterRegex)]: the two groups.  The pattern
    wants the text to open with three dashes and a line feed; its lazy
    first group then runs to the first line feed, three dashes, line
    feed; its second group is all the rest. *)
Definition match_frontmatter (markdown : string) : option (string * string) :=
  if startsWith markdown ("---" +:+ newline)
  then cut_at (newline +:+ "---" +:+ newline) (slice_from 4 markdown)
  else None.

(** [meta[key] = value] on an object literal: the assignment to
    [__proto__] of a string is the one that creates no property. *)
Definition assign (key value : string) (meta : Meta) : Meta :=
  if bool_decide (key = "__proto__") then meta else <[key := value]> meta.

(** The callback of [frontmatter.split('\n').forEach]. *)
Definition parse_line (meta : Meta) (line : string) : Meta :=
  let colonIndex := indexOf line ":"%char in
  if 0 <? colonIndex then
    let key := trim (slice_to (Z.to_nat colonIndex) line) in
    let value := trim (slice_from (Z.to_nat (colonIndex + 1)) line) in
    assign key value meta
  else meta.

(** [parseFrontmatter(markdown)]: [{ meta, content }]. *)
Definition parseFrontmatter (markdown : string) : Meta * string :=
  match match_frontmatter markdown with
  | None => (∅, markdown)
  | Some (frontmatter, content) =>
      (fold_left parse_line (split newline_char frontmatter) ∅, content)
  end.

Section WithLibraries.

Context (lib : Libraries) {NavState : Type}.

Definition with_markdown (pg : Page NavState) (st : State)
    (t : TableOfContents.State) : Page NavState :=
  {| currentRoute := currentRoute pg; navigation := navigation pg;
     markdown := st; toc := t |}.

(** [this.onRender(contentElement)] when a callback is installed. *)
Definition fire_onRender (contentElement : option Dom.Node)
    (pg : Page NavState) : Page NavState :=
  match onRender (markdown pg) with
  | Some callback =>
      with_markdown pg (markdown pg) (callback contentElement (toc pg))
  | None => pg
  end.

Definition show (v : View) (pg : Page NavState) : Page NavState :=
  with_markdown pg
    {| container := v; currentPath := currentPath (markdown pg);
       onRender := onRender (markdown pg) |}
    (toc pg).

(** [renderWelcome()], [renderLoading()] and [renderError(path)]. *)
Definition renderWelcome (pg : Page NavState) : Page NavState :=
  fire_onRender None (show Welcome pg).

Definition renderLoading (pg : Page NavState) : Page NavState :=
  show Loading pg.

Definition renderError (pg : Page NavState) : Page NavState :=
  fire_onRender None (show ErrorPlaceholder pg).

(** [render(content, meta)]. *)
Definition render (content : string) (meta : Meta) (pg : Page NavState)
  : Completion (Page NavState) :=
  rawHtml ← marked_parse lib content;
  let safeHtml := sanitize lib rawHtml in
  let date := match meta !! "date" with
              | Some d => if Boolean d then Some (formatDate lib d) else None
              | None => None
              end in
  let contentDiv := Dom.Element "div" "" (parse_html lib safeHtml) in
  contentDiv ← highlight lib contentDiv;
  Normal (fire_onRender (Some contentDiv)
            (show (ArticleView date contentDiv) pg)).

(** [load(path)] up to its first [await]: [None] when it returned
    without fetching, the page with a fetch of [path] in flight
    otherwise. *)
Definition load_begin (path : option string) (pg : Page NavState)
  : Page NavState * option string :=
  if negb (truthy path) then (renderWelcome pg, None)
  else
    let pg := with_markdown pg
                {| container := container (markdown pg);
                   currentPath := path;
                   onRender := onRender (markdown pg) |}
                (toc pg) in
    (renderLoading pg, path).

(** The rest of [load(path)], resumed when the fetch settles.  The two
    awaits, of the response and of its text, are taken in one turn:
    nothing of the page is read or written between them.  The only write
    that can precede a throw inside the [try] is that of the container,
    which [renderError] overwrites, so the handler starts from the page
    as it was before the [try]. *)
Definition load_resume (path : string) (outcome : FetchOutcome)
    (pg : Page NavState) : Completion (Page NavState) :=
  try_catch
    (response ← match outcome with
                | NetworkFailure reason => Throw reason
                | Response status text => Normal (status, text)
                end;
     if negb (ok (fst response))
     then Throw ("Failed to load: " +:+ pretty (fst response))
     else
       markdown ← snd response;
       let '(meta, content) := parseFrontmatter markdown in
       render content meta pg)
    (λ error, Normal (renderError pg)).

(** [load(path)] run to completion with nothing in between: how the
    promise it returns settles. *)
Definition load (path : option string) (outcome : FetchOutcome)
    (pg : Page NavState) : Completion (Page NavState) :=
  match load_begin path pg with
  | (pg', None) => Normal pg'
  | (pg', Some p) => load_resume p outcome pg'
  end.

(** The page together with the fetches in flight, each with the path
    of the [load] that waits for it. *)
Record Browser := {
  page : Page NavState;
  inflight : gmap nat string;
  fetches : nat
}.

Inductive Event :=
| CallLoad (path : option string)
| FetchSettles (fetch : nat) (outcome : FetchOutcome).

(** One turn of the event loop.  A rejected [load] promise is
    nobody's to handle: the page stays as the turn left it. *)
Definition step (b : Browser) (e : Event) : Browser :=
  match e with
  | CallLoad path =>
      match load_begin path (page b) with
      | (pg, None) => {| page := pg; inflight := inflight b; fetches := fetches b |}
      | (pg, Some p) =>
          {| page := pg; inflight := <[fetches b := p]> (inflight b);
             fetches := S (fetches b) |}
      end
  | FetchSettles fetch outcome =>
      match inflight b !! fetch with
      | None => b
      | Some p =>
          {| page := match load_resume p outcome (page b) with
                     | Normal pg => pg
                     | Throw _ => page b
                     end;
             inflight := delete fetch (inflight b);
             fetches := fetches b |}
      end
  end.

Definition run (b : Browser) (events : list Event) : Browser :=
  fold_left step events b.

End WithLibraries.

End MarkdownRenderer.

(** ** The route handler (scripts/app.js, class App) *)

Module App.

(** What [handleRouteChange] asks of the markdown component. *)
Inductive MarkdownCall :=
| CallLoad (articlePath : string)
| CallRenderError
| CallRenderWelcome.

(** [handleRouteChange(route)], for the manifest the navigation
    component holds. *)
Definition handleRouteChange (m : Navigation.Manifest) (route : Router.Route)
  : MarkdownCall :=
  if truthy (Router.skill route) && truthy (Router.topic route)
     && truthy (Router.article route)
  then
    let articlePath :=
      Navigation.getArticlePath m (default "" (Router.skill route))
        (default "" (Router.topic route)) (default "" (Router.article route)) in
    if truthy articlePath then CallLoad (default "" articlePath)
    else CallRenderError
  else CallRenderWelcome.

End App.

(** ** Vocabulary of the design document *)

Module Spec.

(** A slug-safe string: not empty, and without [/], [#] or whitespace. *)
Definition slug_safe (s : string) : bool :=
  Boolean s
  && free_of (λ c, Ascii.eqb c "/"%char || Ascii.eqb c "#"%char || is_space c) s.

(** A part that reaches the fragment and comes back as it is: without
    [/], and without any character that [location.hash] percent-encodes
    or removes. *)
Definition part_safe (s : string) : bool :=
  free_of (λ c, Ascii.eqb c "/"%char || Router.fragment_encoded c) s.

(** How many elements of [l] satisfy [p]. *)
Definition tally {A} (p : A → bool) (l : list A) : Z :=
  Z.of_nat (length (List.filter p l)).

(** The score as the design document words it: lowercase the query and
    split it at whitespace into terms; 10 for each term that the
    lowercased title contains, 5 more for each such term that the title
    starts with, 3 if the whole lowercased query is contained in the
    lowercased skill name, and 2 if it is contained in the lowercased
    topic name. *)
Definition search_score (a : Search.FlatArticleRecord) (query : string) : Z :=
  let q := toLowerCase query in
  let terms := Search.terms_of q in
  let title := toLowerCase (Search.title a) in
  10 * tally (λ term, includes title term) terms
  + 5 * tally (λ term, includes title term && startsWith title term) terms
  + (if includes (toLowerCase (Search.skill a)) q then 3 else 0)
  + (if includes (toLowerCase (Search.topic a)) q then 2 else 0).

(** Two records of the sample content, and two records that differ in
    where the word of the query sits. *)
Definition apex_basics : Search.FlatArticleRecord :=
  {| Search.title := "Apex Programming Basics"; Search.skill := "Salesforce";
     Search.skillSlug := "salesforce"; Search.topic := "Developer";
     Search.topicSlug := "developer"; Search.slug := "apex-basics";
     Search.file := "apex-basics" |}.

Definition async_await : Search.FlatArticleRecord :=
  {| Search.title := "Async/Await in JavaScript"; Search.skill := "Frontend";
     Search.skillSlug := "frontend"; Search.topic := "JavaScript";
     Search.topicSlug := "javascript"; Search.slug := "async-await";
     Search.file := "async-await" |}.

Definition learning_java_streams : Search.FlatArticleRecord :=
  {| Search.title := "Learning Java Streams"; Search.skill := "Java";
     Search.skillSlug := "java"; Search.topic := "Language";
     Search.topicSlug := "language"; Search.slug := "learning-java-streams";
     Search.file := "learning-java-streams" |}.

Definition streams_in_java : Search.FlatArticleRecord :=
  {| Search.title := "Streams in Java"; Search.skill := "Backend";
     Search.skillSlug := "backend"; Search.topic := "Collections";
     Search.topicSlug := "collections"; Search.slug := "streams-in-java";
     Search.file := "streams-in-java" |}.

(** Quote-stripping as the manifest generator applies it to titles: one
    leading and one trailing quote character, single or double, removed. *)
Definition is_quote (c : ascii) : bool :=
  Ascii.eqb c "'"%char || Ascii.eqb c (ascii_of_nat 34).

Fixpoint unquote_end (s : string) : string :=
  match s with
  | EmptyString => EmptyString
  | String c EmptyString => if is_quote c then EmptyString else s
  | String c s' => String c (unquote_end s')
  end.

Definition unquote (s : string) : string :=
  unquote_end
    (match s with
     | String c s' => if is_quote c then s' else s
     | EmptyString => EmptyString
     end).

(** Where an entry of the meta object comes from: a line with a colon
    that is not its first character; the key is the trimmed text before
    the first colon, the value the trimmed text after it. *)
Definition entry_from (lines : list string) (key value : string) : Prop :=
  ∃ line raw_key raw_value,
    line ∈ lines
    ∧ line = raw_key +:+ ":" +:+ raw_value
    ∧ raw_key ≠ ""
    ∧ free_of (λ x, Ascii.eqb x ":"%char) raw_key = true
    ∧ key = trim raw_key
    ∧ value = trim raw_value.

(** A document whose front matter quotes a value. *)
Definition quoted_document : string :=
  "---" +:+ MarkdownRenderer.newline
  +:+ "title: 'User Management'" +:+ MarkdownRenderer.newline
  +:+ "date: 2024-12-28" +:+ MarkdownRenderer.newline
  +:+ "---" +:+ MarkdownRenderer.newline
  +:+ "# User Management" +:+ MarkdownRenderer.newline.

(** The fetch failed: the network did, or the status is not a success. *)
Definition fetch_failed (outcome : MarkdownRenderer.FetchOutcome) : bool :=
  match outcome with
  | MarkdownRenderer.NetworkFailure _ => true
  | MarkdownRenderer.Response status _ => negb (MarkdownRenderer.ok status)
  end.

(** What the main container shows once a fetch has settled, as a function
    of how it settled. *)
Definition settled_view (lib : MarkdownRenderer.Libraries)
    (outcome : MarkdownRenderer.FetchOutcome) : MarkdownRenderer.View :=
  match outcome with
  | MarkdownRenderer.Response status (MarkdownRenderer.Normal markdown) =>
      if MarkdownRenderer.ok status then
        let '(meta, content) := MarkdownRenderer.parseFrontmatter markdown in
        match MarkdownRenderer.marked_parse lib content with
        | MarkdownRenderer.Normal rawHtml =>
            match MarkdownRenderer.highlight lib
                    (Dom.Element "div" ""
                       (MarkdownRenderer.parse_html lib
                          (MarkdownRenderer.sanitize lib rawHtml))) with
            | MarkdownRenderer.Normal contentDiv =>
                MarkdownRenderer.ArticleView
                  (match meta !! "date" with
                   | Some d =>
                       if Boolean d then Some (MarkdownRenderer.formatDate lib d)
                       else None
                   | None => None
                   end)
                  contentDiv
            | MarkdownRenderer.Throw _ => MarkdownRenderer.ErrorPlaceholder
            end
        | MarkdownRenderer.Throw _ => MarkdownRenderer.ErrorPlaceholder
        end
      else MarkdownRenderer.ErrorPlaceholder
  | _ => MarkdownRenderer.ErrorPlaceholder
  end.

(** Stand-ins for the external libraries, for the examples: the converter
    and the sanitizer return their input, the HTML parser makes one text
    node of it. *)
Definition plain_libraries : MarkdownRenderer.Libraries :=
  {| MarkdownRenderer.marked_parse := MarkdownRenderer.Normal;
     MarkdownRenderer.sanitize := λ html, html;
     MarkdownRenderer.parse_html := λ html, [Dom.Text html];
     MarkdownRenderer.highlight := MarkdownRenderer.Normal;
     MarkdownRenderer.formatDate := λ d, d |}.

(** The page as the application sets it up, before any route is handled,
    with no fetch in flight. *)
Definition fresh_page : MarkdownRenderer.Page unit :=
  {| MarkdownRenderer.currentRoute := None;
     MarkdownRenderer.navigation := tt;
     MarkdownRenderer.markdown :=
       {| MarkdownRenderer.container := MarkdownRenderer.Blank;
          MarkdownRenderer.currentPath := None;
          MarkdownRenderer.onRender := Some TableOfContents.generate |};
     MarkdownRenderer.toc := TableOfContents.initial |}.

Definition fresh_browser : MarkdownRenderer.Browser :=
  {| MarkdownRenderer.page := fresh_page;
     MarkdownRenderer.inflight := ∅;
     MarkdownRenderer.fetches := 0 |}.

(** Two loads that overlap: the second starts while the first fetch is
    pending, and the first fetch settles last. *)
Definition overlapping_loads : list MarkdownRenderer.Event :=
  [ MarkdownRenderer.CallLoad (Some "content/Salesforce/Admin/user-management.md");
    MarkdownRenderer.CallLoad (Some "content/Salesforce/Developer/apex-basics.md");
    MarkdownRenderer.FetchSettles 1
      (MarkdownRenderer.Response 200 (MarkdownRenderer.Normal "Apex Programming Basics"));
    MarkdownRenderer.FetchSettles 0
      (MarkdownRenderer.Response 200 (MarkdownRenderer.Normal "User Management")) ].

(** The heading elements that [generate] finds in what it is given. *)
Definition content_headings (contentElement : option Dom.Node) : list Dom.Node :=
  match contentElement with
  | None => []
  | Some root => Dom.querySelectorAll_headings root
  end.

(** A rendered article with three headings, one of them with an [id] of
    its own, and a rendered article without any. *)
Definition article_with_headings : Dom.Node :=
  Dom.Element "div" ""
    [ Dom.Element "h1" "apex-programming-basics" [Dom.Text "Apex Programming Basics"];
      Dom.Element "p" "" [Dom.Text "Apex is a programming language."];
      Dom.Element "h2" "" [Dom.Text "What is Apex?"];
      Dom.Element "ul" ""
        [ Dom.Element "li" "" [Dom.Element "h5" "" [Dom.Text "too deep"]];
          Dom.Element "li" "" [Dom.Element "h3" "" [Dom.Text "!!!"]] ] ].

Definition article_without_headings : Dom.Node :=
  Dom.Element "div" "" [Dom.Element "p" "" [Dom.Text "Nothing to list."]].

(** Slugs are unique within their parent scope. *)
Definition slugs_unique (m : Navigation.Manifest) : Prop :=
  NoDup (map Navigation.Skill.slug (Navigation.skills m))
  ∧ ∀ s, s ∈ Navigation.skills m →
      NoDup (map Navigation.Topic.slug (Navigation.Skill.topics s))
      ∧ ∀ t, t ∈ Navigation.Skill.topics s →
          NoDup (map Navigation.Article.slug (Navigation.Topic.articles t)).

(** The slugs [skill], [topic] and [article] resolve in [m] to the nodes
    [s], [t] and [a]. *)
Definition resolves (m : Navigation.Manifest) (skill topic article : string)
    (s : Navigation.Skill.t) (t : Navigation.Topic.t) (a : Navigation.Article.t)
  : Prop :=
  s ∈ Navigation.skills m ∧ Navigation.Skill.slug s = skill
  ∧ t ∈ Navigation.Skill.topics s ∧ Navigation.Topic.slug t = topic
  ∧ a ∈ Navigation.Topic.articles t ∧ Navigation.Article.slug a = article.

(** The manifest of the design document's scenario. *)
Definition scenario_article : Navigation.Article.t :=
  {| Navigation.Article.slug := "user-management";
     Navigation.Article.title := "User Management in Salesforce";
     Navigation.Article.file := "user-management" |}.

Definition scenario_topic : Navigation.Topic.t :=
  {| Navigation.Topic.slug := "admin"; Navigation.Topic.name := "Admin";
     Navigation.Topic.folder := "Admin"; Navigation.Topic.order := 999;
     Navigation.Topic.articles := [scenario_article] |}.

Definition scenario_skill : Navigation.Skill.t :=
  {| Navigation.Skill.slug := "sf"; Navigation.Skill.name := "Salesforce";
     Navigation.Skill.folder := "Salesforce"; Navigation.Skill.order := 999;
     Navigation.Skill.topics := [scenario_topic] |}.

Definition scenario_manifest : Navigation.Manifest :=
  {| Navigation.generated := ""; Navigation.skills := [scenario_skill] |}.

End Spec.

(** ** Router predicates and the route change (scripts/router.js) *)

Module RouterState.

(** An argument as a caller may pass it: left out, [null], or a string. *)
Inductive Arg :=
| Undefined
| Null
| Str (s : string).

Definition arg_truthy (a : Arg) : bool :=
  match a with
  | Str s => Boolean s
  | _ => false
  end.

(** [field === arg] for a field of a route, which is a string or [null]. *)
Definition strict_eq (field : option string) (a : Arg) : bool :=
  match field, a with
  | Some x, Str y => bool_decide (x = y)
  | None, Null => true
  | _, _ => false
  end.

(** [this.currentRoute || this.parseHash()]. *)
Definition current (currentRoute : option Router.Route) (location_hash : string)
  : Router.Route :=
  match currentRoute with
  | Some r => r
  | None => Router.parseHash location_hash
  end.

(** [handleRoute()]: the route it stores and hands to the callback. *)
Definition handleRoute (location_hash : string) : option Router.Route :=
  Some (Router.parseHash location_hash).

(** [isActive(skill, topic, article)] against the route [cur]. *)
Definition isActive (cur : Router.Route) (skill topic article : Arg) : bool :=
  if arg_truthy article then
    strict_eq (Router.skill cur) skill && strict_eq (Router.topic cur) topic
    && strict_eq (Router.article cur) article
  else if arg_truthy topic then
    strict_eq (Router.skill cur) skill && strict_eq (Router.topic cur) topic
  else if arg_truthy skill then strict_eq (Router.skill cur) skill
  else false.

(** [shouldExpandSkill(skill)] and [shouldExpandTopic(skill, topic)]. *)
Definition shouldExpandSkill (cur : Router.Route) (skill : Arg) : bool :=
  strict_eq (Router.skill cur) skill.

Definition shouldExpandTopic (cur : Router.Route) (skill topic : Arg) : bool :=
  strict_eq (Router.skill cur) skill && strict_eq (Router.topic cur) topic.

(** The parts [buildPath] pushes: the truthy ones, in order. *)
Definition pushed (args : list (option string)) : list string :=
  omap (λ o, if truthy o then o else None) args.

End RouterState.

(** ** The search box (scripts/search.js, class Search) *)

Module SearchUi.

(** The dropdown, the text of the input box, whether the box has the
    focus, and what [window.location.hash] reads. *)
Record Ui := {
  panel : Search.Panel;
  value : string;
  focused : bool;
  location_hash : string
}.

Definition initial (location_hash : string) : Ui :=
  {| panel := {| Search.isOpen := false; Search.activeIndex := -1;
                 Search.items := [] |};
     value := ""; focused := false; location_hash := location_hash |}.

Definition with_panel (p : Search.Panel) (ui : Ui) : Ui :=
  {| panel := p; value := value ui; focused := focused ui;
     location_hash := location_hash ui |}.

Definition set_cursor (i : Z) (p : Search.Panel) : Search.Panel :=
  {| Search.isOpen := Search.isOpen p; Search.activeIndex := i;
     Search.items := Search.items p |}.

(** [items[i]] for a number [i]. *)
Definition item_at (p : Search.Panel) (i : Z) : option Search.Scored :=
  if 0 <=? i then Search.items p !! Z.to_nat i else None.

(** The click handler that [createResultItem] installs on the item of
    [article]. *)
Definition click (article : Search.FlatArticleRecord) (ui : Ui) : Ui :=
  let hashPath :=
    Router.buildPath (Some (Search.skillSlug article))
      (Some (Search.topicSlug article)) (Some (Search.slug article)) in
  {| panel := Search.close (panel ui);
     value := "";
     focused := false;
     location_hash := Router.navigate hashPath |}.

(** [handleKeydown(e)] of the input box, for [e.key]. *)
Definition handleKeydown (key : string) (ui : Ui) : Ui :=
  if negb (Search.isOpen (panel ui)) then ui
  else
    let n := Z.of_nat (length (Search.items (panel ui))) in
    let i := Search.activeIndex (panel ui) in
    if bool_decide (key = "ArrowDown") then
      with_panel (set_cursor (Z.min (i + 1) (n - 1)) (panel ui)) ui
    else if bool_decide (key = "ArrowUp") then
      with_panel (set_cursor (Z.max (i - 1) 0) (panel ui)) ui
    else if bool_decide (key = "Enter") then
      match item_at (panel ui) i with
      | Some r => click (Search.article r) ui
      | None => ui
      end
    else if bool_decide (key = "Escape") then
      {| panel := Search.close (panel ui); value := value ui;
         focused := false; location_hash := location_hash ui |}
    else ui.

(** What reaches the search box. *)
Inductive Event :=
| Input (text : string)      (* the text changes: [handleInput] *)
| Focus                      (* [handleFocus] *)
| Keydown (key : string)     (* a key in the box: [handleKeydown] *)
| BlurTimeout                (* the timer of [handleBlur] fires, focus outside the results *)
| OutsideClick               (* a click outside box and results *)
| ClickItem (i : nat).       (* a click on the i-th result item *)

Definition step (articles : list Search.FlatArticleRecord) (ui : Ui)
    (e : Event) : Ui :=
  match e with
  | Input text =>
      {| panel := Search.handleInput articles text (panel ui);
         value := text; focused := focused ui;
         location_hash := location_hash ui |}
  | Focus =>
      {| panel := Search.handleFocus articles (value ui) (panel ui);
         value := value ui; focused := true;
         location_hash := location_hash ui |}
  | Keydown key => handleKeydown key ui
  | BlurTimeout => with_panel (Search.close (panel ui)) ui
  | OutsideClick => with_panel (Search.close (panel ui)) ui
  | ClickItem i =>
      match Search.items (panel ui) !! i with
      | Some r => click (Search.article r) ui
      | None => ui
      end
  end.

Definition run (articles : list Search.FlatArticleRecord) (ui : Ui)
    (events : list Event) : Ui :=
  fold_left (step articles) events ui.

(** The cursor is [-1] (no item), or on an item, or [0] on the empty
    list, where [ArrowUp] can put it. *)
Definition cursor_ok (p : Search.Panel) : Prop :=
  -1 ≤ Search.activeIndex p
  ∧ (Search.activeIndex p < Z.of_nat (length (Search.items p))
     ∨ Search.activeIndex p = 0).

(** What every reachable state of the search box satisfies: the cursor
    is bounded, and it is [-1] while the dropdown is closed. *)
Definition good (ui : Ui) : Prop :=
  cursor_ok (panel ui)
  ∧ (Search.isOpen (panel ui) = false → Search.activeIndex (panel ui) = -1).

End SearchUi.

(** ** Scroll spy (scripts/toc.js) *)

Module ScrollSpy.

(** The table of contents with what the platform holds for it: the
    handles of the animation frames requested and neither run nor
    cancelled, and the positions in [links] of the anchors that carry the
    class [active]. *)
Record Spy := {
  toc : TableOfContents.State;
  pending : list nat;
  active_links : list nat
}.

Definition initial : Spy :=
  {| toc := TableOfContents.initial; pending := []; active_links := [] |}.

(** [if (this.scrollTimeout) cancelAnimationFrame(this.scrollTimeout)]. *)
Definition cancel (handle : option nat) (frames : list nat) : list nat :=
  match handle with
  | Some h => List.filter (λ x, negb (x =? h)%nat) frames
  | None => frames
  end.

(** [handleScroll()]. *)
Definition handleScroll (spy : Spy) : Spy :=
  if bool_decide (TableOfContents.headings (toc spy) = []) then spy
  else
    {| toc := TableOfContents.handleScroll (toc spy);
       pending := S (TableOfContents.frames (toc spy))
                  :: cancel (TableOfContents.scrollTimeout (toc spy)) (pending spy);
       active_links := active_links spy |}.

(** [generate(contentElement)]: the anchors are new elements, none of
    them active; with headings it ends in [handleScroll()]. *)
Definition generate (contentElement : option Dom.Node) (spy : Spy) : Spy :=
  {| toc := TableOfContents.generate contentElement (toc spy);
     pending :=
       if bool_decide
            (TableOfContents.headings
               (TableOfContents.generate contentElement (toc spy)) = [])
       then pending spy
       else S (TableOfContents.frames (toc spy))
            :: cancel (TableOfContents.scrollTimeout (toc spy)) (pending spy);
     active_links := [] |}.

(** The loop of [updateActiveHeading]: from the last heading down, the
    first one that the scroll position has reached; [reached i] is the
    test [scrollY >= elementTop] for heading [i]. *)
Fixpoint scan (reached : nat → bool) (i : nat) : Z :=
  match i with
  | O => -1
  | S j => if reached j then Z.of_nat j else scan reached j
  end.

(** [classList.remove('active')] and [classList.add('active')] on the
    anchor at position [i], when there is one. *)
Definition deactivate (i : Z) (n : nat) (active : list nat) : list nat :=
  if (0 <=? i) && (i <? Z.of_nat n)
  then List.filter (λ x, negb (x =? Z.to_nat i)%nat) active
  else active.

Definition activate (i : Z) (n : nat) (active : list nat) : list nat :=
  if (0 <=? i) && (i <? Z.of_nat n)
  then Z.to_nat i :: List.filter (λ x, negb (x =? Z.to_nat i)%nat) active
  else active.

(** [updateActiveHeading()].  Scrolling the panel to the active anchor
    moves the panel only and is left out. *)
Definition updateActiveHeading (reached : nat → bool) (spy : Spy) : Spy :=
  let st := toc spy in
  let activeIndex := scan reached (length (TableOfContents.headings st)) in
  if bool_decide (activeIndex = TableOfContents.activeIndex st) then spy
  else
    let n := length (TableOfContents.links st) in
    {| toc := {| TableOfContents.container := TableOfContents.container st;
                 TableOfContents.headings := TableOfContents.headings st;
                 TableOfContents.links := TableOfContents.links st;
                 TableOfContents.activeIndex := activeIndex;
                 TableOfContents.scrollTimeout := TableOfContents.scrollTimeout st;
                 TableOfContents.frames := TableOfContents.frames st |};
       pending := pending spy;
       active_links :=
         activate activeIndex n
           (deactivate (TableOfContents.activeIndex st) n (active_links spy)) |}.

(** [clear()] and [destroy()]. *)
Definition clear (spy : Spy) : Spy :=
  {| toc := TableOfContents.clear (toc spy); pending := pending spy;
     active_links := [] |}.

Definition destroy (spy : Spy) : Spy :=
  clear {| toc := toc spy;
           pending := cancel (TableOfContents.scrollTimeout (toc spy)) (pending spy);
           active_links := active_links spy |}.

Inductive Event :=
| Generate (contentElement : option Dom.Node)
| Scroll
| Frame (handle : nat) (reached : nat → bool).

(** One turn: an article is rendered, the window scrolls, or the
    platform runs the animation frame [handle] if it is still due. *)
Definition step (spy : Spy) (e : Event) : Spy :=
  match e with
  | Generate contentElement => generate contentElement spy
  | Scroll => handleScroll spy
  | Frame handle reached =>
      if bool_decide (handle ∈ pending spy) then
        updateActiveHeading reached
          {| toc := toc spy;
             pending := List.filter (λ x, negb (x =? handle)%nat) (pending spy);
             active_links := active_links spy |}
      else spy
  end.

Definition run (spy : Spy) (events : list Event) : Spy :=
  fold_left step events spy.

End ScrollSpy.

(** ** Heading ids of the converter (scripts/markdown.js, configureMarked) *)

Module Marked.

Definition lt_char : ascii := "<"%char.
Definition gt_char : ascii := ">"%char.

(** [s] has a [>]. *)
Fixpoint has_gt (s : string) : bool :=
  match s with
  | EmptyString => false
  | String c s' => Ascii.eqb c gt_char || has_gt s'
  end.

(** The first [replace] of [slugify]: every [<], with what follows up to
    the next [>], is removed; a [<] that no [>] follows stays.
    [inside] tells that a tag is being skipped. *)
Fixpoint strip_tags (inside : bool) (s : string) : string :=
  match s with
  | EmptyString => EmptyString
  | String c s' =>
      if inside then
        if Ascii.eqb c gt_char then strip_tags false s' else strip_tags true s'
      else if Ascii.eqb c lt_char && has_gt s' then strip_tags true s'
      else String c (strip_tags false s')
  end.

(** [slugify(text)]. *)
Definition slugify (text : string) : string :=
  trim
    (TableOfContents.collapse TableOfContents.is_hyphen "-"%char
       (TableOfContents.collapse is_space "-"%char
          (TableOfContents.strip
             (λ c, TableOfContents.is_word c || is_space c
                   || TableOfContents.is_hyphen c)
             (strip_tags false (toLowerCase text))))).

End Marked.

(** ** Theme and mobile menu (scripts/app.js, class App) *)

Module Theme.

(** The [data-theme] attribute of the document, the [theme] entry of the
    local store, and the [href] of the highlighter's stylesheet link
    ([None] when the document has no such link). *)
Record Env := {
  data_theme : option string;
  stored : option string;
  hljs_href : option string
}.

(** [updateHighlightTheme(theme)]. *)
Definition updateHighlightTheme (theme : string) (env : Env) : Env :=
  match hljs_href env with
  | Some _ =>
      let hljsTheme := if bool_decide (theme = "dark") then "github-dark" else "github" in
      {| data_theme := data_theme env; stored := stored env;
         hljs_href :=
           Some ("https://cdnjs.cloudflare.com/ajax/libs/highlight.js/11.9.0/styles/"
                 +:+ hljsTheme +:+ ".min.css") |}
  | None => env
  end.

(** [toggleTheme()]. *)
Definition toggleTheme (env : Env) : Env :=
  let currentTheme := data_theme env in
  let newTheme := if bool_decide (currentTheme = Some "dark") then "light" else "dark" in
  updateHighlightTheme newTheme
    {| data_theme := Some newTheme; stored := Some newTheme;
       hljs_href := hljs_href env |}.

(** [loadTheme()], for what the media query [prefers-color-scheme: dark]
    answers. *)
Definition loadTheme (prefersDark : bool) (env : Env) : Env :=
  let savedTheme := stored env in
  let theme := if truthy savedTheme then default "" savedTheme
               else if prefersDark then "dark" else "light" in
  updateHighlightTheme theme
    {| data_theme := Some theme; stored := stored env;
       hljs_href := hljs_href env |}.

End Theme.

Module Menu.

(** The class [active] of the left sidebar and of the overlay, the class
    [collapsed] of the sidebar, and [document.body.style.overflow]. *)
Record State := {
  sidebar_active : bool;
  overlay_active : bool;
  collapsed : bool;
  body_overflow : string
}.

Definition initial : State :=
  {| sidebar_active := false; overlay_active := false; collapsed := false;
     body_overflow := "" |}.

(** [toggleMobileMenu()]. *)
Definition toggleMobileMenu (st : State) : State :=
  {| sidebar_active := negb (sidebar_active st);
     overlay_active := negb (overlay_active st);
     collapsed := collapsed st;
     body_overflow := if negb (sidebar_active st) then "hidden" else "" |}.

(** [closeMobileMenu()]. *)
Definition closeMobileMenu (st : State) : State :=
  {| sidebar_active := false; overlay_active := false;
     collapsed := collapsed st; body_overflow := "" |}.

(** [toggleDesktopSidebar()]. *)
Definition toggleDesktopSidebar (st : State) : State :=
  {| sidebar_active := sidebar_active st; overlay_active := overlay_active st;
     collapsed := negb (collapsed st); body_overflow := body_overflow st |}.

(** [toggleSidebar()], for [window.innerWidth]. *)
Definition toggleSidebar (innerWidth : Z) (st : State) : State :=
  if innerWidth <=? 900 then toggleMobileMenu st else toggleDesktopSidebar st.

(** [handleResize()]. *)
Definition handleResize (innerWidth : Z) (st : State) : State :=
  if 900 <? innerWidth then closeMobileMenu st else st.

(** [handleKeydown(e)] of the application, for the tag name of the
    target, [e.key] and the window width: the theme and the menu after
    it. *)
Definition handleKeydown (tagName key : string) (innerWidth : Z)
    (app : Theme.Env * State) : Theme.Env * State :=
  if bool_decide (tagName = "INPUT") || bool_decide (tagName = "TEXTAREA")
  then app
  else if bool_decide (toLowerCase key = "t")
  then (Theme.toggleTheme app.1, app.2)
  else if bool_decide (toLowerCase key = "b")
  then (app.1, toggleSidebar innerWidth app.2)
  else app.

Inductive Event :=
| MenuButton                       (* a click on the menu toggle *)
| OverlayClick                     (* a click on the overlay *)
| Resize (innerWidth : Z)
| Key (tagName key : string) (innerWidth : Z)
| ArticleLoaded.                   (* the route handler loads an article *)

Definition step (app : Theme.Env * State) (e : Event) : Theme.Env * State :=
  match e with
  | MenuButton => (app.1, toggleMobileMenu app.2)
  | OverlayClick => (app.1, closeMobileMenu app.2)
  | Resize w => (app.1, handleResize w app.2)
  | Key tagName key w => handleKeydown tagName key w app
  | ArticleLoaded => (app.1, closeMobileMenu app.2)
  end.

Definition run (app : Theme.Env * State) (events : list Event)
  : Theme.Env * State :=
  fold_left step events app.

End Menu.

(** ** Slugs of the manifest generator (build.js) *)

Module Build.

(** [name.replace(/\.md$/, '')]: a final [.md] is dropped. *)
Fixpoint drop_md (name : string) : string :=
  match name with
  | EmptyString => EmptyString
  | String c s' => if bool_decide (name = ".md") then EmptyString
                   else String c (drop_md s')
  end.

Definition is_slug_char (c : ascii) : bool :=
  let n := nat_of_ascii c in
  ((97 <=? n)%nat && (n <=? 122)%nat) || ((48 <=? n)%nat && (n <=? 57)%nat)
  || Ascii.eqb c "-"%char.

(** [toSlug(name)]. *)
Definition toSlug (name : string) : string :=
  TableOfContents.strip is_slug_char
    (TableOfContents.collapse is_space "-"%char
       (toLowerCase (drop_md name))).

End Build.

(** ** Vocabulary of the further properties *)

Module Laws.

(** Every character of [s] satisfies [p]. *)
Fixpoint all_chars (p : ascii → bool) (s : string) : bool :=
  match s with
  | EmptyString => true
  | String c s' => p c && all_chars p s'
  end.

(** No two neighbours in [s] both satisfy [p]. *)
Fixpoint no_run (p : ascii → bool) (s : string) : bool :=
  match s with
  | EmptyString => true
  | String c s' =>
      match s' with
      | String c' _ => negb (p c && p c')
      | EmptyString => true
      end && no_run p s'
  end.

(** The characters of a heading id made from text: a lower-case letter,
    a digit, an underscore or a hyphen. *)
Definition is_id_char (c : ascii) : bool :=
  let n := nat_of_ascii c in
  ((97 <=? n)%nat && (n <=? 122)%nat) || ((48 <=? n)%nat && (n <=? 57)%nat)
  || (n =? 95)%nat || (n =? 45)%nat.

(** What every reachable state of the scroll spy satisfies. *)
Definition spy_good (spy : ScrollSpy.Spy) : Prop :=
  length (TableOfContents.links (ScrollSpy.toc spy))
  = length (TableOfContents.headings (ScrollSpy.toc spy))
  ∧ -1 ≤ TableOfContents.activeIndex (ScrollSpy.toc spy)
       < Z.of_nat (length (TableOfContents.headings (ScrollSpy.toc spy)))
  ∧ ScrollSpy.active_links spy
    = (if 0 <=? TableOfContents.activeIndex (ScrollSpy.toc spy)
       then [Z.to_nat (TableOfContents.activeIndex (ScrollSpy.toc spy))]
       else [])
  ∧ (length (ScrollSpy.pending spy) ≤ 1)%nat
  ∧ ∀ h, h ∈ ScrollSpy.pending spy →
         TableOfContents.scrollTimeout (ScrollSpy.toc spy) = Some h.

(** The table of contents lists the headings of the article on show, and
    is empty under the welcome and the error screen. *)
Definition toc_in_step {NavState} (pg : MarkdownRenderer.Page NavState) : Prop :=
  match MarkdownRenderer.container (MarkdownRenderer.markdown pg) with
  | MarkdownRenderer.ArticleView _ content =>
      TableOfContents.headings (MarkdownRenderer.toc pg)
      = imap TableOfContents.heading_entry (Spec.content_headings (Some content))
      ∧ TableOfContents.links (MarkdownRenderer.toc pg)
        = imap TableOfContents.heading_link (Spec.content_headings (Some content))
  | MarkdownRenderer.Welcome | MarkdownRenderer.ErrorPlaceholder =>
      TableOfContents.container (MarkdownRenderer.toc pg) = TableOfContents.EmptyState
      ∧ TableOfContents.headings (MarkdownRenderer.toc pg) = []
      ∧ TableOfContents.links (MarkdownRenderer.toc pg) = []
  | MarkdownRenderer.Loading | MarkdownRenderer.Blank => True
  end.

(** The overlay is shown, and the page behind it locked, exactly while
    the mobile menu is open. *)
Definition menu_good (st : Menu.State) : Prop :=
  Menu.overlay_active st = Menu.sidebar_active st
  ∧ Menu.body_overflow st = (if Menu.sidebar_active st then "hidden" else "").

(** The stylesheet of the highlighter that goes with a theme. *)
Definition stylesheet_of (theme : string) : string :=
  "https://cdnjs.cloudflare.com/ajax/libs/highlight.js/11.9.0/styles/"
  +:+ (if bool_decide (theme = "dark") then "github-dark" else "github")
  +:+ ".min.css".

End Laws.

(** * Properties *)

(** ** Facts about the string operations *)

Section StringFacts.

Implicit Types (s t r : string) (c : ascii).

Lemma append_nil s : "" +:+ s = s.
Proof. reflexivity. Qed.

Lemma append_cons c s t : String c s +:+ t = String c (s +:+ t).
Proof. reflexivity. Qed.

Lemma app_assoc_str s t r : (s +:+ t) +:+ r = s +:+ (t +:+ r).
Proof.
  induction s as [|c s IH]; [reflexivity|].
  now rewrite !append_cons, IH.
Qed.

Lemma startsWith_app s t : startsWith (t +:+ s) t = true.
Proof.
  induction t as [|c t IH]; [reflexivity|].
  rewrite append_cons. simpl. now rewrite Ascii.eqb_refl.
Qed.

Lemma startsWith_spec s t : startsWith s t = true ↔ ∃ r, s = t +:+ r.
Proof.
  split.
  - revert s. induction t as [|b t IH]; intros s H; simpl in *.
    + now exists s.
    + destruct s as [|a s]; [discriminate|].
      destruct (Ascii.eqb_spec a b) as [->|]; [|discriminate].
      destruct (IH _ H) as [r ->]. now exists r.
  - intros [r ->]. apply startsWith_app.
Qed.

(** A string that starts with [t +:+ r] starts with [t]. *)
Lemma startsWith_shorter s t r :
  startsWith s (t +:+ r) = true → startsWith s t = true.
Proof.
  rewrite !startsWith_spec. intros [u ->].
  exists (r +:+ u). apply app_assoc_str.
Qed.

Lemma includes_shorter s t r :
  includes s (t +:+ r) = true → includes s t = true.
Proof.
  induction s as [|c s IH]; simpl; rewrite !orb_true_iff.
  - intros [H|H]; [|discriminate]. left. revert H. apply startsWith_shorter.
  - intros [H|H]; [left; revert H; apply startsWith_shorter | right; auto].
Qed.

Lemma slice_from_app s t : slice_from (String.length t) (t +:+ s) = s.
Proof.
  induction t as [|c t IH]; [reflexivity|]. rewrite append_cons. apply IH.
Qed.

(** A piece free of the separator is split off whole. *)
Lemma split_piece sep s r :
  free_of (λ c, Ascii.eqb c sep) s = true →
  split sep (s +:+ String sep r) = s :: split sep r.
Proof.
  induction s as [|c s IH]; rewrite ?append_nil, ?append_cons; simpl.
  - intros _. now rewrite Ascii.eqb_refl.
  - rewrite andb_true_iff, negb_true_iff. intros [Hc Hs].
    rewrite Hc, IH by assumption. reflexivity.
Qed.

Lemma split_whole sep s :
  free_of (λ c, Ascii.eqb c sep) s = true → split sep s = [s].
Proof.
  induction s as [|c s IH]; simpl; [reflexivity|].
  rewrite andb_true_iff, negb_true_iff. intros [Hc Hs].
  rewrite Hc, IH by assumption. reflexivity.
Qed.

Lemma free_of_weaken (p q : ascii → bool) s :
  (∀ c, q c = true → p c = true) →
  free_of p s = true → free_of q s = true.
Proof.
  intros Hpq. induction s as [|c s IH]; simpl; [reflexivity|].
  rewrite !andb_true_iff, !negb_true_iff. intros [Hc Hs]. split; [|auto].
  destruct (q c) eqn:E; [|reflexivity]. apply Hpq in E. congruence.
Qed.

Lemma free_of_app (p : ascii → bool) s t :
  free_of p (s +:+ t) = free_of p s && free_of p t.
Proof.
  induction s as [|c s IH]; [reflexivity|].
  rewrite append_cons. simpl. now rewrite IH, andb_assoc.
Qed.

(** A word without whitespace is one piece. *)
Lemma split_ws_word s : free_of is_space s = true → split_ws s = [s].
Proof.
  induction s as [|c s IH]; simpl; [reflexivity|].
  rewrite andb_true_iff, negb_true_iff. intros [Hc Hs].
  rewrite Hc, IH by assumption. reflexivity.
Qed.

End StringFacts.

(** ** Router *)

Section RouterFacts.

Implicit Types (s t a : string).

Lemma parts_truthy location_hash :
  Forall (λ s, Boolean s = true) (Router.parts (Router.parseHash location_hash)).
Proof.
  unfold Router.parseHash; simpl.
  apply Forall_forall. intros s Hs.
  apply list_elem_of_In, filter_In in Hs. tauto.
Qed.

(** On the filtered parts, [parts[i] || null] is just the lookup. *)
Lemma or_null_parts (l : list string) (i : nat) :
  Forall (λ s, Boolean s = true) l → or_null (l !! i) = l !! i.
Proof.
  intros Hl. destruct (l !! i) as [s|] eqn:E; [|reflexivity].
  simpl. apply list_elem_of_lookup_2 in E.
  rewrite Forall_forall in Hl. now rewrite (Hl _ E).
Qed.

Lemma parseHash_positional location_hash :
  let r := Router.parseHash location_hash in
  Router.skill r = Router.parts r !! 0%nat
  ∧ Router.topic r = Router.parts r !! 1%nat
  ∧ Router.article r = Router.parts r !! 2%nat.
Proof.
  pose proof (parts_truthy location_hash) as H.
  unfold Router.parseHash in *; simpl in *.
  repeat split; now apply or_null_parts.
Qed.

Lemma slug_safe_inv s :
  Spec.slug_safe s = true →
  Boolean s = true ∧ free_of (λ c, Ascii.eqb c "/"%char) s = true.
Proof.
  unfold Spec.slug_safe. rewrite andb_true_iff. intros [Hb Hf]. split; [done|].
  revert Hf. apply free_of_weaken. intros c ->. reflexivity.
Qed.

Lemma part_safe_inv s :
  Spec.part_safe s = true →
  free_of (λ c, Ascii.eqb c "/"%char) s = true
  ∧ free_of Router.fragment_encoded s = true.
Proof.
  unfold Spec.part_safe. intros H.
  split; revert H; apply free_of_weaken; intros c ->;
    [reflexivity | apply orb_true_r].
Qed.

Lemma part_safe_intro s :
  free_of (λ c, Ascii.eqb c "/"%char) s = true →
  free_of Router.fragment_encoded s = true →
  Spec.part_safe s = true.
Proof.
  unfold Spec.part_safe. induction s as [|c s IH]; simpl; [reflexivity|].
  rewrite !andb_true_iff, !negb_true_iff. intros [-> Hs] [-> Hf]. auto.
Qed.

(** The setter leaves a fragment alone that holds nothing to encode. *)
Lemma encode_fragment_plain s :
  free_of Router.fragment_encoded s = true → Router.encode_fragment s = s.
Proof.
  induction s as [|c s IH]; simpl; [reflexivity|].
  rewrite andb_true_iff, negb_true_iff. intros [Hc Hs].
  rewrite Hc, IH by assumption.
  replace (Router.is_tab_or_newline c) with false; [reflexivity|].
  revert Hc. destruct c as [[] [] [] [] [] [] [] []]; (reflexivity || discriminate).
Qed.

Lemma navigate_plain (p : string) :
  free_of Router.fragment_encoded p = true →
  Router.navigate (String "/"%char p) = String "#"%char (String "/"%char p).
Proof.
  intros Hp. unfold Router.navigate, Router.set_location_hash.
  change (startsWith (String "/"%char p) "#") with false. cbn [negb].
  change ("#" +:+ String "/"%char p) with (String "#"%char (String "/"%char p)).
  change (startsWith (String "#"%char (String "/"%char p)) "#") with true.
  cbv iota.
  change (slice_from 1 (String "#"%char (String "/"%char p)))
    with (String "/"%char p).
  change (Router.encode_fragment (String "/"%char p))
    with (String "/"%char (Router.encode_fragment p)).
  now rewrite encode_fragment_plain.
Qed.

(** The round trip needs that the three slugs are non-empty, free of the
    separator, and free of what the fragment setter encodes. *)
Lemma parseHash_navigate_buildPath s t a :
  Boolean s = true → Spec.part_safe s = true →
  Boolean t = true → Spec.part_safe t = true →
  Boolean a = true → Spec.part_safe a = true →
  Router.parseHash (Router.navigate (Router.buildPath (Some s) (Some t) (Some a)))
  = {| Router.skill := Some s; Router.topic := Some t; Router.article := Some a;
       Router.path := "/" +:+ s +:+ "/" +:+ t +:+ "/" +:+ a;
       Router.parts := [s; t; a] |}.
Proof.
  intros Bs [Fs Ps]%part_safe_inv Bt [Ft Pt]%part_safe_inv
    Ba [Fa Pa]%part_safe_inv.
  assert (Hb : Router.buildPath (Some s) (Some t) (Some a)
               = "/" +:+ s +:+ "/" +:+ t +:+ "/" +:+ a).
  { unfold Router.buildPath. simpl. rewrite Bs, Bt, Ba. reflexivity. }
  rewrite Hb. clear Hb.
  set (p := s +:+ "/" +:+ t +:+ "/" +:+ a).
  assert (Hn : Router.navigate ("/" +:+ p) = "#" +:+ "/" +:+ p).
  { apply navigate_plain. subst p.
    rewrite !free_of_app, Ps, Pt, Pa. reflexivity. }
  rewrite Hn. clear Hn.
  assert (Hs : split "/"%char ("/" +:+ p) = [""; s; t; a]).
  { subst p. rewrite !append_cons, !append_nil.
    change (split "/"%char (String "/"%char ?x)) with ("" :: split "/"%char x).
    rewrite (split_piece _ s), (split_piece _ t), (split_whole _ a) by assumption.
    reflexivity. }
  unfold Router.parseHash.
  change (slice_from 1 ("#" +:+ "/" +:+ p)) with ("/" +:+ p).
  change (Boolean ("/" +:+ p)) with true. cbv iota.
  rewrite Hs. simpl. rewrite Bs, Bt, Ba. simpl. rewrite Bs, Bt, Ba.
  reflexivity.
Qed.

End RouterFacts.

(** C10.  Every route that [parseHash] produces is prefix-closed: when the
    article field is set so is the topic field, and when the topic field
    is set so is the skill field, whatever the fragment.  The fields are
    the first three of the non-empty segments, by position. *)
Theorem parseHash_prefix_closed (location_hash : string) :
  (is_Some (Router.article (Router.parseHash location_hash)) →
   is_Some (Router.topic (Router.parseHash location_hash)))
  ∧ (is_Some (Router.topic (Router.parseHash location_hash)) →
     is_Some (Router.skill (Router.parseHash location_hash))).
Proof.
  destruct (parseHash_positional location_hash) as (-> & -> & ->).
  split; intros H; apply lookup_lt_is_Some in H; apply lookup_lt_is_Some; lia.
Qed.

Lemma parseHash_prefix_closed_witness :
  is_Some (Router.skill (Router.parseHash "#/frontend//javascript")).
Proof.
  apply (proj2 (parseHash_prefix_closed "#/frontend//javascript")).
  vm_compute. eauto.
Defined.

(** C4, counterexample.  The string [a<b] is slug-safe (not empty,
    without slash, hash sign or whitespace), but the fragment setter
    percent-encodes [<] and [parseHash] does not decode: the skill that
    comes back is [a%3Cb]. *)
Lemma parseHash_buildPath_encoded :
  Spec.slug_safe "a<b" = true
  ∧ Router.navigate (Router.buildPath (Some "a<b") (Some "t") (Some "x"))
    = "#/a%3Cb/t/x"
  ∧ Router.skill (Router.parseHash (Router.navigate
      (Router.buildPath (Some "a<b") (Some "t") (Some "x")))) = Some "a%3Cb"
  ∧ Router.skill (Router.parseHash (Router.navigate
      (Router.buildPath (Some "a<b") (Some "t") (Some "x")))) ≠ Some "a<b".
Proof. vm_compute. repeat split. discriminate. Qed.

(** C4, amended.  [parseHash] undoes [buildPath] on slugs that the
    fragment keeps as they are: for slug-safe [s], [t] and [a]
    (non-empty, without slash, hash sign or whitespace) that hold no
    character which [location.hash] percent-encodes (a control, the double
    quote, [<], [>], the backquote, or anything above [~]), navigating to
    [buildPath(s, t, a)] and parsing the fragment gives the route with
    skill [s], topic [t] and article [a]. *)
Theorem parseHash_buildPath_inverse (s t a : string) :
  Spec.slug_safe s = true → Spec.slug_safe t = true → Spec.slug_safe a = true →
  free_of Router.fragment_encoded s = true →
  free_of Router.fragment_encoded t = true →
  free_of Router.fragment_encoded a = true →
  Router.skill (Router.parseHash (Router.navigate
     (Router.buildPath (Some s) (Some t) (Some a)))) = Some s
  ∧ Router.topic (Router.parseHash (Router.navigate
     (Router.buildPath (Some s) (Some t) (Some a)))) = Some t
  ∧ Router.article (Router.parseHash (Router.navigate
     (Router.buildPath (Some s) (Some t) (Some a)))) = Some a.
Proof.
  intros [Bs Fs]%slug_safe_inv [Bt Ft]%slug_safe_inv [Ba Fa]%slug_safe_inv
    Ps Pt Pa.
  rewrite parseHash_navigate_buildPath by auto using part_safe_intro. auto.
Qed.

Lemma parseHash_buildPath_inverse_witness :
  Router.skill (Router.parseHash (Router.navigate
     (Router.buildPath (Some "sf") (Some "admin") (Some "user-management"))))
  = Some "sf"
  ∧ Router.topic (Router.parseHash (Router.navigate
     (Router.buildPath (Some "sf") (Some "admin") (Some "user-management"))))
    = Some "admin"
  ∧ Router.article (Router.parseHash (Router.navigate
     (Router.buildPath (Some "sf") (Some "admin") (Some "user-management"))))
    = Some "user-management".
Proof.
  apply (parseHash_buildPath_inverse "sf" "admin" "user-management");
    reflexivity.
Defined.

(** ** Navigation and the route handler *)

Section NavigationFacts.

Context {A : Type} (key : A → string).

(** With unique keys, [find] returns the one element that has the key. *)
Lemma find_unique (k : string) (x : A) (l : list A) :
  NoDup (map key l) → x ∈ l → key x = k →
  List.find (λ y, bool_decide (key y = k)) l = Some x.
Proof.
  induction l as [|y l IH]; simpl; intros Hnd Hin Hk.
  - now apply elem_of_nil in Hin.
  - apply NoDup_cons in Hnd as [Hy Hnd].
    apply elem_of_cons in Hin as [->|Hin].
    + now rewrite bool_decide_eq_true_2.
    + rewrite bool_decide_eq_false_2; [now apply IH|].
      intros Hyk. apply Hy. rewrite Hyk, <- Hk.
      now apply list_elem_of_fmap_2.
Qed.

Lemma find_key_Some (k : string) (x : A) (l : list A) :
  List.find (λ y, bool_decide (key y = k)) l = Some x → x ∈ l ∧ key x = k.
Proof.
  intros [Hin Hk]%find_some. split; [now apply list_elem_of_In|].
  now apply bool_decide_eq_true in Hk.
Qed.

End NavigationFacts.

Lemma getArticlePath_Some_inv m skill topic article p :
  Navigation.getArticlePath m skill topic article = Some p →
  ∃ s t a, Spec.resolves m skill topic article s t a
    ∧ p = "content/" +:+ Navigation.Skill.folder s +:+ "/"
          +:+ Navigation.Topic.folder t +:+ "/"
          +:+ Navigation.Article.file a +:+ ".md".
Proof.
  unfold Navigation.getArticlePath, Spec.resolves.
  destruct (List.find _ (Navigation.skills m)) as [s|] eqn:Es; [|discriminate].
  destruct (List.find _ (Navigation.Skill.topics s)) as [t|] eqn:Et; [|discriminate].
  destruct (List.find _ (Navigation.Topic.articles t)) as [a|] eqn:Ea; [|discriminate].
  intros [= <-]. exists s, t, a.
  apply find_key_Some in Es as [? ?], Et as [? ?], Ea as [? ?]. tauto.
Qed.

(** C1.  [getArticlePath] resolves a route through the manifest: when the
    three slugs resolve to nodes [s], [t] and [a] of a manifest with
    unique slugs, the result is exactly
    [content/<folder of s>/<folder of t>/<file of a>.md], built from the
    stored folder names and file stem; when they do not resolve at some
    level, the result is the not-found signal.  In the scenario manifest
    the route [#/sf/admin/user-management] makes the route handler load
    [content/Salesforce/Admin/user-management.md]. *)
Theorem getArticlePath_resolves (m : Navigation.Manifest)
    (skill topic article : string) :
  (∀ s t a,
     Spec.slugs_unique m → Spec.resolves m skill topic article s t a →
     Navigation.getArticlePath m skill topic article
     = Some ("content/" +:+ Navigation.Skill.folder s +:+ "/"
             +:+ Navigation.Topic.folder t +:+ "/"
             +:+ Navigation.Article.file a +:+ ".md"))
  ∧ ((¬ ∃ s t a, Spec.resolves m skill topic article s t a) →
     Navigation.getArticlePath m skill topic article = None)
  ∧ App.handleRouteChange Spec.scenario_manifest
      (Router.parseHash "#/sf/admin/user-management")
    = App.CallLoad "content/Salesforce/Admin/user-management.md".
Proof.
  split; [|split].
  - intros s t a (Hs & Ht) (Hin_s & Hks & Hin_t & Hkt & Hin_a & Hka).
    destruct (Ht _ Hin_s) as [Hnt Ha]. specialize (Ha _ Hin_t).
    unfold Navigation.getArticlePath.
    rewrite (find_unique Navigation.Skill.slug skill s) by assumption.
    rewrite (find_unique Navigation.Topic.slug topic t) by assumption.
    rewrite (find_unique Navigation.Article.slug article a) by assumption.
    reflexivity.
  - intros Hno.
    destruct (Navigation.getArticlePath m skill topic article) as [p|] eqn:E;
      [|reflexivity].
    exfalso. apply Hno.
    destruct (getArticlePath_Some_inv _ _ _ _ _ E) as (s & t & a & H & _).
    eauto.
  - reflexivity.
Qed.

Lemma scenario_slugs_unique : Spec.slugs_unique Spec.scenario_manifest.
Proof.
  split; [apply NoDup_singleton|].
  intros s ->%list_elem_of_singleton. split; [apply NoDup_singleton|].
  intros t ->%list_elem_of_singleton. apply NoDup_singleton.
Defined.

Lemma getArticlePath_resolves_witness :
  Navigation.getArticlePath Spec.scenario_manifest "sf" "admin" "user-management"
  = Some "content/Salesforce/Admin/user-management.md".
Proof.
  apply (proj1 (getArticlePath_resolves Spec.scenario_manifest
                  "sf" "admin" "user-management")
           Spec.scenario_skill Spec.scenario_topic Spec.scenario_article).
  - exact scenario_slugs_unique.
  - unfold Spec.resolves. simpl. repeat split; apply list_elem_of_here.
Defined.

(** The router keeps a helper of the same name that interpolates the
    slugs of the route; on the scenario's route it names a file that the
    content tree does not have.  The route handler does not use it. *)
Example Router_getArticlePath_scenario :
  Router.getArticlePath (Router.parseHash "#/sf/admin/user-management")
  = Some "content/sf/admin/user-management.md".
Proof. reflexivity. Qed.

(** An unknown slug at any level is reported, not guessed. *)
Example handleRouteChange_unknown_article :
  App.handleRouteChange Spec.scenario_manifest
    (Router.parseHash "#/sf/admin/permission-sets")
  = App.CallRenderError.
Proof. reflexivity. Qed.

Example handleRouteChange_home :
  App.handleRouteChange Spec.scenario_manifest (Router.parseHash "#/")
  = App.CallRenderWelcome.
Proof. reflexivity. Qed.

(** ** Search *)

Section SearchFacts.

Implicit Types (a : Search.FlatArticleRecord) (r : Search.Scored)
  (q w : string) (terms : list string).

Lemma tally_nil {A} (p : A → bool) : Spec.tally p [] = 0.
Proof. reflexivity. Qed.

Lemma tally_cons {A} (p : A → bool) (x : A) (l : list A) :
  Spec.tally p (x :: l) = (if p x then 1 else 0) + Spec.tally p l.
Proof.
  unfold Spec.tally. simpl. destruct (p x); simpl length; lia.
Qed.

Lemma tally_app {A} (p : A → bool) (l k : list A) :
  Spec.tally p (l ++ k) = Spec.tally p l + Spec.tally p k.
Proof.
  unfold Spec.tally. rewrite List.filter_app, length_app. lia.
Qed.

(** The [forEach] over the terms adds up what each term earns. *)
Lemma title_loop title terms (score : Z) :
  fold_left (λ score term,
               if includes title term then
                 let score := score + 10 in
                 if startsWith title term then score + 5 else score
               else score) terms score
  = score + 10 * Spec.tally (λ term, includes title term) terms
    + 5 * Spec.tally (λ term, includes title term && startsWith title term) terms.
Proof.
  revert score. induction terms as [|t terms IH]; intros score; simpl.
  - rewrite !tally_nil. lia.
  - rewrite IH, !tally_cons.
    destruct (includes title t), (startsWith title t); simpl; lia.
Qed.

(** The score of the code, term by term, for the query as it is passed. *)
Lemma score_of_sum terms q a :
  Search.score_of terms q a
  = 10 * Spec.tally (λ term, includes (toLowerCase (Search.title a)) term) terms
    + 5 * Spec.tally (λ term, includes (toLowerCase (Search.title a)) term
                              && startsWith (toLowerCase (Search.title a)) term) terms
    + (if includes (toLowerCase (Search.skill a)) q then 3 else 0)
    + (if includes (toLowerCase (Search.topic a)) q then 2 else 0).
Proof.
  unfold Search.score_of. rewrite title_loop.
  destruct (includes (toLowerCase (Search.skill a)) q),
           (includes (toLowerCase (Search.topic a)) q); lia.
Qed.

Lemma lower_char_idem c : lower_char (lower_char c) = lower_char c.
Proof.
  destruct c as [[] [] [] [] [] [] [] []]; reflexivity.
Qed.

Lemma toLowerCase_idem q : toLowerCase (toLowerCase q) = toLowerCase q.
Proof.
  induction q as [|c q IH]; simpl; [reflexivity|].
  now rewrite lower_char_idem, IH.
Qed.

(** Insertion keeps the elements. *)
Lemma insert_Permutation {A} (compare : A → A → Z) (x : A) (l : list A) :
  Search.insert compare x l ≡ₚ x :: l.
Proof.
  induction l as [|y l IH]; simpl; [reflexivity|].
  destruct (0 <? compare x y); [|reflexivity].
  rewrite IH. apply Permutation_swap.
Qed.

Lemma sort_Permutation {A} (compare : A → A → Z) (l : list A) :
  Search.sort compare l ≡ₚ l.
Proof.
  induction l as [|x l IH]; simpl; [reflexivity|].
  rewrite insert_Permutation. now rewrite IH.
Qed.

(** What a result of [search] is: an article of the index, with the
    score of the code, which is positive. *)
Lemma search_result articles q r :
  r ∈ Search.search articles q →
  Search.article r ∈ articles
  ∧ Search.score r = Search.score_of (Search.terms_of q) q (Search.article r)
  ∧ 0 < Search.score r.
Proof.
  unfold Search.search. intros Hr.
  apply (subseteq_take 10) in Hr.
  rewrite sort_Permutation in Hr.
  apply list_elem_of_In, filter_In in Hr as [Hin Hpos].
  apply in_map_iff in Hin as (a & <- & Ha). simpl in *.
  repeat split; [now apply list_elem_of_In | lia].
Qed.

(** For a query that is already in lower case, the code computes the
    score of the design document. *)
Lemma score_of_lowercase_query q a :
  toLowerCase q = q →
  Search.score_of (Search.terms_of q) q a = Spec.search_score a q.
Proof.
  intros Hq. unfold Spec.search_score. rewrite Hq. cbv zeta.
  apply score_of_sum.
Qed.

(** The terms are the non-empty pieces, and none holds whitespace. *)
Lemma split_ws_pieces q : Forall (λ w, free_of is_space w = true) (split_ws q).
Proof.
  induction q as [|c q IH]; simpl.
  - repeat constructor.
  - destruct (is_space c) eqn:Ec.
    + destruct q as [|c' q']; [repeat constructor|].
      destruct (is_space c'); [assumption | now constructor].
    + destruct (split_ws q) as [|x xs]; [repeat constructor; simpl; now rewrite Ec|].
      apply Forall_cons in IH as [Hx Hxs]. constructor; [|assumption].
      simpl. now rewrite Ec, Hx.
Qed.

Lemma terms_of_words q :
  Forall (λ w, Boolean w = true ∧ free_of is_space w = true) (Search.terms_of q).
Proof.
  unfold Search.terms_of. apply Forall_forall. intros w Hw.
  apply list_elem_of_In, filter_In in Hw as [Hin Hb]. split; [assumption|].
  pose proof (split_ws_pieces q) as H. rewrite Forall_forall in H.
  now apply H, list_elem_of_In.
Qed.

(** *** Order of the results *)

Lemma insert_sorted (x : Search.Scored) (l : list Search.Scored) :
  StronglySorted (λ r1 r2, Search.score r2 ≤ Search.score r1) l →
  StronglySorted (λ r1 r2, Search.score r2 ≤ Search.score r1)
    (Search.insert Search.by_score x l).
Proof.
  induction 1 as [|y l Hl IH Hy]; simpl.
  - repeat constructor.
  - unfold Search.by_score at 1. destruct (Z.ltb_spec 0 (Search.score y - Search.score x)).
    + constructor; [assumption|].
      rewrite insert_Permutation. constructor; [lia | assumption].
    + constructor; [now constructor|].
      constructor; [lia|]. eapply Forall_impl; [exact Hy|].
      simpl. intros; lia.
Qed.

Lemma sort_sorted (l : list Search.Scored) :
  StronglySorted (λ r1 r2, Search.score r2 ≤ Search.score r1)
    (Search.sort Search.by_score l).
Proof.
  induction l as [|x l IH]; simpl; [constructor | now apply insert_sorted].
Qed.

Lemma StronglySorted_take {A} (R : A → A → Prop) (n : nat) (l : list A) :
  StronglySorted R l → StronglySorted R (take n l).
Proof.
  intros H. revert n. induction H as [|x l Hl IH Hx]; intros [|n]; simpl;
    try constructor; [apply IH|].
  eapply Forall_forall. intros y Hy. rewrite Forall_forall in Hx.
  apply Hx. revert Hy. apply subseteq_take.
Qed.

(** Insertion moves an element only past elements of another score, so the
    elements of any one score keep their order. *)
Lemma insert_stable (v : Z) (x : Search.Scored) (l : list Search.Scored) :
  List.filter (λ r, Search.score r =? v) (Search.insert Search.by_score x l)
  = List.filter (λ r, Search.score r =? v) (x :: l).
Proof.
  induction l as [|y l IH]; [reflexivity|].
  simpl Search.insert. unfold Search.by_score at 1.
  destruct (Z.ltb_spec 0 (Search.score y - Search.score x)); [|reflexivity].
  simpl in *. rewrite IH.
  destruct (Z.eqb_spec (Search.score x) v), (Z.eqb_spec (Search.score y) v);
    try reflexivity; lia.
Qed.

Lemma sort_stable (v : Z) (l : list Search.Scored) :
  List.filter (λ r, Search.score r =? v) (Search.sort Search.by_score l)
  = List.filter (λ r, Search.score r =? v) l.
Proof.
  induction l as [|x l IH]; [reflexivity|].
  simpl Search.sort. rewrite insert_stable. simpl. now rewrite IH.
Qed.

Lemma filter_take_prefix {A} (p : A → bool) (n : nat) (l : list A) :
  List.filter p (take n l) `prefix_of` List.filter p l.
Proof.
  revert n. induction l as [|x l IH]; intros [|n]; simpl;
    try apply prefix_nil.
  destruct (p x); [apply prefix_cons|]; apply IH.
Qed.

Lemma filter_score_positive (v : Z) (l : list Search.Scored) :
  0 < v →
  List.filter (λ r, Search.score r =? v) (List.filter (λ r, 0 <? Search.score r) l)
  = List.filter (λ r, Search.score r =? v) l.
Proof.
  intros Hv. induction l as [|x l IH]; simpl; [reflexivity|].
  destruct (Z.ltb_spec 0 (Search.score x)); simpl; rewrite IH; [reflexivity|].
  destruct (Z.eqb_spec (Search.score x) v); [lia | reflexivity].
Qed.

Lemma filter_score_nonpositive (v : Z) (l : list Search.Scored) :
  v ≤ 0 →
  List.filter (λ r, Search.score r =? v) (List.filter (λ r, 0 <? Search.score r) l)
  = [].
Proof.
  intros Hv. induction l as [|x l IH]; simpl; [reflexivity|].
  destruct (Z.ltb_spec 0 (Search.score x)); simpl; rewrite ?IH; [|reflexivity].
  destruct (Z.eqb_spec (Search.score x) v); [lia | reflexivity].
Qed.

Lemma filter_scored terms q (v : Z) (articles : list Search.FlatArticleRecord) :
  map Search.article
    (List.filter (λ r, Search.score r =? v) (map (Search.scored terms q) articles))
  = List.filter (λ a, Search.score_of terms q a =? v) articles.
Proof.
  induction articles as [|a l IH]; simpl; [reflexivity|].
  destruct (Search.score_of terms q a =? v); simpl; now rewrite IH.
Qed.

Lemma prefix_map {A B} (f : A → B) (l k : list A) :
  l `prefix_of` k → map f l `prefix_of` map f k.
Proof. intros [t ->]. exists (map f t). apply map_app. Qed.

End SearchFacts.

(** C2, counterexample.  [search] compares the query as it is passed: on
    the query [Apex] the record titled "Apex Programming Basics" scores 0
    and is left out, where the lowercasing score is 15. *)
Lemma search_keeps_query_case :
  Search.score_of (Search.terms_of "Apex") "Apex" Spec.apex_basics = 0
  ∧ Spec.search_score Spec.apex_basics "Apex" = 15
  ∧ Search.search [Spec.apex_basics] "Apex" = [].
Proof. vm_compute. auto. Qed.

(** C2, amended.  [search(query)] takes the query as its callers hand it
    over, in lower case.  For every article record and every query that is
    in lower case, the score is: split the query at whitespace into terms;
    10 for each term contained in the lowercased title, 5 more for each
    such term the lowercased title starts with; 3 if the whole query is
    contained in the lowercased skill name; 2 if it is contained in the
    lowercased topic name.  Every result carries that score of its
    article, and no article of score 0 is among the results. *)
Theorem search_score_refines (articles : list Search.FlatArticleRecord)
    (query : string) :
  toLowerCase query = query →
  (∀ a, Search.score_of (Search.terms_of query) query a
        = Spec.search_score a query)
  ∧ (∀ r, r ∈ Search.search articles query →
          Search.article r ∈ articles
          ∧ Search.score r = Spec.search_score (Search.article r) query)
  ∧ (∀ a, Spec.search_score a query = 0 →
          ∀ r, r ∈ Search.search articles query → Search.article r ≠ a).
Proof.
  intros Hq. split; [|split].
  - intros a. now apply score_of_lowercase_query.
  - intros r (Hin & Hs & _)%search_result.
    now rewrite Hs, score_of_lowercase_query.
  - intros a Ha r (_ & Hs & Hpos)%search_result <-.
    rewrite Hs, score_of_lowercase_query in Hpos by assumption. lia.
Qed.

Lemma search_score_refines_witness :
  Search.score_of (Search.terms_of "apex basics") "apex basics" Spec.apex_basics
  = Spec.search_score Spec.apex_basics "apex basics".
Proof.
  apply (proj1 (search_score_refines [Spec.async_await; Spec.apex_basics]
                  "apex basics" eq_refl)).
Defined.

(** The callers lowercase: what [handleInput] shows for the text of the
    input box carries the score of the design document for that text,
    trimmed. *)
Lemma handleInput_scores (articles : list Search.FlatArticleRecord)
    (value : string) (p : Search.Panel) :
  (2 ≤ String.length (toLowerCase (trim value)))%nat →
  Search.isOpen (Search.handleInput articles value p) = true
  ∧ ∀ r, r ∈ Search.items (Search.handleInput articles value p) →
         Search.score r = Spec.search_score (Search.article r) (trim value).
Proof.
  intros Hlen. unfold Search.handleInput.
  destruct (Nat.ltb_spec (String.length (toLowerCase (trim value))) 2); [lia|].
  simpl. split; [reflexivity|].
  intros r (_ & Hs & _)%search_result. rewrite Hs.
  rewrite score_of_lowercase_query by apply toLowerCase_idem.
  unfold Spec.search_score. now rewrite toLowerCase_idem.
Qed.

Example search_scenario_apex :
  map (λ r, (Search.title (Search.article r), Search.score r))
    (Search.search [Spec.async_await; Spec.apex_basics] "apex")
  = [("Apex Programming Basics", 15)].
Proof. reflexivity. Qed.

(** C3.  Whatever the index and the query, [search] returns at most 10
    results, in non-increasing order of score, and the results of any one
    score are the first articles of that score in the flat index, in the
    order of the index. *)
Theorem search_top10_sorted_stable (articles : list Search.FlatArticleRecord)
    (query : string) :
  (length (Search.search articles query) ≤ 10)%nat
  ∧ StronglySorted (λ r1 r2, Search.score r2 ≤ Search.score r1)
      (Search.search articles query)
  ∧ ∀ v : Z,
      map Search.article
        (List.filter (λ r, Search.score r =? v) (Search.search articles query))
      `prefix_of`
      List.filter (λ a, Search.score_of (Search.terms_of query) query a =? v)
        articles.
Proof.
  unfold Search.search. split; [|split].
  - rewrite length_take. lia.
  - apply StronglySorted_take, sort_sorted.
  - intros v. rewrite <- filter_scored.
    etransitivity; [apply prefix_map, filter_take_prefix|].
    rewrite sort_stable.
    destruct (Z.lt_ge_cases 0 v) as [Hv|Hv].
    + now rewrite filter_score_positive.
    + rewrite filter_score_nonpositive by assumption. apply prefix_nil.
Qed.

Example search_ties_keep_index_order :
  map (λ r, (Search.slug (Search.article r), Search.score r))
    (Search.search [Spec.async_await; Spec.apex_basics] "a")
  = [("apex-basics", 18); ("async-await", 17)]
  ∧ map (λ r, (Search.slug (Search.article r), Search.score r))
      (Search.search [Spec.async_await; Spec.apex_basics] "pro")
    = [("apex-basics", 10)]
  ∧ map (λ r, (Search.slug (Search.article r), Search.score r))
      (Search.search [Spec.async_await; Spec.apex_basics] "")
    = [("async-await", 5); ("apex-basics", 5)].
Proof. repeat split; reflexivity. Qed.

(** *** Extending the query by one term *)

Section QueryExtension.

Implicit Types (a b : Search.FlatArticleRecord) (q w : string).

(** Splitting [q], a space and a word: the pieces of [q], then the word. *)
Lemma split_ws_extend q w :
  Boolean w = true → free_of is_space w = true →
  ∃ x xs ys,
    split_ws q = x :: xs
    ∧ split_ws (q +:+ " " +:+ w) = x :: ys
    ∧ List.filter Boolean ys = List.filter Boolean xs ++ [w].
Proof.
  intros Bw Fw.
  assert (Hw : split_ws (String " "%char w) = [""; w]).
  { destruct w as [|c w']; [discriminate|].
    pose proof Fw as Fw'. simpl in Fw'.
    apply andb_true_iff in Fw' as [Hc%negb_true_iff _].
    change (split_ws (String " " (String c w')))
      with (if is_space c then split_ws (String c w')
            else "" :: split_ws (String c w')).
    rewrite Hc. now rewrite split_ws_word. }
  induction q as [|c q (x & xs & ys & Hq & Hq' & Hf)].
  - exists "", [], [w]. rewrite append_nil. change (" " +:+ w) with (String " "%char w).
    rewrite Hw. simpl. now rewrite Bw.
  - rewrite append_cons. simpl split_ws. destruct (is_space c) eqn:Ec.
    + destruct q as [|c' q'].
      * rewrite append_nil. change (" " +:+ w) with (String " "%char w).
        change (is_space " ") with true. cbv iota. rewrite Hw.
        exists "", [""], [w]. simpl. now rewrite Bw.
      * rewrite append_cons in *. destruct (is_space c').
        -- exists x, xs, ys. auto.
        -- exists "", (x :: xs), (x :: ys). rewrite Hq, Hq'.
           repeat split. simpl. destruct (Boolean x); simpl; now rewrite Hf.
    + rewrite Hq, Hq'. exists (String c x), xs, ys. auto.
Qed.

Lemma terms_of_extend q w :
  Boolean w = true → free_of is_space w = true →
  Search.terms_of (q +:+ " " +:+ w) = Search.terms_of q ++ [w].
Proof.
  intros Bw Fw. unfold Search.terms_of.
  destruct (split_ws_extend q w Bw Fw) as (x & xs & ys & -> & -> & Hf).
  simpl. destruct (Boolean x); simpl; now rewrite Hf.
Qed.

(** The score under the longer query: what the terms of [q] earned, what
    [w] earns, and the bonuses for the longer raw query. *)
Lemma score_of_extend q w a :
  Boolean w = true → free_of is_space w = true →
  Search.score_of (Search.terms_of (q +:+ " " +:+ w)) (q +:+ " " +:+ w) a
  = Search.score_of (Search.terms_of q) q a
    + (if includes (toLowerCase (Search.title a)) w
       then (if startsWith (toLowerCase (Search.title a)) w then 15 else 10)
       else 0)
    - ((if includes (toLowerCase (Search.skill a)) q then 3 else 0)
       - (if includes (toLowerCase (Search.skill a)) (q +:+ " " +:+ w) then 3 else 0))
    - ((if includes (toLowerCase (Search.topic a)) q then 2 else 0)
       - (if includes (toLowerCase (Search.topic a)) (q +:+ " " +:+ w) then 2 else 0)).
Proof.
  intros Bw Fw. rewrite !score_of_sum, terms_of_extend by assumption.
  rewrite !tally_app, !tally_cons, !tally_nil.
  destruct (includes (toLowerCase (Search.title a)) w),
           (startsWith (toLowerCase (Search.title a)) w); simpl; lia.
Qed.

(** The bonus for the raw query can be lost, never won, by extending. *)
Lemma bonus_extend (name : string) q w (n : Z) :
  0 ≤ n →
  0 ≤ (if includes name q then n else 0)
      - (if includes name (q +:+ " " +:+ w) then n else 0) ≤ n.
Proof.
  intros Hn. destruct (includes name (q +:+ " " +:+ w)) eqn:E.
  - apply includes_shorter in E. rewrite E. lia.
  - destruct (includes name q); lia.
Qed.

End QueryExtension.

(** C5, counterexample.  Under [java] the record "Learning Java Streams"
    (skill Java) scores 13 and outranks "Streams in Java" with 10.  The
    term [streams] matches it; under [java streams] it scores 20, having
    lost the skill bonus, and falls below the other record, whose title
    starts with the new term and which now scores 25. *)
Lemma query_extension_reorders :
  Search.score_of (Search.terms_of "java") "java" Spec.learning_java_streams = 13
  ∧ Search.score_of (Search.terms_of "java") "java" Spec.streams_in_java = 10
  ∧ includes (toLowerCase (Search.title Spec.learning_java_streams)) "streams" = true
  ∧ Search.score_of (Search.terms_of ("java" +:+ " " +:+ "streams"))
      ("java" +:+ " " +:+ "streams") Spec.learning_java_streams = 20
  ∧ Search.score_of (Search.terms_of ("java" +:+ " " +:+ "streams"))
      ("java" +:+ " " +:+ "streams") Spec.streams_in_java = 25
  ∧ map (λ r, Search.slug (Search.article r))
      (Search.search [Spec.learning_java_streams; Spec.streams_in_java] "java")
    = ["learning-java-streams"; "streams-in-java"]
  ∧ map (λ r, Search.slug (Search.article r))
      (Search.search [Spec.learning_java_streams; Spec.streams_in_java]
         ("java" +:+ " " +:+ "streams"))
    = ["streams-in-java"; "learning-java-streams"].
Proof. vm_compute. repeat split. Qed.

(** C5, amended.  Extending the query [q] to [q + ' ' + w] by a term [w]
    (non-empty, without whitespace) that the lowercased title of an
    article [a] contains raises the score of [a] by at least 5, and never
    lets it fall to or below the score of an article [b] that it outranked
    or tied with under [q] and whose title does not contain [w]. *)
Theorem search_score_monotone (q w : string) (a b : Search.FlatArticleRecord) :
  Boolean w = true → free_of is_space w = true →
  includes (toLowerCase (Search.title a)) w = true →
  Search.score_of (Search.terms_of q) q a + 5
  ≤ Search.score_of (Search.terms_of (q +:+ " " +:+ w)) (q +:+ " " +:+ w) a
  ∧ (includes (toLowerCase (Search.title b)) w = false →
     Search.score_of (Search.terms_of q) q b
     ≤ Search.score_of (Search.terms_of q) q a →
     Search.score_of (Search.terms_of (q +:+ " " +:+ w)) (q +:+ " " +:+ w) b
     < Search.score_of (Search.terms_of (q +:+ " " +:+ w)) (q +:+ " " +:+ w) a).
Proof.
  intros Bw Fw Ha.
  pose proof (score_of_extend q w a Bw Fw) as Ea. rewrite Ha in Ea.
  pose proof (bonus_extend (toLowerCase (Search.skill a)) q w 3 ltac:(lia)).
  pose proof (bonus_extend (toLowerCase (Search.topic a)) q w 2 ltac:(lia)).
  assert (Hgain : Search.score_of (Search.terms_of q) q a + 5
    ≤ Search.score_of (Search.terms_of (q +:+ " " +:+ w)) (q +:+ " " +:+ w) a).
  { destruct (startsWith (toLowerCase (Search.title a)) w); lia. }
  split; [exact Hgain|].
  intros Hb Hrank.
  pose proof (score_of_extend q w b Bw Fw) as Eb. rewrite Hb in Eb.
  pose proof (bonus_extend (toLowerCase (Search.skill b)) q w 3 ltac:(lia)).
  pose proof (bonus_extend (toLowerCase (Search.topic b)) q w 2 ltac:(lia)).
  lia.
Qed.

Lemma search_score_monotone_witness :
  Search.score_of (Search.terms_of ("java" +:+ " " +:+ "learning"))
    ("java" +:+ " " +:+ "learning") Spec.streams_in_java
  < Search.score_of (Search.terms_of ("java" +:+ " " +:+ "learning"))
      ("java" +:+ " " +:+ "learning") Spec.learning_java_streams.
Proof.
  apply (search_score_monotone "java" "learning"
           Spec.learning_java_streams Spec.streams_in_java);
    [reflexivity | reflexivity | reflexivity | reflexivity | vm_compute; discriminate].
Defined.

(** ** Markdown renderer *)

Section FrontmatterFacts.

Implicit Types (s sep before after line : string) (c : ascii)
  (meta : gmap string string).

Lemma cut_at_unfold sep s :
  MarkdownRenderer.cut_at sep s
  = if startsWith s sep then Some ("", slice_from (String.length sep) s)
    else match s with
         | EmptyString => None
         | String c s' =>
             match MarkdownRenderer.cut_at sep s' with
             | Some (before, after) => Some (String c before, after)
             | None => None
             end
         end.
Proof. destruct s; reflexivity. Qed.

Lemma startsWith_slice s sep :
  startsWith s sep = true → s = sep +:+ slice_from (String.length sep) s.
Proof.
  intros [r ->]%startsWith_spec. now rewrite slice_from_app.
Qed.

(** What [cut_at] returns is a cut of [s] around [sep]. *)
Lemma cut_at_sound sep s before after :
  MarkdownRenderer.cut_at sep s = Some (before, after) →
  s = before +:+ sep +:+ after.
Proof.
  revert before. induction s as [|c s IH]; intros before;
    rewrite cut_at_unfold.
  - destruct (startsWith "" sep) eqn:E; [|discriminate].
    intros [= <- <-]. rewrite append_nil. now apply startsWith_slice.
  - destruct (startsWith (String c s) sep) eqn:E.
    + intros [= <- <-]. rewrite append_nil. now apply startsWith_slice.
    + destruct (MarkdownRenderer.cut_at sep s) as [[b a]|]; [|discriminate].
      intros [= <- <-]. rewrite append_cons. f_equal. now apply IH.
Qed.

(** It is the first one: no cut has a shorter first part. *)
Lemma cut_at_first sep s before after before' after' :
  MarkdownRenderer.cut_at sep s = Some (before, after) →
  s = before' +:+ sep +:+ after' →
  (String.length before ≤ String.length before')%nat.
Proof.
  revert before before'. induction s as [|c s IH]; intros before before';
    rewrite cut_at_unfold.
  - destruct (startsWith "" sep); [|discriminate].
    intros [= <- <-] _. simpl. lia.
  - destruct (startsWith (String c s) sep) eqn:E.
    + intros [= <- <-] _. simpl. lia.
    + destruct (MarkdownRenderer.cut_at sep s) as [[b a]|] eqn:Ec; [|discriminate].
      intros [= <- <-] Hs. destruct before' as [|c' b'].
      * rewrite append_nil in Hs. rewrite Hs, startsWith_app in E. discriminate.
      * rewrite append_cons in Hs. injection Hs as -> Hs.
        simpl. apply le_n_S. now apply (IH b b').
Qed.

(** Whenever [s] can be cut, [cut_at] cuts it. *)
Lemma cut_at_complete sep s before after :
  s = before +:+ sep +:+ after → is_Some (MarkdownRenderer.cut_at sep s).
Proof.
  revert s. induction before as [|c b IH]; intros s ->; rewrite cut_at_unfold.
  - rewrite append_nil, startsWith_app. eauto.
  - destruct (startsWith _ sep); [eauto|]. rewrite append_cons.
    destruct (IH _ eq_refl) as [[b' a'] ->]. eauto.
Qed.

Lemma match_frontmatter_sound markdown frontmatter content :
  MarkdownRenderer.match_frontmatter markdown = Some (frontmatter, content) →
  markdown = ("---" +:+ MarkdownRenderer.newline) +:+ frontmatter
             +:+ (MarkdownRenderer.newline +:+ "---" +:+ MarkdownRenderer.newline)
             +:+ content.
Proof.
  unfold MarkdownRenderer.match_frontmatter.
  destruct (startsWith markdown _) eqn:E; [|discriminate].
  apply startsWith_spec in E as [r ->].
  change 4%nat with (String.length ("---" +:+ MarkdownRenderer.newline)).
  rewrite slice_from_app. intros H%cut_at_sound. now rewrite H.
Qed.

Lemma match_frontmatter_complete frontmatter content :
  is_Some (MarkdownRenderer.match_frontmatter
             (("---" +:+ MarkdownRenderer.newline) +:+ frontmatter
              +:+ (MarkdownRenderer.newline +:+ "---" +:+ MarkdownRenderer.newline)
              +:+ content)).
Proof.
  unfold MarkdownRenderer.match_frontmatter. rewrite startsWith_app.
  change 4%nat with (String.length ("---" +:+ MarkdownRenderer.newline)).
  rewrite slice_from_app. now eapply cut_at_complete.
Qed.

(** [indexOf] finds the first occurrence: the line falls into what
    precedes it, the character, and what follows it. *)
Lemma indexOf_first line c :
  0 ≤ indexOf line c →
  line = slice_to (Z.to_nat (indexOf line c)) line
         +:+ String c (slice_from (Z.to_nat (indexOf line c + 1)) line)
  ∧ free_of (λ x, Ascii.eqb x c) (slice_to (Z.to_nat (indexOf line c)) line) = true
  ∧ String.length (slice_to (Z.to_nat (indexOf line c)) line)
    = Z.to_nat (indexOf line c).
Proof.
  induction line as [|a l IH]; simpl; [lia|].
  destruct (Ascii.eqb_spec a c) as [->|Hac].
  - intros _. simpl. now rewrite append_nil.
  - destruct (Z.ltb_spec (indexOf l c) 0); [lia|]. intros _.
    destruct IH as (Hl & Hfree & Hlen); [lia|].
    replace (Z.to_nat (indexOf l c + 1 + 1)) with (S (Z.to_nat (indexOf l c + 1))) by lia.
    replace (Z.to_nat (indexOf l c + 1)) with (S (Z.to_nat (indexOf l c))) at 1 3 4 by lia.
    simpl. rewrite append_cons, <- Hl, Hfree, Hlen.
    apply Ascii.eqb_neq in Hac. rewrite Hac.
    repeat split. lia.
Qed.

Lemma parse_line_entry meta line key value :
  MarkdownRenderer.parse_line meta line !! key = Some value →
  meta !! key = Some value ∨ Spec.entry_from [line] key value.
Proof.
  unfold MarkdownRenderer.parse_line, MarkdownRenderer.assign.
  destruct (Z.ltb_spec 0 (indexOf line ":")) as [Hi|]; [|auto].
  case_bool_decide; [auto|].
  destruct (decide (trim (slice_to (Z.to_nat (indexOf line ":")) line) = key))
    as [<-|Hne].
  - rewrite lookup_insert_eq. intros [= <-]. right.
    destruct (indexOf_first line ":"%char) as (Hl & Hfree & Hlen); [lia|].
    eexists line, _, _. split; [apply list_elem_of_here|].
    split; [exact Hl|]. repeat split; [|assumption].
    intros Hempty. rewrite Hempty in Hlen. simpl in Hlen. lia.
  - rewrite lookup_insert_ne by assumption. auto.
Qed.

Lemma parse_lines_entry lines meta key value :
  fold_left MarkdownRenderer.parse_line lines meta !! key = Some value →
  meta !! key = Some value ∨ Spec.entry_from lines key value.
Proof.
  revert meta. induction lines as [|line lines IH]; intros meta; simpl; [auto|].
  intros [H|(l & rk & rv & Hin & H)]%IH.
  - apply parse_line_entry in H as [H|(l & rk & rv & Hin & H)]; [auto|].
    right. exists l, rk, rv. split; [|exact H].
    apply list_elem_of_singleton in Hin as ->. apply list_elem_of_here.
  - right. exists l, rk, rv. split; [now apply list_elem_of_further | exact H].
Qed.

End FrontmatterFacts.

Section FrontmatterEntries.

Implicit Types (line key value raw_key raw_value : string)
  (meta : gmap string string).

Lemma slice_to_app s t : slice_to (String.length s) (s +:+ t) = s.
Proof.
  induction s as [|c s IH]; [now destruct t|].
  rewrite append_cons. simpl. now rewrite IH.
Qed.

Lemma indexOf_app raw_key raw_value (c : ascii) :
  free_of (λ x, Ascii.eqb x c) raw_key = true →
  indexOf (raw_key +:+ String c raw_value) c = Z.of_nat (String.length raw_key).
Proof.
  induction raw_key as [|a k IH]; rewrite ?append_nil, ?append_cons; simpl.
  - intros _. now rewrite Ascii.eqb_refl.
  - rewrite andb_true_iff, negb_true_iff. intros [Ha Hk].
    rewrite Ha, IH by assumption.
    destruct (Z.ltb_spec (Z.of_nat (String.length k)) 0); lia.
Qed.

(** A line with a colon after a non-empty key text is an assignment. *)
Lemma parse_line_assigns meta raw_key raw_value :
  raw_key ≠ "" → free_of (λ x, Ascii.eqb x ":"%char) raw_key = true →
  MarkdownRenderer.parse_line meta (raw_key +:+ ":" +:+ raw_value)
  = MarkdownRenderer.assign (trim raw_key) (trim raw_value) meta.
Proof.
  intros Hne Hfree. unfold MarkdownRenderer.parse_line.
  change (":" +:+ raw_value) with (String ":"%char raw_value).
  rewrite indexOf_app by assumption.
  destruct (Z.ltb_spec 0 (Z.of_nat (String.length raw_key))) as [_|Hlen].
  - rewrite Nat2Z.id.
    replace (Z.to_nat (Z.of_nat (String.length raw_key) + 1))
      with (String.length (raw_key +:+ ":")).
    + rewrite slice_to_app.
      change (String ":"%char raw_value) with (":" +:+ raw_value).
      rewrite <- app_assoc_str, slice_from_app. reflexivity.
    + clear. induction raw_key as [|a k IH]; [reflexivity|].
      rewrite append_cons. simpl String.length. rewrite IH. lia.
  - destruct raw_key; [congruence | simpl in Hlen; lia].
Qed.

Lemma parse_line_keeps meta line key :
  is_Some (meta !! key) → is_Some (MarkdownRenderer.parse_line meta line !! key).
Proof.
  intros H. unfold MarkdownRenderer.parse_line, MarkdownRenderer.assign.
  destruct (0 <? indexOf line ":"); [|assumption].
  case_bool_decide; [assumption|].
  rewrite lookup_insert. case_decide; [eauto | assumption].
Qed.

Lemma parse_lines_keeps lines meta key :
  is_Some (meta !! key) →
  is_Some (fold_left MarkdownRenderer.parse_line lines meta !! key).
Proof.
  revert meta. induction lines as [|l lines IH]; intros meta H; simpl; [assumption|].
  now apply IH, parse_line_keeps.
Qed.

(** Every such line leaves its key in the meta object. *)
Lemma parse_lines_records lines meta raw_key raw_value :
  (raw_key +:+ ":" +:+ raw_value) ∈ lines →
  raw_key ≠ "" → free_of (λ x, Ascii.eqb x ":"%char) raw_key = true →
  trim raw_key ≠ "__proto__" →
  is_Some (fold_left MarkdownRenderer.parse_line lines meta !! trim raw_key).
Proof.
  intros Hin Hne Hfree Hproto. revert meta.
  induction lines as [|l lines IH]; intros meta; [now apply elem_of_nil in Hin|].
  simpl. apply elem_of_cons in Hin as [<-|Hin]; [|now apply IH].
  apply parse_lines_keeps. rewrite parse_line_assigns by assumption.
  unfold MarkdownRenderer.assign. rewrite bool_decide_eq_false_2 by assumption.
  rewrite lookup_insert_eq. eauto.
Qed.

End FrontmatterEntries.

(** C8, counterexample.  The quotes around a value stay: the document
    whose front matter has the line [title: 'User Management'] yields the
    title with its quotes, not the quote-stripped one. *)
Lemma parseFrontmatter_keeps_quotes :
  (MarkdownRenderer.parseFrontmatter Spec.quoted_document).1 !! "title"
  = Some "'User Management'"
  ∧ Spec.unquote (trim " 'User Management'") = "User Management"
  ∧ (MarkdownRenderer.parseFrontmatter Spec.quoted_document).1 !! "title"
    ≠ Some (Spec.unquote (trim " 'User Management'")).
Proof. vm_compute. repeat split. discriminate. Qed.

(** C8, amended.  On a document that opens with a block between
    triple-dash lines, [parseFrontmatter] takes the block up to the first
    closing line and returns flat string metadata: every entry comes from
    a line of the block with a colon after a non-empty key text, its key
    the whitespace-trimmed text before the first colon and its value the
    whitespace-trimmed text after it, nothing else done to either (quotes
    stay); every such line leaves its key in the metadata; the content is
    the text after the closing line.  On a document with no such block it
    returns empty metadata and the full document. *)
Theorem parseFrontmatter_flat (markdown : string) :
  (∀ block rest,
     markdown = ("---" +:+ MarkdownRenderer.newline) +:+ block
                +:+ (MarkdownRenderer.newline +:+ "---" +:+ MarkdownRenderer.newline)
                +:+ rest →
     ∃ frontmatter content,
       markdown = ("---" +:+ MarkdownRenderer.newline) +:+ frontmatter
                  +:+ (MarkdownRenderer.newline +:+ "---" +:+ MarkdownRenderer.newline)
                  +:+ content
       ∧ (String.length frontmatter ≤ String.length block)%nat
       ∧ (MarkdownRenderer.parseFrontmatter markdown).2 = content
       ∧ (∀ key value,
            (MarkdownRenderer.parseFrontmatter markdown).1 !! key = Some value →
            Spec.entry_from (split MarkdownRenderer.newline_char frontmatter)
              key value)
       ∧ (∀ raw_key raw_value,
            (raw_key +:+ ":" +:+ raw_value)
              ∈ split MarkdownRenderer.newline_char frontmatter →
            raw_key ≠ "" →
            free_of (λ x, Ascii.eqb x ":"%char) raw_key = true →
            trim raw_key ≠ "__proto__" →
            is_Some ((MarkdownRenderer.parseFrontmatter markdown).1 !! trim raw_key)))
  ∧ ((¬ ∃ block rest,
        markdown = ("---" +:+ MarkdownRenderer.newline) +:+ block
                   +:+ (MarkdownRenderer.newline +:+ "---" +:+ MarkdownRenderer.newline)
                   +:+ rest) →
     MarkdownRenderer.parseFrontmatter markdown = (∅, markdown)).
Proof.
  split.
  - intros block rest Hmd.
    destruct (match_frontmatter_complete block rest) as [[fm content] Hm].
    rewrite <- Hmd in Hm.
    exists fm, content. split; [now apply match_frontmatter_sound|].
    split.
    { unfold MarkdownRenderer.match_frontmatter in Hm.
      destruct (startsWith markdown _); [|discriminate].
      eapply cut_at_first; [exact Hm|].
      rewrite Hmd.
      change 4%nat with (String.length ("---" +:+ MarkdownRenderer.newline)).
      now rewrite slice_from_app. }
    unfold MarkdownRenderer.parseFrontmatter. rewrite Hm. simpl.
    split; [reflexivity|]. split.
    + intros key value [H|H]%parse_lines_entry; [|exact H].
      now rewrite lookup_empty in H.
    + intros raw_key raw_value. apply parse_lines_records.
  - intros Hno. unfold MarkdownRenderer.parseFrontmatter.
    destruct (MarkdownRenderer.match_frontmatter markdown) as [[fm content]|] eqn:Hm;
      [|reflexivity].
    exfalso. apply Hno. exists fm, content. now apply match_frontmatter_sound.
Qed.

Lemma parseFrontmatter_flat_witness :
  (∃ frontmatter content,
     Spec.quoted_document
     = ("---" +:+ MarkdownRenderer.newline) +:+ frontmatter
       +:+ (MarkdownRenderer.newline +:+ "---" +:+ MarkdownRenderer.newline)
       +:+ content
     ∧ (String.length frontmatter ≤ 41)%nat
     ∧ (MarkdownRenderer.parseFrontmatter Spec.quoted_document).2 = content
     ∧ (∀ key value,
          (MarkdownRenderer.parseFrontmatter Spec.quoted_document).1 !! key
          = Some value →
          Spec.entry_from (split MarkdownRenderer.newline_char frontmatter)
            key value)
     ∧ (∀ raw_key raw_value,
          (raw_key +:+ ":" +:+ raw_value)
            ∈ split MarkdownRenderer.newline_char frontmatter →
          raw_key ≠ "" →
          free_of (λ x, Ascii.eqb x ":"%char) raw_key = true →
          trim raw_key ≠ "__proto__" →
          is_Some ((MarkdownRenderer.parseFrontmatter Spec.quoted_document).1
                     !! trim raw_key)))
  ∧ MarkdownRenderer.parseFrontmatter "# Welcome" = (∅, "# Welcome").
Proof.
  split.
  - apply (proj1 (parseFrontmatter_flat Spec.quoted_document)
             ("title: 'User Management'" +:+ MarkdownRenderer.newline
              +:+ "date: 2024-12-28")
             ("# User Management" +:+ MarkdownRenderer.newline)).
    reflexivity.
  - apply (proj2 (parseFrontmatter_flat "# Welcome")).
    intros (block & rest & H). discriminate H.
Defined.

Example parseFrontmatter_sample :
  map_to_list (MarkdownRenderer.parseFrontmatter
    ("---" +:+ MarkdownRenderer.newline
     +:+ "title: Apex Programming Basics" +:+ MarkdownRenderer.newline
     +:+ "date: 2024-12-28" +:+ MarkdownRenderer.newline
     +:+ "---" +:+ MarkdownRenderer.newline
     +:+ MarkdownRenderer.newline +:+ "# Apex Programming Basics")).1
  ≡ₚ [("title", "Apex Programming Basics"); ("date", "2024-12-28")]
  ∧ (MarkdownRenderer.parseFrontmatter
    ("---" +:+ MarkdownRenderer.newline
     +:+ "title: Apex Programming Basics" +:+ MarkdownRenderer.newline
     +:+ "date: 2024-12-28" +:+ MarkdownRenderer.newline
     +:+ "---" +:+ MarkdownRenderer.newline
     +:+ MarkdownRenderer.newline +:+ "# Apex Programming Basics")).2
    = MarkdownRenderer.newline +:+ "# Apex Programming Basics".
Proof. split; vm_compute; reflexivity. Qed.

Section LoadFacts.

Context (lib : MarkdownRenderer.Libraries) {NavState : Type}.

Implicit Types (pg : MarkdownRenderer.Page NavState)
  (outcome : MarkdownRenderer.FetchOutcome).

(** Showing a view and firing the callback leave the router and the
    navigation alone, and the renderer's own path too. *)
Lemma fire_onRender_frame contentElement pg :
  MarkdownRenderer.currentRoute (MarkdownRenderer.fire_onRender contentElement pg)
  = MarkdownRenderer.currentRoute pg
  ∧ MarkdownRenderer.navigation (MarkdownRenderer.fire_onRender contentElement pg)
    = MarkdownRenderer.navigation pg
  ∧ MarkdownRenderer.markdown (MarkdownRenderer.fire_onRender contentElement pg)
    = MarkdownRenderer.markdown pg.
Proof.
  unfold MarkdownRenderer.fire_onRender.
  destruct (MarkdownRenderer.onRender (MarkdownRenderer.markdown pg)); auto.
Qed.

(** The resumed [load] always completes normally, on a page that shows
    what [settled_view] says and differs from the page before in the
    container and the table of contents only. *)
Lemma load_resume_normal (path : string) outcome pg :
  ∃ pg',
    MarkdownRenderer.load_resume lib path outcome pg = MarkdownRenderer.Normal pg'
    ∧ MarkdownRenderer.container (MarkdownRenderer.markdown pg')
      = Spec.settled_view lib outcome
    ∧ MarkdownRenderer.currentPath (MarkdownRenderer.markdown pg')
      = MarkdownRenderer.currentPath (MarkdownRenderer.markdown pg)
    ∧ MarkdownRenderer.currentRoute pg' = MarkdownRenderer.currentRoute pg
    ∧ MarkdownRenderer.navigation pg' = MarkdownRenderer.navigation pg.
Proof.
  unfold MarkdownRenderer.load_resume, Spec.settled_view, mbind,
    MarkdownRenderer.completion_bind.
  assert (Herr : ∃ pg',
    MarkdownRenderer.Normal (MarkdownRenderer.renderError pg)
      = MarkdownRenderer.Normal pg'
    ∧ MarkdownRenderer.container (MarkdownRenderer.markdown pg')
      = MarkdownRenderer.ErrorPlaceholder
    ∧ MarkdownRenderer.currentPath (MarkdownRenderer.markdown pg')
      = MarkdownRenderer.currentPath (MarkdownRenderer.markdown pg)
    ∧ MarkdownRenderer.currentRoute pg' = MarkdownRenderer.currentRoute pg
    ∧ MarkdownRenderer.navigation pg' = MarkdownRenderer.navigation pg).
  { eexists. split; [reflexivity|]. unfold MarkdownRenderer.renderError.
    destruct (fire_onRender_frame None
                (MarkdownRenderer.show MarkdownRenderer.ErrorPlaceholder pg))
      as (-> & -> & ->). auto. }
  destruct outcome as [reason|status [markdown|error]]; simpl; [exact Herr| |].
  - destruct (MarkdownRenderer.ok status); simpl; [|exact Herr].
    destruct (MarkdownRenderer.parseFrontmatter markdown) as [meta content].
    unfold MarkdownRenderer.render, mbind, MarkdownRenderer.completion_bind.
    destruct (MarkdownRenderer.marked_parse lib content) as [rawHtml|error];
      simpl; [|exact Herr].
    destruct (MarkdownRenderer.highlight lib _) as [contentDiv|error];
      simpl; [|exact Herr].
    eexists. split; [reflexivity|].
    match goal with
    | |- context [MarkdownRenderer.fire_onRender ?c ?p] =>
        destruct (fire_onRender_frame c p) as (-> & -> & ->)
    end. auto.
  - destruct (MarkdownRenderer.ok status); simpl; exact Herr.
Qed.

Lemma settled_view_failed outcome :
  Spec.fetch_failed outcome = true →
  Spec.settled_view lib outcome = MarkdownRenderer.ErrorPlaceholder.
Proof.
  destruct outcome as [reason|status [markdown|error]]; simpl; try reflexivity.
  now intros ->%negb_true_iff.
Qed.

End LoadFacts.

(** C7.  [load(path)] never hands an exception to its caller: whatever the
    path and however the fetch settles, the promise it returns is
    fulfilled.  When the fetch fails, by the network or by a status that
    is not a success, the renderer's own container shows the error
    placeholder; and the router's current route and the navigation state
    are what they were. *)
Theorem load_never_throws (lib : MarkdownRenderer.Libraries) (NavState : Type)
    (path : option string) (outcome : MarkdownRenderer.FetchOutcome)
    (pg : MarkdownRenderer.Page NavState) :
  ∃ pg',
    MarkdownRenderer.load lib path outcome pg = MarkdownRenderer.Normal pg'
    ∧ MarkdownRenderer.currentRoute pg' = MarkdownRenderer.currentRoute pg
    ∧ MarkdownRenderer.navigation pg' = MarkdownRenderer.navigation pg
    ∧ (truthy path = true → Spec.fetch_failed outcome = true →
       MarkdownRenderer.container (MarkdownRenderer.markdown pg')
       = MarkdownRenderer.ErrorPlaceholder).
Proof.
  unfold MarkdownRenderer.load, MarkdownRenderer.load_begin.
  destruct (truthy path) eqn:Hp; simpl.
  - destruct path as [p|]; [|discriminate].
    match goal with
    | |- context [MarkdownRenderer.load_resume lib p outcome ?q] =>
        destruct (load_resume_normal lib p outcome q)
          as (pg' & Hload & Hview & _ & Hroute & Hnav)
    end.
    exists pg'. split; [exact Hload|]. split; [exact Hroute|].
    split; [exact Hnav|].
    intros _ Hfail. now rewrite Hview, settled_view_failed.
  - eexists. split; [reflexivity|]. unfold MarkdownRenderer.renderWelcome.
    destruct (fire_onRender_frame None
                (MarkdownRenderer.show MarkdownRenderer.Welcome pg))
      as (-> & -> & _).
    repeat split. discriminate.
Qed.

Lemma load_never_throws_witness :
  ∃ pg',
    MarkdownRenderer.load Spec.plain_libraries
      (Some "content/Salesforce/Admin/missing.md")
      (MarkdownRenderer.Response 404 (MarkdownRenderer.Normal "Not Found"))
      Spec.fresh_page
    = MarkdownRenderer.Normal pg'
    ∧ MarkdownRenderer.container (MarkdownRenderer.markdown pg')
      = MarkdownRenderer.ErrorPlaceholder.
Proof.
  destruct (load_never_throws Spec.plain_libraries unit
              (Some "content/Salesforce/Admin/missing.md")
              (MarkdownRenderer.Response 404 (MarkdownRenderer.Normal "Not Found"))
              Spec.fresh_page) as (pg' & Hload & _ & _ & Hview).
  exists pg'. split; [exact Hload|]. apply Hview; reflexivity.
Defined.

Example load_renders_article :
  MarkdownRenderer.container (MarkdownRenderer.markdown (MarkdownRenderer.page
    (MarkdownRenderer.run Spec.plain_libraries Spec.fresh_browser
       [ MarkdownRenderer.CallLoad (Some "content/Frontend/JavaScript/async-await.md");
         MarkdownRenderer.FetchSettles 0
           (MarkdownRenderer.Response 200
              (MarkdownRenderer.Normal "Async/Await in JavaScript")) ])))
  = MarkdownRenderer.ArticleView None
      (Dom.Element "div" "" [Dom.Text "Async/Await in JavaScript"]).
Proof. vm_compute. reflexivity. Qed.

(** C6, counterexample.  Two loads overlap and the fetch of the first
    settles after the fetch of the second.  When the second has settled
    the container shows its article; the late completion of the first
    then replaces it, although [currentPath] names the second load. *)
Lemma stale_fetch_overwrites :
  MarkdownRenderer.container (MarkdownRenderer.markdown (MarkdownRenderer.page
    (MarkdownRenderer.run Spec.plain_libraries Spec.fresh_browser
       (take 3 Spec.overlapping_loads))))
  = MarkdownRenderer.ArticleView None
      (Dom.Element "div" "" [Dom.Text "Apex Programming Basics"])
  ∧ MarkdownRenderer.currentPath (MarkdownRenderer.markdown (MarkdownRenderer.page
      (MarkdownRenderer.run Spec.plain_libraries Spec.fresh_browser
         Spec.overlapping_loads)))
    = Some "content/Salesforce/Developer/apex-basics.md"
  ∧ MarkdownRenderer.container (MarkdownRenderer.markdown (MarkdownRenderer.page
      (MarkdownRenderer.run Spec.plain_libraries Spec.fresh_browser
         Spec.overlapping_loads)))
    = MarkdownRenderer.ArticleView None
        (Dom.Element "div" "" [Dom.Text "User Management"]).
Proof. vm_compute. repeat split. Qed.

(** C6, amended.  A load that starts records its path in [currentPath],
    shows the loading state and leaves its fetch in flight.  When a fetch
    in flight settles, the renderer applies it whichever load was started
    last: the container shows the outcome of the fetch that settled most
    recently (last completion wins), and [currentPath], which still names
    the load started last, is not consulted. *)
Theorem settled_fetch_is_applied (lib : MarkdownRenderer.Libraries)
    (NavState : Type) (b : MarkdownRenderer.Browser (NavState := NavState))
    (fetch : nat) (path : string) (outcome : MarkdownRenderer.FetchOutcome) :
  (Boolean path = true →
   MarkdownRenderer.currentPath (MarkdownRenderer.markdown (MarkdownRenderer.page
     (MarkdownRenderer.step lib b (MarkdownRenderer.CallLoad (Some path)))))
   = Some path
   ∧ MarkdownRenderer.container (MarkdownRenderer.markdown (MarkdownRenderer.page
       (MarkdownRenderer.step lib b (MarkdownRenderer.CallLoad (Some path)))))
     = MarkdownRenderer.Loading
   ∧ MarkdownRenderer.inflight
       (MarkdownRenderer.step lib b (MarkdownRenderer.CallLoad (Some path)))
       !! MarkdownRenderer.fetches b = Some path)
  ∧ (MarkdownRenderer.inflight b !! fetch = Some path →
     MarkdownRenderer.container (MarkdownRenderer.markdown (MarkdownRenderer.page
       (MarkdownRenderer.step lib b (MarkdownRenderer.FetchSettles fetch outcome))))
     = Spec.settled_view lib outcome
     ∧ MarkdownRenderer.currentPath (MarkdownRenderer.markdown (MarkdownRenderer.page
         (MarkdownRenderer.step lib b (MarkdownRenderer.FetchSettles fetch outcome))))
       = MarkdownRenderer.currentPath
           (MarkdownRenderer.markdown (MarkdownRenderer.page b))
     ∧ MarkdownRenderer.inflight
         (MarkdownRenderer.step lib b (MarkdownRenderer.FetchSettles fetch outcome))
         !! fetch = None).
Proof.
  split.
  - intros Hp. unfold MarkdownRenderer.step, MarkdownRenderer.load_begin.
    simpl. rewrite Hp. simpl. repeat split. apply lookup_insert_eq.
  - intros Hin. unfold MarkdownRenderer.step. rewrite Hin. simpl.
    destruct (load_resume_normal lib path outcome (MarkdownRenderer.page b))
      as (pg' & -> & Hview & Hpath & _).
    repeat split; [exact Hview | exact Hpath | apply lookup_delete_eq].
Qed.

Lemma settled_fetch_is_applied_witness :
  MarkdownRenderer.container (MarkdownRenderer.markdown (MarkdownRenderer.page
    (MarkdownRenderer.step Spec.plain_libraries
       (MarkdownRenderer.run Spec.plain_libraries Spec.fresh_browser
          (take 3 Spec.overlapping_loads))
       (MarkdownRenderer.FetchSettles 0
          (MarkdownRenderer.Response 200 (MarkdownRenderer.Normal "User Management"))))))
  = Spec.settled_view Spec.plain_libraries
      (MarkdownRenderer.Response 200 (MarkdownRenderer.Normal "User Management")).
Proof.
  apply (proj2 (settled_fetch_is_applied Spec.plain_libraries unit
                  (MarkdownRenderer.run Spec.plain_libraries Spec.fresh_browser
                     (take 3 Spec.overlapping_loads))
                  0%nat "content/Salesforce/Admin/user-management.md"
                  (MarkdownRenderer.Response 200
                     (MarkdownRenderer.Normal "User Management")))).
  vm_compute. reflexivity.
Defined.

(** ** Table of contents *)

Lemma handleScroll_fields (st : TableOfContents.State) :
  TableOfContents.container (TableOfContents.handleScroll st)
  = TableOfContents.container st
  ∧ TableOfContents.headings (TableOfContents.handleScroll st)
    = TableOfContents.headings st
  ∧ TableOfContents.links (TableOfContents.handleScroll st)
    = TableOfContents.links st
  ∧ TableOfContents.activeIndex (TableOfContents.handleScroll st)
    = TableOfContents.activeIndex st.
Proof.
  unfold TableOfContents.handleScroll. case_bool_decide; auto.
Qed.

(** [generate] reads nothing of the state it is given but the pending
    animation frame. *)
Lemma generate_reads_frames_only (contentElement : option Dom.Node)
    (st st' : TableOfContents.State) :
  TableOfContents.scrollTimeout st' = TableOfContents.scrollTimeout st →
  TableOfContents.frames st' = TableOfContents.frames st →
  TableOfContents.generate contentElement st'
  = TableOfContents.generate contentElement st.
Proof.
  intros Ht Hf. unfold TableOfContents.generate. now rewrite Ht, Hf.
Qed.

Lemma generate_fields (contentElement : option Dom.Node)
    (st : TableOfContents.State) :
  TableOfContents.headings (TableOfContents.generate contentElement st)
  = imap TableOfContents.heading_entry (Spec.content_headings contentElement)
  ∧ TableOfContents.links (TableOfContents.generate contentElement st)
    = imap TableOfContents.heading_link (Spec.content_headings contentElement)
  ∧ TableOfContents.activeIndex (TableOfContents.generate contentElement st) = -1
  ∧ TableOfContents.container (TableOfContents.generate contentElement st)
    = match Spec.content_headings contentElement with
      | [] => TableOfContents.EmptyState
      | _ => TableOfContents.TocList
               (imap TableOfContents.heading_link
                  (Spec.content_headings contentElement))
      end.
Proof.
  unfold TableOfContents.generate.
  destruct contentElement as [root|]; simpl; [|auto].
  case_bool_decide as Hh.
  - rewrite Hh. simpl. auto.
  - match goal with
    | |- context [TableOfContents.handleScroll ?s] =>
        destruct (handleScroll_fields s) as (-> & -> & -> & ->)
    end. simpl.
    destruct (Dom.querySelectorAll_headings root); [congruence | auto].
Qed.

(** C9.  Every call of [generate] discards the state of the table of
    contents before it looks at the new content: the headings, the anchors,
    the active index and the container it leaves are those of the new
    content alone, the same whatever they were before.  For content
    without heading elements of levels 1 to 4 it shows the empty state and
    leaves the heading list and the anchor list empty. *)
Theorem generate_discards_prior (contentElement : option Dom.Node)
    (st : TableOfContents.State) :
  (∀ st',
     TableOfContents.scrollTimeout st' = TableOfContents.scrollTimeout st →
     TableOfContents.frames st' = TableOfContents.frames st →
     TableOfContents.generate contentElement st'
     = TableOfContents.generate contentElement st)
  ∧ TableOfContents.headings (TableOfContents.generate contentElement st)
    = imap TableOfContents.heading_entry (Spec.content_headings contentElement)
  ∧ TableOfContents.links (TableOfContents.generate contentElement st)
    = imap TableOfContents.heading_link (Spec.content_headings contentElement)
  ∧ TableOfContents.activeIndex (TableOfContents.generate contentElement st) = -1
  ∧ (Spec.content_headings contentElement = [] →
     TableOfContents.container (TableOfContents.generate contentElement st)
     = TableOfContents.EmptyState
     ∧ TableOfContents.headings (TableOfContents.generate contentElement st) = []
     ∧ TableOfContents.links (TableOfContents.generate contentElement st) = []).
Proof.
  destruct (generate_fields contentElement st) as (Hh & Hl & Ha & Hc).
  split; [intros st'; apply generate_reads_frames_only|].
  repeat (split; [assumption|]).
  intros Hnone. rewrite Hh, Hl, Hc, Hnone. auto.
Qed.

Lemma generate_discards_prior_witness :
  TableOfContents.container
    (TableOfContents.generate (Some Spec.article_without_headings)
       (TableOfContents.generate (Some Spec.article_with_headings)
          TableOfContents.initial))
  = TableOfContents.EmptyState
  ∧ TableOfContents.headings
      (TableOfContents.generate (Some Spec.article_without_headings)
         (TableOfContents.generate (Some Spec.article_with_headings)
            TableOfContents.initial)) = []
  ∧ TableOfContents.links
      (TableOfContents.generate (Some Spec.article_without_headings)
         (TableOfContents.generate (Some Spec.article_with_headings)
            TableOfContents.initial)) = [].
Proof.
  apply (generate_discards_prior (Some Spec.article_without_headings)
           (TableOfContents.generate (Some Spec.article_with_headings)
              TableOfContents.initial)).
  reflexivity.
Defined.

Example generate_sample :
  map (λ h, (TableOfContents.id h, TableOfContents.level h))
    (TableOfContents.headings
       (TableOfContents.generate (Some Spec.article_with_headings)
          TableOfContents.initial))
  = [("apex-programming-basics", 1); ("what-is-apex", 2); ("heading-2", 3)]
  ∧ map TableOfContents.href
      (TableOfContents.links
         (TableOfContents.generate (Some Spec.article_with_headings)
            TableOfContents.initial))
    = ["#apex-programming-basics"; "#what-is-apex"; "#heading-2"]
  ∧ map TableOfContents.className
      (TableOfContents.links
         (TableOfContents.generate (Some Spec.article_with_headings)
            TableOfContents.initial))
    = ["toc-link toc-h1"; "toc-link toc-h2"; "toc-link toc-h3"].
Proof. vm_compute. repeat split. Qed.

(** The error screen and the welcome screen pass [null]: the table of
    contents of the article shown before is gone. *)
Example renderError_resets_toc :
  TableOfContents.container (MarkdownRenderer.toc (MarkdownRenderer.page
    (MarkdownRenderer.run Spec.plain_libraries Spec.fresh_browser
       [ MarkdownRenderer.CallLoad (Some "content/Salesforce/Admin/missing.md");
         MarkdownRenderer.FetchSettles 0
           (MarkdownRenderer.NetworkFailure "Failed to fetch") ])))
  = TableOfContents.EmptyState.
Proof. vm_compute. reflexivity. Qed.

(** * Further properties of the scripts *)

(** ** Router: partial paths, the path helper, the active predicates *)

Section RouterMore.

Implicit Types (s t a : string) (l : list string).

Lemma split_join (sep : ascii) l :
  l ≠ [] → Forall (λ s, free_of (λ c, Ascii.eqb c sep) s = true) l →
  split sep (join (String sep "") l) = l.
Proof.
  induction l as [|p l IH]; [congruence|]. intros _ Hl.
  apply Forall_cons in Hl as [Hp Hl].
  destruct l as [|q l]; [now apply split_whole|].
  change (join (String sep "") (p :: q :: l))
    with (p +:+ String sep "" +:+ join (String sep "") (q :: l)).
  rewrite append_cons, append_nil, split_piece by assumption.
  f_equal. now apply IH.
Qed.

Lemma filter_Boolean_id l :
  Forall (λ s, Boolean s = true) l → List.filter Boolean l = l.
Proof.
  induction 1 as [|x l Hx _ IH]; simpl; [reflexivity|]. now rewrite Hx, IH.
Qed.

Lemma join_plain l :
  Forall (λ s, Spec.part_safe s = true) l →
  free_of Router.fragment_encoded (join "/" l) = true.
Proof.
  induction 1 as [|p l Hp Hl IH]; [reflexivity|].
  apply part_safe_inv in Hp as [_ Hp].
  destruct l as [|q l]; [exact Hp|].
  change (join "/" (p :: q :: l)) with (p +:+ "/" +:+ join "/" (q :: l)).
  now rewrite !free_of_app, Hp, IH.
Qed.

(** Parsing the fragment that [navigate] leaves for the joined parts. *)
Lemma parseHash_navigate_join l :
  Forall (λ s, Boolean s = true) l →
  Forall (λ s, Spec.part_safe s = true) l →
  Router.parts (Router.parseHash (Router.navigate (join "/" ("" :: l)))) = l.
Proof.
  intros Hb Hf. destruct l as [|p l]; [reflexivity|].
  change (join "/" ("" :: p :: l)) with ("" +:+ "/" +:+ join "/" (p :: l)).
  rewrite append_nil, append_cons, append_nil.
  rewrite navigate_plain by now apply join_plain.
  set (y := join "/" (p :: l)).
  unfold Router.parseHash. simpl Router.parts.
  change (slice_from 1 (String "#"%char (String "/"%char y)))
    with (String "/"%char y).
  change (Boolean (String "/"%char y)) with true. cbv iota.
  change (split "/"%char (String "/"%char y)) with ("" :: split "/"%char y).
  subst y. rewrite split_join.
  - change (List.filter Boolean ("" :: p :: l)) with (List.filter Boolean (p :: l)).
    now apply filter_Boolean_id.
  - congruence.
  - eapply Forall_impl; [exact Hf|]. intros s Hs. now apply part_safe_inv in Hs.
Qed.

Lemma buildPath_join (sk tp ar : option string) :
  Router.buildPath sk tp ar = join "/" ("" :: RouterState.pushed [sk; tp; ar]).
Proof.
  unfold Router.buildPath, RouterState.pushed.
  destruct sk as [[|? ?]|], tp as [[|? ?]|], ar as [[|? ?]|]; reflexivity.
Qed.

Lemma pushed_truthy (args : list (option string)) :
  Forall (λ s, Boolean s = true) (RouterState.pushed args).
Proof.
  unfold RouterState.pushed. induction args as [|[[|c s]|] args IH]; simpl;
    try assumption; [constructor|]. constructor; [reflexivity | assumption].
Qed.

(** No field of a parsed route is the empty string. *)
Lemma parseHash_fields_truthy location_hash s :
  Router.skill (Router.parseHash location_hash) = Some s
  ∨ Router.topic (Router.parseHash location_hash) = Some s
  ∨ Router.article (Router.parseHash location_hash) = Some s →
  Boolean s = true.
Proof.
  destruct (parseHash_positional location_hash) as (-> & -> & ->).
  pose proof (parts_truthy location_hash) as H. rewrite Forall_forall in H.
  intros [E|[E|E]]; apply H; eapply list_elem_of_lookup_2; exact E.
Qed.

End RouterMore.

(** X1.  Parsing the fragment that [navigate(buildPath(skill, topic,
    article))] leaves gives back exactly the arguments that are neither
    null nor empty, in order, as the parts of the route, provided they
    hold no slash and no character that [location.hash] percent-encodes
    or removes: a missing earlier part shifts the later ones to the
    front. *)
Theorem parseHash_buildPath_parts (sk tp ar : option string) :
  Forall (λ s, Spec.part_safe s = true) (RouterState.pushed [sk; tp; ar]) →
  Router.parts (Router.parseHash (Router.navigate (Router.buildPath sk tp ar)))
  = RouterState.pushed [sk; tp; ar]
  ∧ Router.skill (Router.parseHash (Router.navigate (Router.buildPath sk tp ar)))
    = RouterState.pushed [sk; tp; ar] !! 0%nat
  ∧ Router.topic (Router.parseHash (Router.navigate (Router.buildPath sk tp ar)))
    = RouterState.pushed [sk; tp; ar] !! 1%nat
  ∧ Router.article (Router.parseHash (Router.navigate (Router.buildPath sk tp ar)))
    = RouterState.pushed [sk; tp; ar] !! 2%nat.
Proof.
  intros Hf.
  destruct (parseHash_positional
              (Router.navigate (Router.buildPath sk tp ar))) as (-> & -> & ->).
  rewrite buildPath_join, parseHash_navigate_join; auto using pushed_truthy.
Qed.

(** A part with a space comes back percent-encoded. *)
Example parseHash_buildPath_space :
  Router.parts (Router.parseHash (Router.navigate
    (Router.buildPath (Some "user management") None None)))
  = ["user%20management"].
Proof. reflexivity. Qed.

Lemma parseHash_buildPath_parts_witness :
  Router.skill (Router.parseHash (Router.navigate
    (Router.buildPath None (Some "admin") (Some "user-management"))))
  = Some "admin".
Proof.
  apply (parseHash_buildPath_parts None (Some "admin") (Some "user-management")).
  repeat constructor.
Defined.

(** X2.  The router's path helper answers on a parsed fragment exactly
    when the fragment has at least three non-empty segments, with the
    path made of the first three; further segments are ignored. *)
Theorem Router_getArticlePath_parsed (location_hash : string) :
  Router.getArticlePath (Router.parseHash location_hash)
  = match Router.parts (Router.parseHash location_hash) with
    | s :: t :: a :: _ =>
        Some ("content/" +:+ s +:+ "/" +:+ t +:+ "/" +:+ a +:+ ".md")
    | _ => None
    end.
Proof.
  unfold Router.getArticlePath.
  destruct (parseHash_positional location_hash) as (-> & -> & ->).
  pose proof (parts_truthy location_hash) as H.
  destruct (Router.parts (Router.parseHash location_hash)) as [|s [|t [|a l]]];
    repeat match goal with
           | F : Forall _ (_ :: _) |- _ => apply Forall_cons in F as [? F]
           end;
    simpl;
    repeat match goal with
           | E : Boolean _ = true |- _ => rewrite E; clear E
           end;
    reflexivity.
Qed.

(** X3.  On the route of any fragment, [isActive] narrows: when it holds
    for skill, topic and article it holds for skill and topic, and for
    the skill alone, and the skill is to be expanded, as is the topic when
    one is given. *)
Theorem isActive_narrows (location_hash s t a : string) :
  RouterState.isActive (Router.parseHash location_hash)
    (RouterState.Str s) (RouterState.Str t) (RouterState.Str a) = true →
  RouterState.isActive (Router.parseHash location_hash)
    (RouterState.Str s) (RouterState.Str t) RouterState.Undefined = true
  ∧ RouterState.isActive (Router.parseHash location_hash)
      (RouterState.Str s) RouterState.Undefined RouterState.Undefined = true
  ∧ RouterState.shouldExpandSkill (Router.parseHash location_hash)
      (RouterState.Str s) = true
  ∧ (Boolean t = true →
     RouterState.shouldExpandTopic (Router.parseHash location_hash)
       (RouterState.Str s) (RouterState.Str t) = true).
Proof.
  pose proof (parseHash_fields_truthy location_hash) as Hne.
  assert (Heq : ∀ f x, RouterState.strict_eq f (RouterState.Str x) = true ↔ f = Some x).
  { intros [y|] x; simpl; [|split; discriminate].
    rewrite bool_decide_eq_true. split; congruence. }
  unfold RouterState.isActive, RouterState.shouldExpandSkill,
    RouterState.shouldExpandTopic.
  set (r := Router.parseHash location_hash) in *. clearbody r. simpl.
  assert (Hboth : Router.skill r = Some s → Router.topic r = Some t →
    (if Boolean t
     then RouterState.strict_eq (Router.skill r) (RouterState.Str s)
          && RouterState.strict_eq (Router.topic r) (RouterState.Str t)
     else if Boolean s
          then RouterState.strict_eq (Router.skill r) (RouterState.Str s)
          else false) = true
    ∧ (if Boolean s
       then RouterState.strict_eq (Router.skill r) (RouterState.Str s)
       else false) = true
    ∧ RouterState.strict_eq (Router.skill r) (RouterState.Str s) = true
    ∧ (Boolean t = true →
       RouterState.strict_eq (Router.skill r) (RouterState.Str s)
       && RouterState.strict_eq (Router.topic r) (RouterState.Str t) = true)).
  { intros Es Et. rewrite (Hne s), (Hne t) by auto.
    rewrite (proj2 (Heq _ _) Es), (proj2 (Heq _ _) Et). auto. }
  destruct (Boolean a).
  - intros H. apply andb_true_iff in H as [H _].
    apply andb_true_iff in H as [Es%Heq Et%Heq]. now apply Hboth.
  - destruct (Boolean t) eqn:Bt.
    + intros H. apply andb_true_iff in H as [Es%Heq Et%Heq].
      exact (Hboth Es Et).
    + destruct (Boolean s) eqn:Bs; [|discriminate].
      intros Es. rewrite Es. repeat split; (reflexivity || discriminate).
Qed.

Lemma isActive_narrows_witness :
  RouterState.isActive (Router.parseHash "#/sf/admin/user-management")
    (RouterState.Str "sf") RouterState.Undefined RouterState.Undefined = true.
Proof.
  apply (proj1 (proj2 (isActive_narrows "#/sf/admin/user-management"
                         "sf" "admin" "user-management" eq_refl))).
Defined.

(** ** Search: ranking, completeness, the empty query *)

Section SearchMore.

Implicit Types (a b : Search.FlatArticleRecord) (q : string)
  (terms : list string).

Lemma tally_bounds {A} (p : A → bool) (l : list A) :
  0 ≤ Spec.tally p l ≤ Z.of_nat (length l).
Proof.
  unfold Spec.tally. pose proof (List.filter_length_le p l). lia.
Qed.

Lemma tally_none {A} (p : A → bool) (l : list A) :
  (∀ x, x ∈ l → p x = false) → Spec.tally p l = 0.
Proof.
  induction l as [|x l IH]; intros H; [reflexivity|].
  rewrite tally_cons, H by apply list_elem_of_here.
  rewrite IH; [reflexivity|].
  intros y Hy. apply H. now apply list_elem_of_further.
Qed.

Lemma tally_some {A} (p : A → bool) (l : list A) (x : A) :
  x ∈ l → p x = true → 1 ≤ Spec.tally p l.
Proof.
  induction l as [|y l IH]; intros Hin Hx; [now apply elem_of_nil in Hin|].
  rewrite tally_cons. pose proof (tally_bounds p l).
  apply elem_of_cons in Hin as [<-|Hin]; [rewrite Hx; lia|].
  specialize (IH Hin Hx). destruct (p y); lia.
Qed.

Lemma tally_and_le {A} (p r : A → bool) (l : list A) :
  Spec.tally (λ x, p x && r x) l ≤ Spec.tally p l.
Proof.
  induction l as [|x l IH]; [reflexivity|]. rewrite !tally_cons.
  destruct (p x), (r x); simpl; lia.
Qed.

(** A list whose scores are all equal is left as it is by the sort. *)
Lemma sort_constant (v : Z) (l : list Search.Scored) :
  Forall (λ r, Search.score r = v) l → Search.sort Search.by_score l = l.
Proof.
  induction 1 as [|x l Hx Hl IH]; [reflexivity|].
  simpl. rewrite IH. destruct Hl as [|y l Hy _]; [reflexivity|].
  simpl. unfold Search.by_score. rewrite Hx, Hy.
  now replace (v - v) with 0 by lia.
Qed.

End SearchMore.

(** X4.  A title match has the highest priority: an article whose
    lowercased title contains some term of the query scores at least 10,
    and an article whose title contains none scores at most 5, whatever
    its skill and topic; no score exceeds 15 per term plus 5. *)
Theorem title_match_outranks (terms : list string) (q : string)
    (a b : Search.FlatArticleRecord) :
  (∃ t, t ∈ terms ∧ includes (toLowerCase (Search.title a)) t = true) →
  (∀ t, t ∈ terms → includes (toLowerCase (Search.title b)) t = false) →
  0 ≤ Search.score_of terms q b ≤ 5
  ∧ 10 ≤ Search.score_of terms q a ≤ 15 * Z.of_nat (length terms) + 5.
Proof.
  intros (t & Hin & Ht) Hb. rewrite !score_of_sum.
  pose proof (tally_some (λ term, includes (toLowerCase (Search.title a)) term)
                terms t Hin Ht) as Ha1.
  pose proof (tally_bounds (λ term, includes (toLowerCase (Search.title a)) term)
                terms) as Ha2.
  pose proof (tally_and_le (λ term, includes (toLowerCase (Search.title a)) term)
                (λ term, startsWith (toLowerCase (Search.title a)) term) terms) as Ha3.
  pose proof (tally_bounds
                (λ term, includes (toLowerCase (Search.title a)) term
                         && startsWith (toLowerCase (Search.title a)) term)
                terms) as Ha4.
  rewrite (tally_none (λ term, includes (toLowerCase (Search.title b)) term))
    by assumption.
  rewrite (tally_none (λ term, includes (toLowerCase (Search.title b)) term
                               && startsWith (toLowerCase (Search.title b)) term)).
  - destruct (includes (toLowerCase (Search.skill a)) q),
             (includes (toLowerCase (Search.topic a)) q),
             (includes (toLowerCase (Search.skill b)) q),
             (includes (toLowerCase (Search.topic b)) q); lia.
  - intros x Hx. now rewrite (Hb x Hx).
Qed.

Lemma title_match_outranks_witness :
  0 ≤ Search.score_of ["apex"] "apex" Spec.async_await ≤ 5
  ∧ 10 ≤ Search.score_of ["apex"] "apex" Spec.apex_basics
       ≤ 15 * Z.of_nat (length ["apex"]) + 5.
Proof.
  apply (title_match_outranks ["apex"] "apex" Spec.apex_basics Spec.async_await).
  - exists "apex". split; [apply list_elem_of_here | reflexivity].
  - intros t ->%list_elem_of_singleton. reflexivity.
Defined.

(** X5.  [search] returns as many results as articles have a positive
    score, up to 10; when at most 10 articles have one, every article of
    the index with a positive score is among the results. *)
Theorem search_complete (articles : list Search.FlatArticleRecord)
    (query : string) :
  length (Search.search articles query)
  = Nat.min 10
      (length (List.filter
                 (λ a, 0 <? Search.score_of (Search.terms_of query) query a)
                 articles))
  ∧ ((length (List.filter
                (λ a, (0 <? Search.score_of (Search.terms_of query) query a)%Z)
                articles) ≤ 10)%nat →
     ∀ a, a ∈ articles →
          0 < Search.score_of (Search.terms_of query) query a →
          Search.scored (Search.terms_of query) query a
            ∈ Search.search articles query).
Proof.
  assert (Hlen : ∀ l : list Search.FlatArticleRecord,
    length (List.filter (λ r, 0 <? Search.score r)
              (map (Search.scored (Search.terms_of query) query) l))
    = length (List.filter
                (λ a, 0 <? Search.score_of (Search.terms_of query) query a) l)).
  { induction l as [|x l IH]; simpl; [reflexivity|].
    destruct (0 <? Search.score_of (Search.terms_of query) query x); simpl;
      now rewrite IH. }
  unfold Search.search. split.
  - rewrite length_take, (Permutation_length (sort_Permutation _ _)), Hlen.
    reflexivity.
  - intros Hfew a Ha Hpos. rewrite take_ge.
    + rewrite sort_Permutation. apply list_elem_of_In, filter_In. split.
      * apply in_map. now apply list_elem_of_In.
      * simpl. now apply Z.ltb_lt.
    + rewrite (Permutation_length (sort_Permutation _ _)), Hlen. exact Hfew.
Qed.

Lemma search_complete_witness :
  Search.scored (Search.terms_of "apex") "apex" Spec.apex_basics
    ∈ Search.search [Spec.async_await; Spec.apex_basics] "apex".
Proof.
  apply (proj2 (search_complete [Spec.async_await; Spec.apex_basics] "apex")).
  - vm_compute. lia.
  - apply list_elem_of_further, list_elem_of_here.
  - reflexivity.
Defined.

(** X6.  The empty query matches everything: [search] returns the first
    10 articles of the index, in index order, each with the score 5 of
    the skill and topic bonuses. *)
Theorem search_empty_query (articles : list Search.FlatArticleRecord) :
  Search.search articles ""
  = take 10 (map (λ a, {| Search.article := a; Search.score := 5 |}) articles).
Proof.
  unfold Search.search. f_equal.
  assert (Hmap : map (Search.scored (Search.terms_of "") "") articles
                 = map (λ a, {| Search.article := a; Search.score := 5 |}) articles).
  { apply map_ext. intros a. unfold Search.scored, Search.score_of. simpl.
    destruct (toLowerCase (Search.skill a)), (toLowerCase (Search.topic a));
      reflexivity. }
  rewrite Hmap.
  assert (Hall : Forall (λ r, Search.score r = 5)
                   (map (λ a, {| Search.article := a; Search.score := 5 |}) articles)).
  { apply Forall_forall. intros r Hr.
    apply list_elem_of_In, in_map_iff in Hr as (a & <- & _). reflexivity. }
  assert (Hfilter : List.filter (λ r, 0 <? Search.score r)
                      (map (λ a, {| Search.article := a; Search.score := 5 |}) articles)
                    = map (λ a, {| Search.article := a; Search.score := 5 |}) articles).
  { clear. induction articles as [|a l IH]; simpl; [reflexivity|]. now rewrite IH. }
  rewrite Hfilter. now apply (sort_constant 5).
Qed.

(** ** Search: the dropdown and its cursor *)

Section SearchUiFacts.

Context (articles : list Search.FlatArticleRecord).

Implicit Types (ui : SearchUi.Ui) (p : Search.Panel).

Local Abbreviation good := SearchUi.good.

Lemma handleKeydown_Enter ui :
  Search.isOpen (SearchUi.panel ui) = true →
  SearchUi.handleKeydown "Enter" ui
  = match SearchUi.item_at (SearchUi.panel ui)
            (Search.activeIndex (SearchUi.panel ui)) with
    | Some r => SearchUi.click (Search.article r) ui
    | None => ui
    end.
Proof. intros H. unfold SearchUi.handleKeydown. rewrite H. reflexivity. Qed.

Lemma close_good ui v f h :
  good {| SearchUi.panel := Search.close (SearchUi.panel ui);
          SearchUi.value := v; SearchUi.focused := f;
          SearchUi.location_hash := h |}.
Proof. unfold good, SearchUi.cursor_ok. simpl. lia. Qed.

Lemma showResults_good results ui v f h :
  good {| SearchUi.panel := Search.showResults results (SearchUi.panel ui);
          SearchUi.value := v; SearchUi.focused := f;
          SearchUi.location_hash := h |}.
Proof. unfold good, SearchUi.cursor_ok. simpl. split; [lia | discriminate]. Qed.

Lemma handleKeydown_good key ui :
  good ui → good (SearchUi.handleKeydown key ui).
Proof.
  intros Hg. unfold SearchUi.handleKeydown.
  destruct (Search.isOpen (SearchUi.panel ui)) eqn:Hopen; simpl; [|exact Hg].
  destruct Hg as [[Hlo Hhi] _].
  repeat case_bool_decide.
  - unfold good, SearchUi.cursor_ok. simpl. rewrite Hopen.
    split; [lia | discriminate].
  - unfold good, SearchUi.cursor_ok. simpl. rewrite Hopen.
    split; [lia | discriminate].
  - destruct (SearchUi.item_at _ _); [apply close_good|].
    unfold good, SearchUi.cursor_ok. rewrite Hopen. split; [lia | discriminate].
  - apply close_good.
  - unfold good, SearchUi.cursor_ok. rewrite Hopen. split; [lia | discriminate].
Qed.

Lemma step_good ui e : good ui → good (SearchUi.step articles ui e).
Proof.
  intros Hg. destruct e as [text| |key| | |i]; simpl.
  - unfold Search.handleInput.
    destruct (_ <? _)%nat; [apply close_good | apply showResults_good].
  - unfold Search.handleFocus.
    destruct (_ <=? _)%nat; [apply showResults_good|].
    destruct ui; exact Hg.
  - now apply handleKeydown_good.
  - apply close_good.
  - apply close_good.
  - destruct (_ !! i); [apply close_good | exact Hg].
Qed.

Lemma run_good events ui : good ui → good (SearchUi.run articles ui events).
Proof.
  revert ui. induction events as [|e events IH]; intros ui Hg; [exact Hg|].
  simpl. apply IH. now apply step_good.
Qed.

Lemma initial_good h : good (SearchUi.initial h).
Proof. unfold good, SearchUi.cursor_ok. simpl. lia. Qed.

End SearchUiFacts.

(** X7.  Whatever is typed, focused, pressed or clicked, the cursor of
    the dropdown stays bounded: from a state where it is -1, or the index
    of a result item, or 0 over an empty result list (where ArrowUp puts
    it), and -1 if the dropdown is closed, every sequence of events leads
    to such a state; there, over a non-empty list, a cursor that is not
    -1 is on an item. *)
Theorem search_cursor_bounded (articles : list Search.FlatArticleRecord)
    (ui : SearchUi.Ui) (events : list SearchUi.Event) :
  SearchUi.good ui →
  SearchUi.good (SearchUi.run articles ui events)
  ∧ (Search.items (SearchUi.panel (SearchUi.run articles ui events)) ≠ [] →
     0 ≤ Search.activeIndex (SearchUi.panel (SearchUi.run articles ui events)) →
     is_Some (SearchUi.item_at
       (SearchUi.panel (SearchUi.run articles ui events))
       (Search.activeIndex (SearchUi.panel (SearchUi.run articles ui events))))).
Proof.
  intros Hg. pose proof (run_good articles events ui Hg) as Hrun.
  split; [exact Hrun|]. destruct Hrun as [[Hlo Hhi] _].
  set (p := SearchUi.panel _) in *.
  intros Hne Hpos. unfold SearchUi.item_at.
  destruct (Z.leb_spec 0 (Search.activeIndex p)); [|lia].
  apply lookup_lt_is_Some.
  destruct (Search.items p) as [|r l]; [congruence|]. simpl length in *. lia.
Qed.

Lemma search_cursor_bounded_witness :
  SearchUi.good
    (SearchUi.run [Spec.async_await; Spec.apex_basics] (SearchUi.initial "")
       [SearchUi.Input "zz"; SearchUi.Keydown "ArrowUp";
        SearchUi.Keydown "ArrowDown"; SearchUi.Input "apex";
        SearchUi.Keydown "ArrowDown"]).
Proof.
  apply (search_cursor_bounded [Spec.async_await; Spec.apex_basics]
           (SearchUi.initial "")
           [SearchUi.Input "zz"; SearchUi.Keydown "ArrowUp";
            SearchUi.Keydown "ArrowDown"; SearchUi.Input "apex";
            SearchUi.Keydown "ArrowDown"]).
  unfold SearchUi.good, SearchUi.cursor_ok. simpl. lia.
Defined.

Example arrow_up_on_no_results :
  Search.activeIndex
    (SearchUi.panel
       (SearchUi.run [Spec.async_await; Spec.apex_basics] (SearchUi.initial "")
          [SearchUi.Input "zz"; SearchUi.Keydown "ArrowUp"])) = 0
  ∧ Search.items
      (SearchUi.panel
         (SearchUi.run [Spec.async_await; Spec.apex_basics] (SearchUi.initial "")
            [SearchUi.Input "zz"; SearchUi.Keydown "ArrowUp"])) = [].
Proof. split; reflexivity. Qed.

(** X8.  Enter activates the result under the cursor and nothing else: in
    an open dropdown with an item at the cursor it closes the dropdown,
    clears the input and navigates to the fragment built from the slugs of
    that item, which (the slugs being non-empty, free of slashes and free
    of what [location.hash] percent-encodes or removes) parses back to
    these slugs; with no item at the cursor it changes nothing. *)
Theorem enter_navigates_to_result (ui : SearchUi.Ui) :
  Search.isOpen (SearchUi.panel ui) = true →
  (∀ r,
     SearchUi.item_at (SearchUi.panel ui)
       (Search.activeIndex (SearchUi.panel ui)) = Some r →
     Boolean (Search.skillSlug (Search.article r)) = true →
     Spec.part_safe (Search.skillSlug (Search.article r)) = true →
     Boolean (Search.topicSlug (Search.article r)) = true →
     Spec.part_safe (Search.topicSlug (Search.article r)) = true →
     Boolean (Search.slug (Search.article r)) = true →
     Spec.part_safe (Search.slug (Search.article r)) = true →
     Search.isOpen (SearchUi.panel (SearchUi.handleKeydown "Enter" ui)) = false
     ∧ SearchUi.value (SearchUi.handleKeydown "Enter" ui) = ""
     ∧ Router.skill (Router.parseHash
         (SearchUi.location_hash (SearchUi.handleKeydown "Enter" ui)))
       = Some (Search.skillSlug (Search.article r))
     ∧ Router.topic (Router.parseHash
         (SearchUi.location_hash (SearchUi.handleKeydown "Enter" ui)))
       = Some (Search.topicSlug (Search.article r))
     ∧ Router.article (Router.parseHash
         (SearchUi.location_hash (SearchUi.handleKeydown "Enter" ui)))
       = Some (Search.slug (Search.article r)))
  ∧ (SearchUi.item_at (SearchUi.panel ui)
       (Search.activeIndex (SearchUi.panel ui)) = None →
     SearchUi.handleKeydown "Enter" ui = ui).
Proof.
  intros Hopen. rewrite handleKeydown_Enter by assumption.
  split.
  - intros r -> Bs Fs Bt Ft Ba Fa. unfold SearchUi.click.
    cbn [SearchUi.panel SearchUi.value SearchUi.location_hash
         Search.close Search.isOpen].
    rewrite parseHash_navigate_buildPath by assumption. auto.
  - intros ->. reflexivity.
Qed.

Lemma enter_navigates_to_result_witness :
  Router.article (Router.parseHash
    (SearchUi.location_hash
       (SearchUi.handleKeydown "Enter"
          (SearchUi.run [Spec.async_await; Spec.apex_basics] (SearchUi.initial "")
             [SearchUi.Input "apex"; SearchUi.Keydown "ArrowDown"]))))
  = Some "apex-basics".
Proof.
  apply (proj1 (enter_navigates_to_result
                  (SearchUi.run [Spec.async_await; Spec.apex_basics]
                     (SearchUi.initial "")
                     [SearchUi.Input "apex"; SearchUi.Keydown "ArrowDown"])
                  eq_refl)
           {| Search.article := Spec.apex_basics; Search.score := 15 |});
    reflexivity.
Defined.

(** ** Table of contents: ids, anchors, the scroll spy *)

Section CharFacts.

Implicit Types (s : string) (p q keep : ascii → bool) (c r : ascii).

Lemma strip_all keep s : Laws.all_chars keep (TableOfContents.strip keep s) = true.
Proof.
  induction s as [|c s IH]; simpl; [reflexivity|].
  destruct (keep c) eqn:E; simpl; [now rewrite E|assumption].
Qed.

Lemma strip_keeps q keep s :
  Laws.all_chars q s = true → Laws.all_chars q (TableOfContents.strip keep s) = true.
Proof.
  induction s as [|c s IH]; simpl; [reflexivity|].
  rewrite andb_true_iff. intros [Hc Hs].
  destruct (keep c); simpl; [rewrite Hc|]; auto.
Qed.

Lemma strip_id keep s :
  Laws.all_chars keep s = true → TableOfContents.strip keep s = s.
Proof.
  induction s as [|c s IH]; simpl; [reflexivity|].
  rewrite andb_true_iff. intros [-> Hs]. now rewrite IH.
Qed.

Lemma all_chars_and p q s :
  Laws.all_chars p s = true → Laws.all_chars q s = true →
  Laws.all_chars (λ c, p c && q c) s = true.
Proof.
  induction s as [|c s IH]; simpl; [reflexivity|].
  rewrite !andb_true_iff. intros [-> Hp] [-> Hq]. auto.
Qed.

Lemma all_chars_impl p q s :
  (∀ c, p c = true → q c = true) →
  Laws.all_chars p s = true → Laws.all_chars q s = true.
Proof.
  intros Hpq. induction s as [|c s IH]; simpl; [reflexivity|].
  rewrite !andb_true_iff. intros [Hc Hs]. auto.
Qed.

Lemma all_chars_free p s :
  Laws.all_chars (λ c, negb (p c)) s = free_of p s.
Proof. induction s as [|c s IH]; simpl; [reflexivity | now rewrite IH]. Qed.

(** Collapsing the runs of [p] into [r]: what is left is [r] or a
    character of [s] outside [p]. *)
Lemma collapse_all p q r s :
  q r = true →
  Laws.all_chars (λ c, p c || q c) s = true →
  Laws.all_chars q (TableOfContents.collapse p r s) = true.
Proof.
  intros Hr. induction s as [|c s IH]; [reflexivity|].
  simpl Laws.all_chars at 1. rewrite andb_true_iff. intros [Hc Hs].
  simpl. destruct (p c) eqn:Ep.
  - destruct s as [|c' s']; [simpl; now rewrite Hr|].
    destruct (p c'); [auto|]. simpl Laws.all_chars at 1. rewrite Hr. auto.
  - simpl in Hc. simpl. rewrite Hc. auto.
Qed.

Lemma collapse_id p r s :
  free_of p s = true → TableOfContents.collapse p r s = s.
Proof.
  induction s as [|c s IH]; simpl; [reflexivity|].
  rewrite andb_true_iff, negb_true_iff. intros [-> Hs]. now rewrite IH.
Qed.

(** Collapsing the runs of [p] into a character of [p] leaves no two
    neighbours in [p]. *)
Lemma collapse_no_run p r s :
  Laws.no_run p (TableOfContents.collapse p r s) = true.
Proof.
  induction s as [|c s IH]; [reflexivity|].
  simpl TableOfContents.collapse. destruct (p c) eqn:Ep.
  - destruct s as [|c' s']; [reflexivity|].
    destruct (p c') eqn:Ep'; [assumption|].
    change (Laws.no_run p (String r (TableOfContents.collapse p r (String c' s'))) = true).
    simpl TableOfContents.collapse in *. rewrite Ep' in *.
    change (negb (p r && p c') && Laws.no_run p
              (String c' (TableOfContents.collapse p r s')) = true).
    now rewrite Ep', andb_false_r.
  - simpl Laws.no_run at 1. rewrite Ep. simpl.
    destruct (TableOfContents.collapse p r s); assumption.
Qed.

Lemma trimStart_id s : free_of is_space s = true → trimStart s = s.
Proof.
  destruct s as [|c s]; simpl; [reflexivity|].
  now rewrite andb_true_iff, negb_true_iff; intros [-> _].
Qed.

Lemma trimEnd_id s : free_of is_space s = true → trimEnd s = s.
Proof.
  induction s as [|c s IH]; simpl; [reflexivity|].
  rewrite andb_true_iff, negb_true_iff. intros [Hc Hs].
  rewrite IH, Hc by assumption. now destruct s.
Qed.

Lemma trim_id s : free_of is_space s = true → trim s = s.
Proof.
  intros H. unfold trim. rewrite trimStart_id by assumption. now apply trimEnd_id.
Qed.

Lemma toLowerCase_lower s :
  Laws.all_chars (λ c, negb ((65 <=? nat_of_ascii c)%nat && (nat_of_ascii c <=? 90)%nat))
    (toLowerCase s) = true.
Proof.
  induction s as [|c s IH]; [reflexivity|].
  cbn [toLowerCase Laws.all_chars]. apply andb_true_iff. split; [|exact IH].
  destruct c as [[] [] [] [] [] [] [] []]; reflexivity.
Qed.

Lemma toLowerCase_id s :
  Laws.all_chars (λ c, negb ((65 <=? nat_of_ascii c)%nat && (nat_of_ascii c <=? 90)%nat))
    s = true →
  toLowerCase s = s.
Proof.
  induction s as [|c s IH]; [reflexivity|].
  cbn [toLowerCase Laws.all_chars]. rewrite andb_true_iff. intros [Hc Hs].
  rewrite IH by assumption. f_equal.
  revert Hc. destruct c as [[] [] [] [] [] [] [] []]; (reflexivity || discriminate).
Qed.

(** The pipeline shared by [generateId] and [slugify], on a string in
    lower case: only id characters are left, and no two hyphens in a
    row. *)
Lemma slug_pipeline s :
  Laws.all_chars (λ c, negb ((65 <=? nat_of_ascii c)%nat && (nat_of_ascii c <=? 90)%nat))
    s = true →
  let slug :=
    trim (TableOfContents.collapse TableOfContents.is_hyphen "-"%char
            (TableOfContents.collapse is_space "-"%char
               (TableOfContents.strip
                  (λ c, TableOfContents.is_word c || is_space c
                        || TableOfContents.is_hyphen c) s))) in
  Laws.all_chars Laws.is_id_char slug = true
  ∧ Laws.no_run TableOfContents.is_hyphen slug = true.
Proof.
  intros Hlow. cbv zeta.
  set (kept := TableOfContents.strip _ s).
  assert (H1 : Laws.all_chars
                 (λ c, is_space c || Laws.is_id_char c) kept = true).
  { eapply all_chars_impl;
      [|apply all_chars_and; [apply strip_all | apply strip_keeps, Hlow]].
    intros c. destruct c as [[] [] [] [] [] [] [] []]; (reflexivity || discriminate). }
  assert (H2 : Laws.all_chars Laws.is_id_char
                 (TableOfContents.collapse is_space "-" kept) = true).
  { apply collapse_all; [reflexivity | exact H1]. }
  assert (H3 : Laws.all_chars Laws.is_id_char
                 (TableOfContents.collapse TableOfContents.is_hyphen "-"
                    (TableOfContents.collapse is_space "-" kept)) = true).
  { apply collapse_all; [reflexivity|].
    eapply all_chars_impl; [|exact H2]. intros c ->. apply orb_true_r. }
  rewrite trim_id.
  - split; [exact H3 | apply collapse_no_run].
  - rewrite <- all_chars_free. eapply all_chars_impl; [|exact H3].
    intros c. destruct c as [[] [] [] [] [] [] [] []]; (reflexivity || discriminate).
Qed.

End CharFacts.

Lemma generateId_truthy (text : string) (index : nat) :
  Boolean (TableOfContents.generateId text index) = true.
Proof.
  unfold TableOfContents.generateId.
  destruct (Boolean (trim _)) eqn:E; [exact E | reflexivity].
Qed.

(** X9.  [generateId] never returns the empty string; its result is
    either the fallback [heading-<index>] or a slug that consists of
    lower-case letters, digits, underscores and hyphens only, with no two
    hyphens in a row. *)
Theorem generateId_shape (text : string) (index : nat) :
  Boolean (TableOfContents.generateId text index) = true
  ∧ (TableOfContents.generateId text index = "heading-" +:+ pretty index
     ∨ (Laws.all_chars Laws.is_id_char (TableOfContents.generateId text index) = true
        ∧ Laws.no_run TableOfContents.is_hyphen
            (TableOfContents.generateId text index) = true)).
Proof.
  split; [apply generateId_truthy|].
  unfold TableOfContents.generateId.
  destruct (Boolean (trim _)) eqn:E; [right | now left].
  apply (slug_pipeline (toLowerCase text)), toLowerCase_lower.
Qed.

Section TocMore.

(** Induction on a document tree: a property of all children gives it for
    the element. *)
Lemma Node_tree_ind (P : Dom.Node → Prop) :
  (∀ d, P (Dom.Text d)) →
  (∀ tag i cs, Forall P cs → P (Dom.Element tag i cs)) →
  ∀ n, P n.
Proof.
  intros HT HE. fix IH 1. intros [tag i cs|d]; [|apply HT].
  apply HE. induction cs as [|c cs IHcs]; constructor; [apply IH | exact IHcs].
Qed.

Lemma headings_in_sound (n x : Dom.Node) :
  x ∈ Dom.headings_in n → is_Some (Dom.heading_level (Dom.tagName_of x)).
Proof.
  revert x. induction n as [d|tag i cs IH] using Node_tree_ind; intros x.
  - intros H. now apply elem_of_nil in H.
  - simpl. rewrite elem_of_app. intros [H|H].
    + case_bool_decide as Ht; [|now apply elem_of_nil in H].
      apply list_elem_of_singleton in H as ->. exact Ht.
    + induction IH as [|c cs Hc _ IHcs]; [now apply elem_of_nil in H|].
      apply elem_of_app in H as [H|H]; [now apply Hc | now apply IHcs].
Qed.

Lemma content_headings_sound (contentElement : option Dom.Node) (x : Dom.Node) :
  x ∈ Spec.content_headings contentElement →
  is_Some (Dom.heading_level (Dom.tagName_of x)).
Proof.
  destruct contentElement as [[tag i cs|d]|]; simpl;
    try (intros H; now apply elem_of_nil in H).
  intros H. apply list_elem_of_In, in_flat_map in H as (c & _ & Hx).
  eapply headings_in_sound, list_elem_of_In, Hx.
Qed.

Lemma heading_level_range (tag : string) (l : Z) :
  Dom.heading_level tag = Some l → 1 ≤ l ≤ 4.
Proof.
  unfold Dom.heading_level. repeat case_bool_decide; intros [= <-]; lia.
Qed.

End TocMore.

(** X10.  After [generate], the heading list and the anchor list run in
    parallel over the heading elements of the content: both have one
    entry per heading element of levels 1 to 4, in document order; every
    heading has a non-empty id and a level from 1 to 4; and the anchor at
    the same position points to that id. *)
Theorem generate_parallel (contentElement : option Dom.Node)
    (st : TableOfContents.State) :
  length (TableOfContents.headings (TableOfContents.generate contentElement st))
  = length (Spec.content_headings contentElement)
  ∧ length (TableOfContents.links (TableOfContents.generate contentElement st))
    = length (Spec.content_headings contentElement)
  ∧ ∀ (i : nat) (h : TableOfContents.Heading),
      TableOfContents.headings (TableOfContents.generate contentElement st) !! i
      = Some h →
      Boolean (TableOfContents.id h) = true
      ∧ 1 ≤ TableOfContents.level h ≤ 4
      ∧ Dom.id_of (TableOfContents.element h) = TableOfContents.id h
      ∧ ∃ l, TableOfContents.links (TableOfContents.generate contentElement st) !! i
             = Some l
             ∧ TableOfContents.href l = "#" +:+ TableOfContents.id h.
Proof.
  destruct (generate_fields contentElement st) as (-> & -> & _ & _).
  rewrite !length_imap. repeat split.
  all: rewrite list_lookup_imap in H;
    destruct (Spec.content_headings contentElement !! i) as [x|] eqn:Ex;
    [|discriminate]; injection H as <-.
  - unfold TableOfContents.heading_entry. simpl.
    destruct (Boolean (Dom.id_of x)) eqn:E; [exact E | apply generateId_truthy].
  - apply list_elem_of_lookup_2, content_headings_sound in Ex as [l Hl].
    unfold TableOfContents.heading_entry. simpl. rewrite Hl. simpl.
    now apply heading_level_range in Hl.
  - apply list_elem_of_lookup_2, content_headings_sound in Ex as [l Hl].
    unfold TableOfContents.heading_entry. simpl. rewrite Hl. simpl.
    now apply heading_level_range in Hl.
  - unfold TableOfContents.heading_entry. simpl.
    destruct (Boolean (Dom.id_of x)) eqn:E; [reflexivity|].
    apply list_elem_of_lookup_2, content_headings_sound in Ex as [l Hl].
    destruct x as [tag i0 cs|d]; [reflexivity | discriminate Hl].
  - rewrite list_lookup_imap, Ex. simpl. eexists. split; reflexivity.
Qed.

Lemma generate_parallel_witness :
  Boolean (TableOfContents.id
    {| TableOfContents.element := Dom.Element "h3" "heading-2" [Dom.Text "!!!"];
       TableOfContents.id := "heading-2"; TableOfContents.level := 3 |}) = true.
Proof.
  apply (proj2 (proj2 (generate_parallel (Some Spec.article_with_headings)
                         TableOfContents.initial)) 2%nat).
  vm_compute. reflexivity.
Defined.

Section SpyFacts.

Implicit Types (spy : ScrollSpy.Spy) (st : TableOfContents.State)
  (reached : nat → bool).

(** The loop finds the last heading that is reached, if any. *)
Lemma scan_spec reached (n : nat) :
  (ScrollSpy.scan reached n = -1 ∧ ∀ i, (i < n)%nat → reached i = false)
  ∨ (0 ≤ ScrollSpy.scan reached n < Z.of_nat n
     ∧ reached (Z.to_nat (ScrollSpy.scan reached n)) = true
     ∧ ∀ j, (Z.to_nat (ScrollSpy.scan reached n) < j < n)%nat → reached j = false).
Proof.
  induction n as [|n IH]; simpl; [left; split; [reflexivity | lia]|].
  destruct (reached n) eqn:E.
  - right. rewrite Nat2Z.id. repeat split; [lia | lia | exact E | lia].
  - destruct IH as [[-> IH]|(Hr & Ht & IH)].
    + left. split; [reflexivity|]. intros i Hi.
      destruct (decide (i = n)) as [->|]; [exact E | apply IH; lia].
    + right. repeat split; [lia | lia | exact Ht|]. intros j Hj.
      destruct (decide (j = n)) as [->|]; [exact E | apply IH; lia].
Qed.

Lemma generate_timeout contentElement st :
  TableOfContents.scrollTimeout (TableOfContents.generate contentElement st)
  = if bool_decide
         (TableOfContents.headings (TableOfContents.generate contentElement st) = [])
    then TableOfContents.scrollTimeout st
    else Some (S (TableOfContents.frames st)).
Proof.
  unfold TableOfContents.generate.
  destruct contentElement as [root|]; simpl; [|reflexivity].
  case_bool_decide as Hh; simpl; [reflexivity|].
  unfold TableOfContents.handleScroll. simpl.
  destruct (Dom.querySelectorAll_headings root); [congruence | reflexivity].
Qed.

(** Cancelling the frame that [scrollTimeout] names leaves none pending. *)
Lemma cancel_all (handle : option nat) (frames : list nat) :
  (∀ h, h ∈ frames → handle = Some h) → ScrollSpy.cancel handle frames = [].
Proof.
  intros H. destruct handle as [k|]; simpl.
  - induction frames as [|x l IH]; [reflexivity|]. simpl.
    assert (Some k = Some x) as [= <-] by apply H, list_elem_of_here.
    rewrite Nat.eqb_refl. simpl. apply IH.
    intros h Hh. now apply H, list_elem_of_further.
  - destruct frames as [|x l]; [reflexivity|].
    discriminate (H x (list_elem_of_here _ _)).
Qed.

Lemma generate_good contentElement spy :
  Laws.spy_good spy → Laws.spy_good (ScrollSpy.generate contentElement spy).
Proof.
  intros (_ & _ & _ & Hlen & Hpend).
  unfold Laws.spy_good, ScrollSpy.generate. simpl.
  rewrite generate_timeout.
  destruct (generate_fields contentElement (ScrollSpy.toc spy)) as (Hh & Hl & -> & _).
  rewrite Hl, Hh, !length_imap. simpl.
  split; [reflexivity|]. split; [lia|]. split; [reflexivity|].
  case_bool_decide; [auto|].
  rewrite cancel_all by assumption. simpl. split; [lia|].
  now intros h ->%list_elem_of_singleton.
Qed.

Lemma handleScroll_good spy :
  Laws.spy_good spy → Laws.spy_good (ScrollSpy.handleScroll spy).
Proof.
  intros Hg. unfold ScrollSpy.handleScroll. case_bool_decide as Hh; [exact Hg|].
  destruct Hg as (Hll & Hidx & Hact & Hlen & Hpend).
  unfold Laws.spy_good, TableOfContents.handleScroll. simpl.
  rewrite bool_decide_eq_false_2 by assumption. simpl.
  repeat split; try assumption; try lia.
  - now rewrite cancel_all.
  - rewrite cancel_all by assumption. now intros h ->%list_elem_of_singleton.
Qed.

Lemma updateActiveHeading_good reached spy :
  Laws.spy_good spy → Laws.spy_good (ScrollSpy.updateActiveHeading reached spy).
Proof.
  intros Hg. unfold ScrollSpy.updateActiveHeading.
  case_bool_decide as Hsame; [exact Hg|].
  destruct Hg as (Hll & Hidx & Hact & Hlen & Hpend).
  unfold Laws.spy_good. simpl.
  set (n := length (TableOfContents.headings (ScrollSpy.toc spy))) in *.
  set (old := TableOfContents.activeIndex (ScrollSpy.toc spy)) in *.
  assert (Hnew : -1 ≤ ScrollSpy.scan reached n < Z.of_nat n).
  { destruct (scan_spec reached n) as [[-> _]|[? _]]; lia. }
  repeat split; try assumption; try lia.
  rewrite Hll, Hact.
  assert (Hold : ScrollSpy.deactivate old n
                   (if 0 <=? old then [Z.to_nat old] else []) = []).
  { unfold ScrollSpy.deactivate.
    destruct (Z.leb_spec 0 old); simpl.
    - destruct (Z.ltb_spec old (Z.of_nat n)); [|lia]. simpl.
      now rewrite Nat.eqb_refl.
    - reflexivity. }
  rewrite Hold. unfold ScrollSpy.activate.
  destruct (Z.leb_spec 0 (ScrollSpy.scan reached n)); simpl; [|reflexivity].
  destruct (Z.ltb_spec (ScrollSpy.scan reached n) (Z.of_nat n)); [reflexivity | lia].
Qed.

Lemma spy_step_good spy (e : ScrollSpy.Event) :
  Laws.spy_good spy → Laws.spy_good (ScrollSpy.step spy e).
Proof.
  intros Hg. destruct e as [contentElement| |handle reached]; simpl.
  - now apply generate_good.
  - now apply handleScroll_good.
  - case_bool_decide as Hin; [|exact Hg].
    apply updateActiveHeading_good.
    destruct Hg as (Hll & Hidx & Hact & Hlen & Hpend).
    unfold Laws.spy_good. simpl. repeat split; try assumption; try lia.
    + pose proof (List.filter_length_le (λ x, negb (x =? handle)%nat)
                    (ScrollSpy.pending spy)). lia.
    + intros h Hh. apply Hpend.
      apply list_elem_of_In, filter_In in Hh as [Hh _]. now apply list_elem_of_In.
Qed.

Lemma spy_run_good (events : list ScrollSpy.Event) spy :
  Laws.spy_good spy → Laws.spy_good (ScrollSpy.run spy events).
Proof.
  revert spy. induction events as [|e events IH]; intros spy Hg; [exact Hg|].
  simpl. apply IH. now apply spy_step_good.
Qed.

Lemma spy_initial_good : Laws.spy_good ScrollSpy.initial.
Proof.
  unfold Laws.spy_good. simpl. repeat split; try lia.
  intros h Hh. now apply elem_of_nil in Hh.
Qed.

End SpyFacts.

(** X11.  [updateActiveHeading] makes active the last heading that the
    scroll position has reached, and none when it has reached none: the
    index it stores is -1 with no heading reached, or the index of a
    reached heading after which no heading is reached. *)
Theorem updateActiveHeading_last_reached (reached : nat → bool)
    (spy : ScrollSpy.Spy) :
  (TableOfContents.activeIndex
     (ScrollSpy.toc (ScrollSpy.updateActiveHeading reached spy)) = -1
   ∧ ∀ i, (i < length (TableOfContents.headings (ScrollSpy.toc spy)))%nat →
          reached i = false)
  ∨ (0 ≤ TableOfContents.activeIndex
           (ScrollSpy.toc (ScrollSpy.updateActiveHeading reached spy))
       < Z.of_nat (length (TableOfContents.headings (ScrollSpy.toc spy)))
     ∧ reached (Z.to_nat (TableOfContents.activeIndex
         (ScrollSpy.toc (ScrollSpy.updateActiveHeading reached spy)))) = true
     ∧ ∀ j, (Z.to_nat (TableOfContents.activeIndex
               (ScrollSpy.toc (ScrollSpy.updateActiveHeading reached spy)))
             < j < length (TableOfContents.headings (ScrollSpy.toc spy)))%nat →
            reached j = false).
Proof.
  assert (E : TableOfContents.activeIndex
                (ScrollSpy.toc (ScrollSpy.updateActiveHeading reached spy))
              = ScrollSpy.scan reached
                  (length (TableOfContents.headings (ScrollSpy.toc spy)))).
  { unfold ScrollSpy.updateActiveHeading. case_bool_decide; [congruence | reflexivity]. }
  rewrite E. apply scan_spec.
Qed.

(** X12.  Whatever articles are rendered, however the window scrolls and
    whenever the frames run, at most one anchor of the table of contents
    is marked active, and it is the anchor at the active index, which is
    -1 or the index of a heading. *)
Theorem spy_one_active_link (events : list ScrollSpy.Event) :
  -1 ≤ TableOfContents.activeIndex (ScrollSpy.toc (ScrollSpy.run ScrollSpy.initial events))
     < Z.of_nat (length (TableOfContents.links
                           (ScrollSpy.toc (ScrollSpy.run ScrollSpy.initial events))))
  ∧ ScrollSpy.active_links (ScrollSpy.run ScrollSpy.initial events)
    = (if 0 <=? TableOfContents.activeIndex
                  (ScrollSpy.toc (ScrollSpy.run ScrollSpy.initial events))
       then [Z.to_nat (TableOfContents.activeIndex
                         (ScrollSpy.toc (ScrollSpy.run ScrollSpy.initial events)))]
       else []).
Proof.
  destruct (spy_run_good events _ spy_initial_good) as (-> & Hidx & Hact & _).
  split; assumption.
Qed.

(** X13.  Scroll handling is throttled: however many scroll events and
    renders arrive between two frames, at most one animation frame is
    pending, and it is the one [scrollTimeout] names. *)
Theorem spy_one_pending_frame (events : list ScrollSpy.Event) :
  (length (ScrollSpy.pending (ScrollSpy.run ScrollSpy.initial events)) ≤ 1)%nat
  ∧ ∀ h, h ∈ ScrollSpy.pending (ScrollSpy.run ScrollSpy.initial events) →
         TableOfContents.scrollTimeout
           (ScrollSpy.toc (ScrollSpy.run ScrollSpy.initial events)) = Some h.
Proof.
  destruct (spy_run_good events _ spy_initial_good) as (_ & _ & _ & Hlen & Hpend).
  split; assumption.
Qed.

Lemma spy_one_pending_frame_witness :
  TableOfContents.scrollTimeout
    (ScrollSpy.toc
       (ScrollSpy.run ScrollSpy.initial
          [ScrollSpy.Generate (Some Spec.article_with_headings);
           ScrollSpy.Scroll; ScrollSpy.Scroll])) = Some 3%nat.
Proof.
  apply (proj2 (spy_one_pending_frame
                  [ScrollSpy.Generate (Some Spec.article_with_headings);
                   ScrollSpy.Scroll; ScrollSpy.Scroll])).
  vm_compute. apply list_elem_of_here.
Defined.

Example spy_follows_scroll :
  (λ spy, (TableOfContents.activeIndex (ScrollSpy.toc spy),
           ScrollSpy.active_links spy, ScrollSpy.pending spy))
    (ScrollSpy.run ScrollSpy.initial
       [ScrollSpy.Generate (Some Spec.article_with_headings);
        ScrollSpy.Frame 1 (λ i, (i <? 1)%nat);
        ScrollSpy.Scroll; ScrollSpy.Scroll;
        ScrollSpy.Frame 2 (λ i, (i <? 3)%nat);
        ScrollSpy.Frame 3 (λ i, (i <? 2)%nat)])
  = (1, [1%nat], []).
Proof. vm_compute. reflexivity. Qed.

(** ** Markdown renderer: duplicate keys, the table of contents in step *)

Section FrontmatterMore.

Implicit Types (line key raw_key raw_value : string) (meta : gmap string string).

(** A line that is no entry for [key] leaves the value of [key] alone. *)
Lemma parse_line_other meta line key :
  (∀ rk rv, line = rk +:+ ":" +:+ rv → rk ≠ "" →
            free_of (λ x, Ascii.eqb x ":"%char) rk = true → trim rk ≠ key) →
  MarkdownRenderer.parse_line meta line !! key = meta !! key.
Proof.
  intros Hother. unfold MarkdownRenderer.parse_line, MarkdownRenderer.assign.
  destruct (Z.ltb_spec 0 (indexOf line ":")) as [Hi|]; [|reflexivity].
  case_bool_decide; [reflexivity|].
  destruct (indexOf_first line ":"%char) as (Hl & Hfree & Hlen); [lia|].
  apply lookup_insert_ne.
  apply (Hother (slice_to (Z.to_nat (indexOf line ":")) line)
           (slice_from (Z.to_nat (indexOf line ":" + 1)) line));
    [exact Hl| |exact Hfree].
  intros Hempty. rewrite Hempty in Hlen. simpl in Hlen. lia.
Qed.

Lemma parse_lines_other (lines : list string) meta key :
  (∀ rk rv, (rk +:+ ":" +:+ rv) ∈ lines → rk ≠ "" →
            free_of (λ x, Ascii.eqb x ":"%char) rk = true → trim rk ≠ key) →
  fold_left MarkdownRenderer.parse_line lines meta !! key = meta !! key.
Proof.
  revert meta. induction lines as [|l lines IH]; intros meta H; [reflexivity|].
  simpl. rewrite IH.
  - apply parse_line_other. intros rk rv ->. apply (H rk rv), list_elem_of_here.
  - intros rk rv Hin. apply (H rk rv). now apply list_elem_of_further.
Qed.

End FrontmatterMore.

(** X14.  When the front matter gives a key more than once, the last
    line with that key wins: the value stored under the key is the
    trimmed text after the first colon of the last line whose trimmed
    text before the first colon is the key. *)
Theorem frontmatter_last_line_wins (markdown frontmatter content : string)
    (before after : list string) (raw_key raw_value : string) :
  MarkdownRenderer.match_frontmatter markdown = Some (frontmatter, content) →
  split MarkdownRenderer.newline_char frontmatter
  = before ++ (raw_key +:+ ":" +:+ raw_value) :: after →
  raw_key ≠ "" →
  free_of (λ x, Ascii.eqb x ":"%char) raw_key = true →
  trim raw_key ≠ "__proto__" →
  (∀ rk rv, (rk +:+ ":" +:+ rv) ∈ after → rk ≠ "" →
            free_of (λ x, Ascii.eqb x ":"%char) rk = true →
            trim rk ≠ trim raw_key) →
  (MarkdownRenderer.parseFrontmatter markdown).1 !! trim raw_key
  = Some (trim raw_value).
Proof.
  intros Hm Hlines Hne Hfree Hproto Hafter.
  unfold MarkdownRenderer.parseFrontmatter. rewrite Hm, Hlines. simpl.
  rewrite fold_left_app. simpl.
  rewrite parse_lines_other by assumption.
  rewrite parse_line_assigns by assumption.
  unfold MarkdownRenderer.assign.
  rewrite bool_decide_eq_false_2 by assumption. apply lookup_insert_eq.
Qed.

Lemma frontmatter_last_line_wins_witness :
  (MarkdownRenderer.parseFrontmatter
     ("---" +:+ MarkdownRenderer.newline
      +:+ "date: 2024-01-01" +:+ MarkdownRenderer.newline
      +:+ "title: Notes" +:+ MarkdownRenderer.newline
      +:+ "date :  2024-12-28 " +:+ MarkdownRenderer.newline
      +:+ "---" +:+ MarkdownRenderer.newline +:+ "text")).1 !! trim "date "
  = Some (trim "  2024-12-28 ").
Proof.
  apply (frontmatter_last_line_wins _
           ("date: 2024-01-01" +:+ MarkdownRenderer.newline
            +:+ "title: Notes" +:+ MarkdownRenderer.newline
            +:+ "date :  2024-12-28 ")
           "text" ["date: 2024-01-01"; "title: Notes"] [] "date " "  2024-12-28 ").
  - vm_compute. reflexivity.
  - vm_compute. reflexivity.
  - discriminate.
  - reflexivity.
  - vm_compute. discriminate.
  - intros rk rv H. now apply elem_of_nil in H.
Defined.

Section TocInStep.

Context (lib : MarkdownRenderer.Libraries) {NavState : Type}.

Implicit Types (pg : MarkdownRenderer.Page NavState).

Lemma show_generate_in_step (v : MarkdownRenderer.View)
    (contentElement : option Dom.Node) pg :
  MarkdownRenderer.onRender (MarkdownRenderer.markdown pg)
  = Some TableOfContents.generate →
  match v with
  | MarkdownRenderer.ArticleView _ content => contentElement = Some content
  | MarkdownRenderer.Welcome | MarkdownRenderer.ErrorPlaceholder =>
      contentElement = None
  | _ => True
  end →
  MarkdownRenderer.onRender (MarkdownRenderer.markdown
    (MarkdownRenderer.fire_onRender contentElement (MarkdownRenderer.show v pg)))
  = Some TableOfContents.generate
  ∧ Laws.toc_in_step
      (MarkdownRenderer.fire_onRender contentElement (MarkdownRenderer.show v pg)).
Proof.
  intros Hcb Hv. unfold MarkdownRenderer.fire_onRender, MarkdownRenderer.show.
  simpl. rewrite Hcb. simpl. split; [reflexivity|].
  unfold Laws.toc_in_step. simpl.
  destruct (generate_fields contentElement (MarkdownRenderer.toc pg))
    as (Hh & Hl & _ & Hc).
  destruct v; try exact I; subst contentElement.
  - rewrite Hc, Hh, Hl. auto.
  - rewrite Hc, Hh, Hl. auto.
  - rewrite Hh, Hl. auto.
Qed.

Lemma load_resume_in_step (path : string)
    (outcome : MarkdownRenderer.FetchOutcome) pg :
  MarkdownRenderer.onRender (MarkdownRenderer.markdown pg)
  = Some TableOfContents.generate →
  ∃ pg',
    MarkdownRenderer.load_resume lib path outcome pg = MarkdownRenderer.Normal pg'
    ∧ MarkdownRenderer.onRender (MarkdownRenderer.markdown pg')
      = Some TableOfContents.generate
    ∧ Laws.toc_in_step pg'.
Proof.
  intros Hcb.
  assert (Herr : ∃ pg',
    MarkdownRenderer.Normal (MarkdownRenderer.renderError pg)
    = MarkdownRenderer.Normal pg'
    ∧ MarkdownRenderer.onRender (MarkdownRenderer.markdown pg')
      = Some TableOfContents.generate
    ∧ Laws.toc_in_step pg').
  { eexists. split; [reflexivity|].
    now apply (show_generate_in_step MarkdownRenderer.ErrorPlaceholder None). }
  unfold MarkdownRenderer.load_resume, mbind, MarkdownRenderer.completion_bind.
  destruct outcome as [reason|status [markdown|error]]; simpl; [exact Herr| |].
  - destruct (MarkdownRenderer.ok status); simpl; [|exact Herr].
    destruct (MarkdownRenderer.parseFrontmatter markdown) as [meta content].
    unfold MarkdownRenderer.render, mbind, MarkdownRenderer.completion_bind.
    destruct (MarkdownRenderer.marked_parse lib content) as [rawHtml|error];
      simpl; [|exact Herr].
    destruct (MarkdownRenderer.highlight lib _) as [contentDiv|error];
      simpl; [|exact Herr].
    eexists. split; [reflexivity|].
    now apply (show_generate_in_step (MarkdownRenderer.ArticleView _ contentDiv)
                 (Some contentDiv)).
  - destruct (MarkdownRenderer.ok status); simpl; exact Herr.
Qed.

Lemma browser_step_in_step (b : MarkdownRenderer.Browser (NavState := NavState))
    (e : MarkdownRenderer.Event) :
  MarkdownRenderer.onRender (MarkdownRenderer.markdown (MarkdownRenderer.page b))
  = Some TableOfContents.generate →
  Laws.toc_in_step (MarkdownRenderer.page b) →
  MarkdownRenderer.onRender
    (MarkdownRenderer.markdown (MarkdownRenderer.page (MarkdownRenderer.step lib b e)))
  = Some TableOfContents.generate
  ∧ Laws.toc_in_step (MarkdownRenderer.page (MarkdownRenderer.step lib b e)).
Proof.
  intros Hcb Hin. destruct e as [path|fetch outcome]; simpl.
  - unfold MarkdownRenderer.load_begin.
    destruct (truthy path) eqn:Hp; simpl.
    + destruct path as [p|]; [|discriminate]. simpl.
      split; [exact Hcb | exact I].
    + now apply (show_generate_in_step MarkdownRenderer.Welcome None).
  - destruct (MarkdownRenderer.inflight b !! fetch) as [p|]; [|auto]. simpl.
    destruct (load_resume_in_step p outcome (MarkdownRenderer.page b) Hcb)
      as (pg' & -> & H). exact H.
Qed.

End TocInStep.

(** X15.  The table of contents keeps in step with the main container:
    once the application has installed [generate] as the render callback,
    then after any sequence of loads and fetch completions, an article on
    show has exactly its own headings and anchors listed, and the welcome
    and the error screen have the empty table of contents.  (While the
    loading state shows, the table of contents is still the previous
    one.) *)
Theorem toc_follows_container (lib : MarkdownRenderer.Libraries)
    (NavState : Type) (b : MarkdownRenderer.Browser (NavState := NavState))
    (events : list MarkdownRenderer.Event) :
  MarkdownRenderer.onRender (MarkdownRenderer.markdown (MarkdownRenderer.page b))
  = Some TableOfContents.generate →
  Laws.toc_in_step (MarkdownRenderer.page b) →
  Laws.toc_in_step (MarkdownRenderer.page (MarkdownRenderer.run lib b events)).
Proof.
  revert b. induction events as [|e events IH]; intros b Hcb Hin; [exact Hin|].
  simpl. destruct (browser_step_in_step lib b e Hcb Hin) as [Hcb' Hin'].
  now apply IH.
Qed.

Lemma toc_follows_container_witness :
  Laws.toc_in_step
    (MarkdownRenderer.page
       (MarkdownRenderer.run Spec.plain_libraries Spec.fresh_browser
          Spec.overlapping_loads)).
Proof.
  apply (toc_follows_container Spec.plain_libraries unit Spec.fresh_browser
           Spec.overlapping_loads).
  - reflexivity.
  - exact I.
Defined.

(** ** Heading ids of the converter *)

Section SlugifyFacts.

Implicit Types (s : string) (q : ascii → bool).

(** Removing tags removes characters only. *)
Lemma strip_tags_keeps q (inside : bool) s :
  Laws.all_chars q s = true → Laws.all_chars q (Marked.strip_tags inside s) = true.
Proof.
  revert inside. induction s as [|c s IH]; intros inside Hall; [reflexivity|].
  cbn [Laws.all_chars] in Hall. apply andb_true_iff in Hall as [Hc Hs].
  cbn [Marked.strip_tags]. destruct inside.
  - destruct (Ascii.eqb c Marked.gt_char); now apply IH.
  - destruct (Ascii.eqb c Marked.lt_char && Marked.has_gt s); [now apply IH|].
    cbn [Laws.all_chars]. rewrite Hc. now apply IH.
Qed.

(** Text without a [<] has no tag to remove. *)
Lemma strip_tags_id s :
  free_of (λ c, Ascii.eqb c Marked.lt_char) s = true →
  Marked.strip_tags false s = s.
Proof.
  induction s as [|c s IH]; simpl; [reflexivity|].
  rewrite andb_true_iff, negb_true_iff. intros [-> Hs]. simpl.
  now rewrite IH.
Qed.

Lemma toLowerCase_no_lt s :
  free_of (λ c, Ascii.eqb c Marked.lt_char) s = true →
  free_of (λ c, Ascii.eqb c Marked.lt_char) (toLowerCase s) = true.
Proof.
  induction s as [|c s IH]; [reflexivity|].
  cbn [toLowerCase free_of]. rewrite !andb_true_iff. intros [Hc Hs].
  split; [|auto]. revert Hc.
  destruct c as [[] [] [] [] [] [] [] []]; (reflexivity || discriminate).
Qed.

End SlugifyFacts.

(** X16.  The id that the converter gives a heading consists of
    lower-case letters, digits, underscores and hyphens only, with no two
    hyphens in a row; and for heading text without a [<] it is the id that
    the table of contents would derive from the same text, whenever it is
    not empty. *)
Theorem slugify_agrees_with_generateId (text : string) (index : nat) :
  Laws.all_chars Laws.is_id_char (Marked.slugify text) = true
  ∧ Laws.no_run TableOfContents.is_hyphen (Marked.slugify text) = true
  ∧ (free_of (λ c, Ascii.eqb c Marked.lt_char) text = true →
     TableOfContents.generateId text index
     = if Boolean (Marked.slugify text) then Marked.slugify text
       else "heading-" +:+ pretty index).
Proof.
  split; [|split].
  - apply (slug_pipeline (Marked.strip_tags false (toLowerCase text))),
      strip_tags_keeps, toLowerCase_lower.
  - apply (slug_pipeline (Marked.strip_tags false (toLowerCase text))),
      strip_tags_keeps, toLowerCase_lower.
  - intros Hfree. unfold Marked.slugify, TableOfContents.generateId.
    now rewrite strip_tags_id by now apply toLowerCase_no_lt.
Qed.

Lemma slugify_agrees_with_generateId_witness :
  TableOfContents.generateId "What is Apex?" 1
  = if Boolean (Marked.slugify "What is Apex?") then Marked.slugify "What is Apex?"
    else "heading-" +:+ pretty 1%nat.
Proof.
  apply (slugify_agrees_with_generateId "What is Apex?" 1). reflexivity.
Defined.

Example slugify_strips_tags :
  Marked.slugify "Using <code>async</code> & await" = "using-async-await"
  ∧ Marked.slugify "a < b" = "a-b".
Proof. split; reflexivity. Qed.

(** ** Theme and mobile menu *)

(** X17.  Toggling the theme leaves [dark] or [light] set, stores what
    it sets, and points the highlighter's stylesheet (when the page has
    one) to the matching sheet; reloading afterwards restores exactly the
    toggled state whatever the system preference; and from then on
    toggling alternates between the two. *)
Theorem theme_toggle_persists (prefersDark : bool) (env : Theme.Env) :
  (Theme.data_theme (Theme.toggleTheme env) = Some "dark"
   ∨ Theme.data_theme (Theme.toggleTheme env) = Some "light")
  ∧ Theme.stored (Theme.toggleTheme env) = Theme.data_theme (Theme.toggleTheme env)
  ∧ (is_Some (Theme.hljs_href env) →
     Theme.hljs_href (Theme.toggleTheme env)
     = Some (Laws.stylesheet_of
               (default "" (Theme.data_theme (Theme.toggleTheme env)))))
  ∧ Theme.loadTheme prefersDark (Theme.toggleTheme env) = Theme.toggleTheme env
  ∧ Theme.toggleTheme (Theme.toggleTheme (Theme.toggleTheme env))
    = Theme.toggleTheme env.
Proof.
  unfold Theme.toggleTheme, Theme.loadTheme, Theme.updateHighlightTheme.
  destruct env as [theme saved [href|]]; simpl;
    destruct (bool_decide (theme = Some "dark")); simpl;
    (repeat split; try (left; reflexivity); try (right; reflexivity);
     try reflexivity; intros [x Hx]; (reflexivity || discriminate)).
Qed.

Lemma theme_toggle_persists_witness :
  Theme.hljs_href
    (Theme.toggleTheme {| Theme.data_theme := Some "light"; Theme.stored := None;
                          Theme.hljs_href := Some "styles/github.min.css" |})
  = Some "https://cdnjs.cloudflare.com/ajax/libs/highlight.js/11.9.0/styles/github-dark.min.css".
Proof.
  apply (theme_toggle_persists false
           {| Theme.data_theme := Some "light"; Theme.stored := None;
              Theme.hljs_href := Some "styles/github.min.css" |}).
  simpl. eauto.
Defined.

(** X18.  On load the stored theme wins when there is a non-empty one,
    whatever it is; with nothing stored, or the empty string, the system
    preference decides between [dark] and [light]; loading never writes
    the store. *)
Theorem theme_load_precedence (prefersDark : bool) (env : Theme.Env) :
  (∀ saved, Theme.stored env = Some saved → Boolean saved = true →
            Theme.data_theme (Theme.loadTheme prefersDark env) = Some saved)
  ∧ (truthy (Theme.stored env) = false →
     Theme.data_theme (Theme.loadTheme prefersDark env)
     = Some (if prefersDark then "dark" else "light"))
  ∧ Theme.stored (Theme.loadTheme prefersDark env) = Theme.stored env.
Proof.
  unfold Theme.loadTheme, Theme.updateHighlightTheme.
  destruct env as [theme saved [href|]]; simpl; repeat split.
  all: try (intros s -> Hs; simpl; now rewrite Hs).
  all: intros ->; reflexivity.
Qed.

Lemma theme_load_precedence_witness :
  Theme.data_theme
    (Theme.loadTheme true {| Theme.data_theme := None; Theme.stored := Some "";
                             Theme.hljs_href := None |})
  = Some "dark".
Proof.
  apply (theme_load_precedence true
           {| Theme.data_theme := None; Theme.stored := Some "";
              Theme.hljs_href := None |}).
  reflexivity.
Defined.

Section MenuFacts.

Lemma menu_step_good (app : Theme.Env * Menu.State) (e : Menu.Event) :
  Laws.menu_good app.2 → Laws.menu_good (Menu.step app e).2.
Proof.
  destruct app as [theme [side over coll flow]].
  unfold Laws.menu_good. simpl. intros [-> ->].
  destruct e as [| |w|tag key w|]; simpl;
    unfold Menu.handleResize, Menu.handleKeydown, Menu.toggleSidebar;
    repeat case_bool_decide; simpl;
    try destruct (900 <? w); try destruct (w <=? 900);
    destruct side; simpl; split; reflexivity.
Qed.

End MenuFacts.

(** X19.  However the menu button, the overlay, the keyboard, resizing
    and article loads follow each other, the overlay stays shown exactly
    while the mobile menu is open, and the page behind stays locked
    against scrolling exactly then. *)
Theorem menu_overlay_in_step (app : Theme.Env * Menu.State)
    (events : list Menu.Event) :
  Laws.menu_good app.2 → Laws.menu_good (Menu.run app events).2.
Proof.
  revert app. induction events as [|e events IH]; intros app Hg; [exact Hg|].
  simpl. apply IH. now apply menu_step_good.
Qed.

Lemma menu_overlay_in_step_witness :
  Laws.menu_good
    (Menu.run ({| Theme.data_theme := None; Theme.stored := None;
                  Theme.hljs_href := None |}, Menu.initial)
       [Menu.MenuButton; Menu.Key "BODY" "B" 640; Menu.Key "BODY" "b" 1280;
        Menu.MenuButton; Menu.Resize 1280]).2.
Proof.
  apply (menu_overlay_in_step
           ({| Theme.data_theme := None; Theme.stored := None;
               Theme.hljs_href := None |}, Menu.initial)).
  split; reflexivity.
Defined.

(** ** Slugs of the manifest generator *)

Section SlugFacts.

Implicit Types (s name : string).

Lemma drop_md_id s :
  Laws.all_chars Build.is_slug_char s = true → Build.drop_md s = s.
Proof.
  induction s as [|c s IH]; [reflexivity|].
  cbn [Laws.all_chars]. rewrite andb_true_iff. intros [Hc Hs].
  cbn [Build.drop_md]. rewrite IH by assumption.
  case_bool_decide as E; [|reflexivity].
  injection E as -> _. discriminate Hc.
Qed.

Lemma slug_chars_lower s :
  Laws.all_chars Build.is_slug_char s = true →
  Laws.all_chars (λ c, negb ((65 <=? nat_of_ascii c)%nat && (nat_of_ascii c <=? 90)%nat))
    s = true
  ∧ free_of is_space s = true
  ∧ free_of (λ c, Ascii.eqb c "/"%char || Ascii.eqb c "#"%char || is_space c) s = true.
Proof.
  intros H. rewrite <- !all_chars_free.
  repeat split; (eapply all_chars_impl; [|exact H]); intros c;
    destruct c as [[] [] [] [] [] [] [] []]; (reflexivity || discriminate).
Qed.

End SlugFacts.

(** X20.  A slug made by [toSlug] consists of lower-case letters, digits
    and hyphens only; making a slug of a slug changes nothing; and a
    slug that is not empty is slug-safe. *)
Theorem toSlug_safe (name : string) :
  Laws.all_chars Build.is_slug_char (Build.toSlug name) = true
  ∧ Build.toSlug (Build.toSlug name) = Build.toSlug name
  ∧ (Boolean (Build.toSlug name) = true →
     Spec.slug_safe (Build.toSlug name) = true).
Proof.
  assert (H : Laws.all_chars Build.is_slug_char (Build.toSlug name) = true)
    by apply strip_all.
  destruct (slug_chars_lower _ H) as (Hlow & Hsp & Hsafe).
  split; [exact H|]. split.
  - unfold Build.toSlug at 1.
    rewrite drop_md_id, toLowerCase_id, collapse_id, strip_id by assumption.
    reflexivity.
  - intros Hb. unfold Spec.slug_safe. now rewrite Hb, Hsafe.
Qed.

Lemma toSlug_safe_witness :
  Spec.slug_safe (Build.toSlug "User Management.md") = true.
Proof.
  apply (toSlug_safe "User Management.md"). reflexivity.
Defined.

(** X21.  Slugs of the generator survive the route round trip: for a
    skill folder, a topic folder and an article file whose slugs are not
    empty, navigating to the path built from the three slugs and parsing
    the fragment gives these slugs back. *)
Theorem toSlug_route_roundtrip (skillFolder topicFolder articleFile : string) :
  Boolean (Build.toSlug skillFolder) = true →
  Boolean (Build.toSlug topicFolder) = true →
  Boolean (Build.toSlug articleFile) = true →
  Router.parseHash (Router.navigate
    (Router.buildPath (Some (Build.toSlug skillFolder))
       (Some (Build.toSlug topicFolder)) (Some (Build.toSlug articleFile))))
  = {| Router.skill := Some (Build.toSlug skillFolder);
       Router.topic := Some (Build.toSlug topicFolder);
       Router.article := Some (Build.toSlug articleFile);
       Router.path := "/" +:+ Build.toSlug skillFolder +:+ "/"
                      +:+ Build.toSlug topicFolder +:+ "/"
                      +:+ Build.toSlug articleFile;
       Router.parts := [Build.toSlug skillFolder; Build.toSlug topicFolder;
                        Build.toSlug articleFile] |}.
Proof.
  intros Bs Bt Ba.
  assert (Hfree : ∀ name, Spec.part_safe (Build.toSlug name) = true).
  { intros name. unfold Spec.part_safe. rewrite <- all_chars_free.
    eapply all_chars_impl; [|apply (strip_all Build.is_slug_char)].
    intros c. destruct c as [[] [] [] [] [] [] [] []]; (reflexivity || discriminate). }
  now apply parseHash_navigate_buildPath.
Qed.

Lemma toSlug_route_roundtrip_witness :
  Router.parseHash (Router.navigate
    (Router.buildPath (Some (Build.toSlug "Salesforce"))
       (Some (Build.toSlug "Admin")) (Some (Build.toSlug "user-management.md"))))
  = {| Router.skill := Some (Build.toSlug "Salesforce");
       Router.topic := Some (Build.toSlug "Admin");
       Router.article := Some (Build.toSlug "user-management.md");
       Router.path := "/" +:+ Build.toSlug "Salesforce" +:+ "/"
                      +:+ Build.toSlug "Admin" +:+ "/"
                      +:+ Build.toSlug "user-management.md";
       Router.parts := [Build.toSlug "Salesforce"; Build.toSlug "Admin";
                        Build.toSlug "user-management.md"] |}.
Proof.
  apply (toSlug_route_roundtrip "Salesforce" "Admin" "user-management.md");
    reflexivity.
Defined.

Example toSlug_samples :
  Build.toSlug "User  Management.md" = "user-management"
  ∧ Build.toSlug "C++ & Java_Notes.MD" = "c--javanotesmd"
  ∧ Build.toSlug ".md" = "".
Proof. repeat split; reflexivity. Qed.
